(** * Tool-calling loop and plan-delegate-synthesize orchestration

    A shallow embedding of [agent.py] (class [GeminiMCPAgent]) and
    [multi_agent.py] (classes [SpecialistAgent] and [Orchestrator]), and the
    properties of the two tool-calling loops and of [Orchestrator.process].

    The program talks to three collaborators that are not part of the
    repository: the LLM client ([client.models.generate_content]), the MCP
    sessions ([session.call_tool]) and the Python runtime ([json.loads],
    [str] of a value that is not a string).  They are gathered in a record
    [Env] of oracles; every theorem is stated for an arbitrary [Env].
    Exceptions are explicit: a computation returns [Ok v] or [Raise e].

    The code is asynchronous but strictly sequential: every [await] is
    waited for before the next statement runs, so [await f(x)] is modelled
    as the call [f x].  What the program prints ([print], [log_box]) is
    left out; the evaluation of what is printed is kept where it can
    raise ([dict(fc.args)] in the line that announces a tool call, the
    plan summary of [Orchestrator.process]). *)

From Stdlib Require Import String Ascii List ZArith Floats Lia.
From stdpp Require Import base option gmap strings list.

#[local] Set Warnings "-register-all".
#[local] Open Scope string_scope.
#[local] Open Scope list_scope.

(* ------------------------------------------------------------------ *)
(** ** Python values, exceptions and the few built-ins the code uses   *)
(* ------------------------------------------------------------------ *)

Module Py.

(** The exceptions the modelled code can raise, or let through. *)
Inductive exn :=
| JSONDecodeError                (* json.loads on a malformed document *)
| KeyError (key : string)        (* d[key] on a dict without that key *)
| TypeError                      (* subscripting, iterating or dict() of the wrong type *)
| AttributeError                 (* .get / .capitalize / .parts on the wrong type *)
| IndexError                     (* [0] on an empty list *)
| ExternalError (msg : string).  (* raised by the LLM client or an MCP session *)

Inductive result (A : Type) :=
| Ok (a : A)
| Raise (e : exn).
Arguments Ok {A} a.
Arguments Raise {A} e.

(** What [json.loads] produces.  A JSON object is a Python dict, which
    keeps its keys in insertion order; a key is looked up from the left
    ([json.loads] itself leaves no key twice). *)
Inductive json :=
| JNull
| JBool (b : bool)
| JInt (z : Z)
| JFloat (f : float)
| JStr (s : string)
| JArr (items : list json)
| JObj (members : list (string * json)).

(** Truth value of a Python object, as tested by [if x] and [not x]. *)
Definition truthy (v : json) : bool :=
  match v with
  | JNull => false
  | JBool b => b
  | JInt z => negb (Z.eqb z 0)
  | JFloat f => negb (PrimFloat.eqb f PrimFloat.zero)
  | JStr s => negb (String.eqb s EmptyString)
  | JArr items => match items with [] => false | _ => true end
  | JObj members => match members with [] => false | _ => true end
  end.

(** An insertion-ordered dict with string keys: [d[k] = v] replaces the
    value in place when [k] is present and appends the pair otherwise. *)
Fixpoint dict_set {V : Type} (k : string) (v : V) (d : list (string * V))
  : list (string * V) :=
  match d with
  | [] => [(k, v)]
  | (k', v') :: d' =>
      if String.eqb k' k then (k', v) :: d' else (k', v') :: dict_set k v d'
  end.

Fixpoint dict_lookup {V : Type} (k : string) (d : list (string * V)) : option V :=
  match d with
  | [] => None
  | (k', v') :: d' => if String.eqb k' k then Some v' else dict_lookup k d'
  end.

(** [plan.get(key, default)]: only a dict has [.get]. *)
Definition get (v : json) (key : string) (default : json) : result json :=
  match v with
  | JObj members =>
      Ok (match dict_lookup key members with Some x => x | None => default end)
  | _ => Raise AttributeError
  end.

(** [v[key]] with a string key: a dict looks the key up, any other JSON
    value refuses a string subscript. *)
Definition getitem (v : json) (key : string) : result json :=
  match v with
  | JObj members =>
      match dict_lookup key members with
      | Some x => Ok x
      | None => Raise (KeyError key)
      end
  | _ => Raise TypeError
  end.

(** The elements a [for] loop or a generator sees: the items of a list,
    the keys of a dict, the characters of a string (taken here byte by
    byte: the code subscripts each of them with a string, which a
    character refuses whatever it is). *)
Definition iter (v : json) : result (list json) :=
  match v with
  | JArr items => Ok items
  | JObj members => Ok (map (fun kv => JStr (fst kv)) members)
  | JStr s => Ok (map (fun c => JStr (String c EmptyString)) (list_ascii_of_string s))
  | _ => Raise TypeError
  end.

(** [dict(v)] for [v] a dict or [None]: a copy, or a [TypeError]. *)
Definition dict {V : Type} (v : option (list (string * V)))
  : result (list (string * V)) :=
  match v with
  | Some members => Ok members
  | None => Raise TypeError
  end.

(** [f"{v}"] for [v] a string or [None]. *)
Definition format_optional (v : option string) : string :=
  match v with
  | Some s => s
  | None => "None"
  end.

(** The line feed of ["\n"]. *)
Definition nl : string := String "010"%char EmptyString.

(** [sep.join(items)]. *)
Definition join (sep : string) (items : list string) : string :=
  String.concat sep items.

End Py.
Import Py.

(* ------------------------------------------------------------------ *)
(** ** The LLM boundary ([google.genai.types])                         *)
(* ------------------------------------------------------------------ *)

Module types.

(** The fields of the SDK's objects are optional: each of them may be
    [None]. *)
Record FunctionCall := {
  fc_name : option string;
  fc_args : option (list (string * json))
}.

Record FunctionResponse := {
  fr_name : option string;
  fr_response : list (string * string)
}.

(** A part carries a text, a tool-call request or a tool result. *)
Record Part := {
  text : option string;
  function_call : option FunctionCall;
  function_response : option FunctionResponse
}.

Definition Part_from_text (t : string) : Part :=
  {| text := Some t; function_call := None; function_response := None |}.

Definition Part_from_function_call (fc : FunctionCall) : Part :=
  {| text := None; function_call := Some fc; function_response := None |}.

Definition Part_from_function_response
  (name : option string) (response : list (string * string)) : Part :=
  {| text := None; function_call := None;
     function_response := Some {| fr_name := name; fr_response := response |} |}.

Record Content := {
  role : option string;
  parts : option (list Part)
}.

Record Candidate := {
  content : option Content
}.

(** What [generate_content] returns. *)
Record GenerateContentResponse := {
  candidates : option (list Candidate)
}.

Record FunctionDeclaration := {
  fd_name : string;
  fd_description : string;
  fd_parameters_json_schema : json
}.

Record Tool := {
  function_declarations : list FunctionDeclaration
}.

Record GenerateContentConfig := {
  system_instruction : option string;
  tools : option (list Tool);
  response_mime_type : option string;
  (* automatic_function_calling=AutomaticFunctionCallingConfig(disable=b) *)
  automatic_function_calling_disable : option bool
}.

(** The arguments of one [generate_content] call. *)
Record Request := {
  model : string;
  contents : list Content;
  config : GenerateContentConfig
}.

End types.
Import types.

(* ------------------------------------------------------------------ *)
(** ** The tool-provider boundary ([mcp])                              *)
(* ------------------------------------------------------------------ *)

Module mcp.

(** A live session with one MCP server, an opaque handle. *)
Definition ClientSession := nat.

(** A block of [result.content]: [block_text] is its [text] attribute
    when it has one, [block_str] is [str(block)]. *)
Record ContentBlock := {
  block_text : option string;
  block_str : string
}.

(** The arguments of one [call_tool] call. *)
Record ToolRequest := {
  tr_session : ClientSession;
  tr_name : option string;
  tr_arguments : list (string * json)
}.

End mcp.
Import mcp.

(* ------------------------------------------------------------------ *)
(** ** Environment, observable state and the computation monad         *)
(* ------------------------------------------------------------------ *)

(** The collaborators.  The [n]-th call to the LLM (counting from 0 over the
    whole execution) with request [req] answers
    [generate_content n req]: a response, or an exception.  Likewise for
    the [n]-th tool call. *)
Record Env := {
  generate_content : nat -> Request -> result GenerateContentResponse;
  call_tool : nat -> ToolRequest -> result (list ContentBlock);
  json_loads : string -> option json;
  (* str(v) for a JSON value v that is not a string *)
  py_str : json -> string
}.

(** One [specialist.run(full_task)] call made by the orchestrator: the key
    of the plan step, the task string passed, and how the call ended. *)
Record Delegation := {
  d_agent : string;
  d_task : string;
  d_outcome : result string
}.

(** Everything the program did at its boundaries so far, oldest first.
    [delegations] is an observation of the orchestrator's calls to
    [SpecialistAgent.run]; the program never reads it. *)
Record State := {
  llm_requests : list Request;
  tool_requests : list ToolRequest;
  delegations : list Delegation
}.

Definition initial_state : State :=
  {| llm_requests := []; tool_requests := []; delegations := [] |}.

Definition log_llm (req : Request) (st : State) : State :=
  {| llm_requests := llm_requests st ++ [req];
     tool_requests := tool_requests st;
     delegations := delegations st |}.

Definition log_tool (req : ToolRequest) (st : State) : State :=
  {| llm_requests := llm_requests st;
     tool_requests := tool_requests st ++ [req];
     delegations := delegations st |}.

Definition log_delegation (d : Delegation) (st : State) : State :=
  {| llm_requests := llm_requests st;
     tool_requests := tool_requests st;
     delegations := delegations st ++ [d] |}.

(** A computation threads the state and may raise. *)
Definition M (A : Type) : Type := State -> State * result A.

Definition ret {A : Type} (a : A) : M A := fun st => (st, Ok a).

Definition raise {A : Type} (e : exn) : M A := fun st => (st, Raise e).

Definition bind {A B : Type} (m : M A) (k : A -> M B) : M B :=
  fun st =>
    match m st with
    | (st', Ok a) => k a st'
    | (st', Raise e) => (st', Raise e)
    end.

Definition lift {A : Type} (r : result A) : M A := fun st => (st, r).

Declare Scope m_scope.
Delimit Scope m_scope with M.
Notation "x <- c1 ;; c2" := (bind c1 (fun x => c2))
  (at level 100, c1 at next level, right associativity) : m_scope.
#[local] Open Scope m_scope.

Section Boundary.
Variable env : Env.

(** [client.models.generate_content(...)]. *)
Definition generate (req : Request) : M GenerateContentResponse :=
  fun st => (log_llm req st, generate_content env (length (llm_requests st)) req).

(** [await session.call_tool(name, arguments)]. *)
Definition session_call_tool
  (session : ClientSession) (name : option string) (arguments : list (string * json))
  : M (list ContentBlock) :=
  fun st =>
    let req := {| tr_session := session; tr_name := name; tr_arguments := arguments |} in
    (log_tool req st, call_tool env (length (tool_requests st)) req).
End Boundary.

(* ------------------------------------------------------------------ *)
(** ** Reading a response                                              *)
(* ------------------------------------------------------------------ *)

(** [response.candidates[0].content], read for its [parts]: [None] and
    the empty list have no first element, and [None] has no [parts]. *)
Definition candidate_content (response : GenerateContentResponse) : result Content :=
  match candidates response with
  | None => Raise TypeError
  | Some [] => Raise IndexError
  | Some (candidate :: _) =>
      match content candidate with
      | None => Raise AttributeError
      | Some content => Ok content
      end
  end.

(** [for p in parts]: [None] is not iterable. *)
Definition iter_parts (content : Content) : result (list Part) :=
  match parts content with
  | None => Raise TypeError
  | Some parts => Ok parts
  end.

(** [response.candidates[0].content.parts[0]]: [None] is not
    subscriptable. *)
Definition first_part (response : GenerateContentResponse) : result Part :=
  match candidate_content response with
  | Raise e => Raise e
  | Ok content =>
      match parts content with
      | None => Raise TypeError
      | Some [] => Raise IndexError
      | Some (part :: _) => Ok part
      end
  end.

(** [self.tools_map.get(fc.name)]: the keys of the routing table are
    strings, [None] is not among them. *)
Definition tools_map_get (tools_map : gmap string string) (name : option string)
  : option string :=
  match name with
  | Some name => tools_map !! name
  | None => None
  end.

(* ------------------------------------------------------------------ *)
(** ** Text of the final answer and of a tool result                   *)
(* ------------------------------------------------------------------ *)

(** [[p for p in parts if p.function_call]] *)
Definition has_function_call (p : Part) : bool :=
  match function_call p with Some _ => true | None => false end.

(** [[p.text for p in parts if hasattr(p, "text") and p.text]] *)
Definition truthy_text (p : Part) : option string :=
  match text p with
  | Some t => if String.eqb t EmptyString then None else Some t
  | None => None
  end.

(** The placeholder returned for a response without text. *)
Definition EMPTY_RESPONSE : string := "(빈 응답)".

(** The string returned when the iteration cap is reached. *)
Definition MAX_ITERATIONS_WARNING : string :=
  "[경고] 최대 반복 횟수(10)에 도달했습니다.".

(** [f"오류: 알 수 없는 도구 '{fc.name}'"] *)
Definition unknown_tool_text (name : option string) : string :=
  "오류: 알 수 없는 도구 '" +:+ format_optional name +:+ "'".

(** ["\n".join(texts) if texts else "(빈 응답)"] *)
Definition final_text (parts : list Part) : string :=
  let texts := omap truthy_text parts in
  match texts with
  | [] => EMPTY_RESPONSE
  | _ => join nl texts
  end.

(** ["\n".join(getattr(block, "text", str(block)) for block in result.content)] *)
Definition flatten_content (content : list ContentBlock) : string :=
  join nl (map (fun block =>
                  match block_text block with
                  | Some t => t
                  | None => block_str block
                  end) content).

(* ------------------------------------------------------------------ *)
(** ** agent.py                                                        *)
(* ------------------------------------------------------------------ *)

Module agent.

(** The fields of [GeminiMCPAgent] that [query] reads. *)
Record GeminiMCPAgent := {
  sessions : gmap string ClientSession;
  tools_map : gmap string string;     (* tool_name -> server_name *)
  gemini_tools : list Tool
}.

Section Query.
Variable env : Env.
Variable self : GeminiMCPAgent.

(** The request of lines 87-96. *)
Definition request (messages : list Content) : Request :=
  {| model := "gemini-2.5-flash";
     contents := messages;
     config :=
       {| system_instruction := None;
          tools := match gemini_tools self with
                   | [] => None
                   | ts => Some ts
                   end;
          response_mime_type := None;
          automatic_function_calling_disable := Some true |} |}.

(** Lines 113-133, the body of [for part in function_calls]: announce
    the call, resolve the tool, call it, wrap the text in a
    function-response part.  Line 115 evaluates [dict(fc.args)] for the
    line it prints, before the routing table is read; line 122 evaluates
    it again, to the same value. *)
Definition execute_call (part : Part) : M Part :=
  match function_call part with
  | None => raise AttributeError
  | Some fc =>
      arguments <- lift (dict (fc_args fc)) ;;
      result_text <-
        match tools_map_get (tools_map self) (fc_name fc) with
        | None => ret (unknown_tool_text (fc_name fc))
        | Some server_name =>
            if String.eqb server_name EmptyString then
              ret (unknown_tool_text (fc_name fc))
            else
              match sessions self !! server_name with
              | None => raise (KeyError server_name)
              | Some session =>
                  content <- session_call_tool env session (fc_name fc) arguments ;;
                  ret (flatten_content content)
              end
        end ;;
      ret (Part_from_function_response (fc_name fc) [("result", result_text)])
  end.

(** Lines 112-133: [tool_results] grows by one part per call. *)
Fixpoint execute_calls (function_calls : list Part) (tool_results : list Part)
  : M (list Part) :=
  match function_calls with
  | [] => ret tool_results
  | part :: rest =>
      p <- execute_call part ;;
      execute_calls rest (tool_results ++ [p])
  end.

(** Lines 86-138: [for iteration in range(10)], with [iterations]
    rounds left, followed by the final [return]. *)
Fixpoint query_loop (iterations : nat) (messages : list Content) : M string :=
  match iterations with
  | O => ret MAX_ITERATIONS_WARNING
  | S remaining =>
      response <- generate env (request messages) ;;
      content <- lift (candidate_content response) ;;
      parts <- lift (iter_parts content) ;;
      let function_calls := List.filter has_function_call parts in
      match function_calls with
      | [] => ret (final_text parts)
      | _ =>
          let messages := messages ++ [content] in
          tool_results <- execute_calls function_calls [] ;;
          query_loop remaining
            (messages ++ [{| role := Some "user"; parts := Some tool_results |}])
      end
  end.

Definition query (user_input : string) : M string :=
  query_loop 10 [{| role := Some "user"; parts := Some [Part_from_text user_input] |}].

End Query.

End agent.

(* ------------------------------------------------------------------ *)
(** ** multi_agent.py                                                  *)
(* ------------------------------------------------------------------ *)

Module multi_agent.

(** The double quote, and a text given line by line, each line ended by
    a line feed, as in a triple-quoted literal. *)
Definition dq : string := String "034"%char EmptyString.

Definition unlines (lines : list string) : string :=
  String.concat EmptyString (map (fun l => l +:+ nl) lines).

Record SpecialistAgent := {
  name : string;
  system_prompt : string;
  gemini_tools : list Tool;
  sessions : gmap string ClientSession;
  tools_map : gmap string string
}.

(** [SpecialistAgent.__init__]: an argument left out, or empty, is
    replaced by the empty list or dict. *)
Definition SpecialistAgent_init
  (name system_prompt : string)
  (gemini_tools : option (list Tool))
  (sessions : option (gmap string ClientSession))
  (tools_map : option (gmap string string)) : SpecialistAgent :=
  {| name := name;
     system_prompt := system_prompt;
     gemini_tools := default [] gemini_tools;
     sessions := default ∅ sessions;
     tools_map := default ∅ tools_map |}.

Section Run.
Variable env : Env.
Variable self : SpecialistAgent.

(** The request of lines 64-74. *)
Definition request (messages : list Content) : Request :=
  {| model := "gemini-2.5-flash";
     contents := messages;
     config :=
       {| system_instruction := Some (system_prompt self);
          tools := match gemini_tools self with
                   | [] => None
                   | ts => Some ts
                   end;
          response_mime_type := None;
          automatic_function_calling_disable := Some true |} |}.

(** Lines 93-113, the body of [for part in function_calls].  Line 95
    evaluates [dict(fc.args)] for the log line, before the routing table
    is read; line 102 evaluates it again, to the same value. *)
Definition execute_call (part : Part) : M Part :=
  match function_call part with
  | None => raise AttributeError
  | Some fc =>
      arguments <- lift (dict (fc_args fc)) ;;
      result_text <-
        match tools_map_get (tools_map self) (fc_name fc) with
        | None => ret (unknown_tool_text (fc_name fc))
        | Some server_name =>
            if String.eqb server_name EmptyString then
              ret (unknown_tool_text (fc_name fc))
            else
              match sessions self !! server_name with
              | None => raise (KeyError server_name)
              | Some session =>
                  content <- session_call_tool env session (fc_name fc) arguments ;;
                  ret (flatten_content content)
              end
        end ;;
      ret (Part_from_function_response (fc_name fc) [("result", result_text)])
  end.

(** Lines 92-113. *)
Fixpoint execute_calls (function_calls : list Part) (tool_results : list Part)
  : M (list Part) :=
  match function_calls with
  | [] => ret tool_results
  | part :: rest =>
      p <- execute_call part ;;
      execute_calls rest (tool_results ++ [p])
  end.

(** Lines 63-119: [for _ in range(10)], with [iterations] rounds
    left, followed by the final [return]. *)
Fixpoint run_loop (iterations : nat) (messages : list Content) : M string :=
  match iterations with
  | O => ret MAX_ITERATIONS_WARNING
  | S remaining =>
      response <- generate env (request messages) ;;
      content <- lift (candidate_content response) ;;
      parts <- lift (iter_parts content) ;;
      let function_calls := List.filter has_function_call parts in
      match function_calls with
      | [] => ret (final_text parts)
      | _ =>
          let messages := messages ++ [content] in
          tool_results <- execute_calls function_calls [] ;;
          run_loop remaining
            (messages ++ [{| role := Some "user"; parts := Some tool_results |}])
      end
  end.

Definition run (task : string) : M string :=
  run_loop 10 [{| role := Some "user"; parts := Some [Part_from_text task] |}].

End Run.

Definition ORCHESTRATOR_SYSTEM_PROMPT : string :=
  unlines [
    "당신은 멀티에이전트 시스템의 오케스트레이터입니다.";
    "사용자의 요청을 분석하여 전문 에이전트에게 위임할 실행 계획을 수립합니다.";
    EmptyString;
    "사용 가능한 에이전트:";
    "- analyst: 데이터 수집 전문가. MCP 도구를 사용하여 커밋, 활동, 인사이트 등의 데이터를 수집합니다.";
    "- writer: 문서 작성 전문가. 수집된 데이터를 바탕으로 보고서, 요약, 이력서 항목 등을 작성합니다.";
    "- reviewer: 검토 전문가. 작성된 결과물의 품질을 평가하고 개선점을 제안합니다.";
    EmptyString;
    "반드시 다음 JSON 형식으로만 응답하세요:";
    EmptyString;
    "단순 인사/질문 (에이전트 불필요):";
    "{" +:+ dq +:+ "needs_specialists" +:+ dq +:+ ": false, " +:+ dq +:+ "direct_response" +:+ dq +:+ ": " +:+ dq +:+ "응답 내용" +:+ dq +:+ "}";
    EmptyString;
    "복합 작업 (에이전트 필요):";
    "{" +:+ dq +:+ "needs_specialists" +:+ dq +:+ ": true, " +:+ dq +:+ "plan" +:+ dq +:+ ": [{" +:+ dq +:+ "agent" +:+ dq +:+ ": " +:+ dq +:+ "analyst" +:+ dq +:+ ", " +:+ dq +:+ "task" +:+ dq +:+ ": " +:+ dq +:+ "구체적 작업 설명" +:+ dq +:+ "}, {" +:+ dq +:+ "agent" +:+ dq +:+ ": " +:+ dq +:+ "writer" +:+ dq +:+ ", " +:+ dq +:+ "task" +:+ dq +:+ ": " +:+ dq +:+ "구체적 작업 설명" +:+ dq +:+ "}]}";
    EmptyString;
    "규칙:";
    "- 데이터 수집이 필요하면 반드시 analyst를 먼저 배치";
    "- 문서/보고서 작성이 필요하면 writer 배치";
    "- 품질 검증이 필요하면 reviewer를 마지막에 배치";
    "- 단순 인사나 간단한 질문은 직접 응답 (needs_specialists: false)";
    "- 모든 에이전트를 매번 사용할 필요 없음 (필요한 것만 선택)"
  ].

Record Orchestrator := {
  specialists : gmap string SpecialistAgent
}.

(** The steps and their results so far, [dict[str, str]] in insertion
    order. *)
Definition Results := list (string * string).

Section Process.
Variable env : Env.
Variable self : Orchestrator.

(** [f"{v}"]: a string is inserted as it is, any other value through
    [str]. *)
Definition format_value (v : json) : string :=
  match v with
  | JStr s => s
  | _ => py_str env v
  end.

(** The request of lines 165-177. *)
Definition plan_request (user_input : string) : Request :=
  {| model := "gemini-2.5-flash";
     contents := [{| role := Some "user"; parts := Some [Part_from_text user_input] |}];
     config :=
       {| system_instruction := Some ORCHESTRATOR_SYSTEM_PROMPT;
          tools := None;
          response_mime_type := Some "application/json";
          automatic_function_calling_disable := None |} |}.

(** Lines 163-180: [json.loads] of the text of the first part;
    [json.loads(None)] raises [TypeError]. *)
Definition _create_plan (user_input : string) : M json :=
  response <- generate env (plan_request user_input) ;;
  part <- lift (first_part response) ;;
  match text part with
  | None => raise TypeError
  | Some t =>
      match json_loads env t with
      | Some plan => ret plan
      | None => raise JSONDecodeError
      end
  end.

(** Line 197: [s["agent"].capitalize()] is evaluated for every step
    before the first one runs.  The joined summary is only printed;
    what remains here is whether its evaluation raises. *)
Fixpoint step_summary (steps : list json) : result unit :=
  match steps with
  | [] => Ok tt
  | s :: rest =>
      match getitem s "agent" with
      | Ok (JStr _) => step_summary rest
      | Ok _ => Raise AttributeError
      | Raise e => Raise e
      end
  end.

(** Line 201. *)
Definition context (user_input : string) : string :=
  "원래 사용자 요청: " +:+ user_input +:+ nl +:+ nl.

(** [f"--- {name} 결과 ---\n{result}\n\n"] *)
Definition labelled (entry : string * string) : string :=
  "--- " +:+ fst entry +:+ " 결과 ---" +:+ nl +:+ snd entry +:+ nl +:+ nl.

(** Lines 214-218. *)
Definition build_full_task (user_input : string) (task : json) (results : Results)
  : string :=
  let full_task := context user_input +:+ "현재 작업: " +:+ format_value task in
  match results with
  | [] => full_task
  | _ =>
      fold_left (fun full_task entry => full_task +:+ labelled entry) results
        (full_task +:+ nl +:+ nl +:+ "이전 단계 결과:" +:+ nl)
  end.

(** Line 220, [await specialist.run(full_task)], with the call and its
    outcome recorded in [delegations]. *)
Definition delegate (agent_name : string) (specialist : SpecialistAgent)
  (full_task : string) : M string :=
  fun st =>
    let (st', outcome) := run env specialist full_task st in
    (log_delegation {| d_agent := agent_name; d_task := full_task;
                       d_outcome := outcome |} st',
     outcome).

(** Lines 205-221, the body of [for step in steps]. *)
Definition run_step (user_input : string) (step : json) (results : Results)
  : M Results :=
  agent_name <- lift (getitem step "agent") ;;
  task <- lift (getitem step "task") ;;
  match agent_name with
  | JStr agent_name =>
      match specialists self !! agent_name with
      | None => ret results                     (* continue *)
      | Some specialist =>
          let full_task := build_full_task user_input task results in
          result <- delegate agent_name specialist full_task ;;
          ret (dict_set agent_name result results)
      end
  | JArr _ | JObj _ => raise TypeError          (* unhashable key *)
  | _ => ret results                            (* no such key: continue *)
  end.

(** Lines 204-221. *)
Fixpoint run_steps (user_input : string) (steps : list json) (results : Results)
  : M Results :=
  match steps with
  | [] => ret results
  | step :: rest =>
      results <- run_step user_input step results ;;
      run_steps user_input rest results
  end.

(** Lines 228-233. *)
Definition synthesis_prompt (user_input : string) (results : Results) : string :=
  fold_left (fun synthesis_prompt entry => synthesis_prompt +:+ labelled entry)
    results
    ("원래 사용자 요청: " +:+ user_input +:+ nl +:+ nl +:+
     "각 전문가의 결과를 통합하여 최종 응답을 만들어주세요:" +:+ nl +:+ nl).

Definition EDITOR_INSTRUCTION : string :=
  "여러 전문가의 결과를 통합하는 편집자입니다. " +:+
  "리뷰어의 피드백이 있다면 이를 반영하여 최종 응답을 만드세요.".

(** The request of lines 235-249. *)
Definition synthesis_request (user_input : string) (results : Results) : Request :=
  {| model := "gemini-2.5-flash";
     contents :=
       [{| role := Some "user";
           parts := Some [Part_from_text (synthesis_prompt user_input results)] |}];
     config :=
       {| system_instruction := Some EDITOR_INSTRUCTION;
          tools := None;
          response_mime_type := None;
          automatic_function_calling_disable := None |} |}.

(** [response.candidates[0].content.parts[0].text], which is [None]
    for a first part without text. *)
Definition first_part_text (response : GenerateContentResponse) : result json :=
  match first_part response with
  | Raise e => Raise e
  | Ok part => Ok (match text part with Some t => JStr t | None => JNull end)
  end.

(** Lines 223-252: the single result as it is, or one more LLM call. *)
Definition synthesis (user_input : string) (results : Results) : M json :=
  match results with
  | [(_, result)] => ret (JStr result)
  | _ =>
      response <- generate env (synthesis_request user_input results) ;;
      lift (first_part_text response)
  end.

(** Lines 189-252: what [process] does with the decoded plan. *)
Definition process_plan (user_input : string) (plan : json) : M json :=
  needs_specialists <- lift (get plan "needs_specialists" (JBool false)) ;;
  if negb (truthy needs_specialists) then
    lift (get plan "direct_response" (JStr EMPTY_RESPONSE))
  else
    steps <- lift (get plan "plan" (JArr [])) ;;
    steps <- lift (iter steps) ;;
    _ <- lift (step_summary steps) ;;
    results <- run_steps user_input steps [] ;;
    synthesis user_input results.

Definition process (user_input : string) : M json :=
  plan <- _create_plan user_input ;;
  process_plan user_input plan.

(** What one turn of the console prints. *)
Inductive Printed :=
| PrintedResponse (response : json)   (* lines 417-421 *)
| PrintedError (e : exn).             (* line 423 *)

(** Lines 415-423 of [MultiAgentSystem.chat_loop]: the [try] around
    [process] for one non-empty input that is not quit or exit. *)
Definition chat_loop_turn (user_input : string) : State -> State * Printed :=
  fun st =>
    match process user_input st with
    | (st', Ok response) => (st', PrintedResponse response)
    | (st', Raise e) => (st', PrintedError e)
    end.

End Process.

Definition ANALYST_SYSTEM_PROMPT : string :=
  unlines [
    "당신은 데이터 분석 전문가입니다.";
    "MCP 도구를 사용하여 사용자가 요청한 데이터를 수집하고 정리합니다.";
    EmptyString;
    "규칙:";
    "- 수집한 데이터를 구조화된 형태로 정리하여 반환";
    "- 분석 결과만 반환하고, 보고서 작성은 하지 마세요";
    "- 가능한 한 구체적인 수치와 사실을 포함하세요"
  ].

Definition WRITER_SYSTEM_PROMPT : string :=
  unlines [
    "당신은 문서 작성 전문가입니다.";
    "제공된 데이터를 바탕으로 명확하고 구조화된 문서를 작성합니다.";
    EmptyString;
    "규칙:";
    "- 보고서, 요약, 이력서 항목 등 요청된 형식에 맞게 작성";
    "- 데이터를 직접 수집하지 말고, 제공된 데이터만 사용하세요";
    "- 읽기 쉽고 전문적인 톤으로 작성하세요"
  ].

Definition REVIEWER_SYSTEM_PROMPT : string :=
  unlines [
    "당신은 문서 검토 전문가입니다.";
    "작성된 문서의 품질을 평가하고 개선점을 제안합니다.";
    EmptyString;
    "반드시 다음 형식으로 검토하세요:";
    "1. 전체 평가 (통과/수정필요)";
    "2. 강점 (1-3개)";
    "3. 개선사항 (1-3개)";
    "4. 수정된 최종본 (개선사항을 반영한 버전)"
  ].

(** Lines 360-389 of [MultiAgentSystem.connect]: only the analyst is
    given the tools. *)
Definition connect_orchestrator
  (gemini_tools : list Tool)
  (sessions : gmap string ClientSession)
  (tools_map : gmap string string) : Orchestrator :=
  let analyst :=
    SpecialistAgent_init "Analyst" ANALYST_SYSTEM_PROMPT
      (Some gemini_tools) (Some sessions) (Some tools_map) in
  let writer := SpecialistAgent_init "Writer" WRITER_SYSTEM_PROMPT None None None in
  let reviewer := SpecialistAgent_init "Reviewer" REVIEWER_SYSTEM_PROMPT None None None in
  {| specialists :=
       <["reviewer" := reviewer]> (<["writer" := writer]> (<["analyst" := analyst]> ∅)) |}.

End multi_agent.

Import multi_agent.

(* ------------------------------------------------------------------ *)
(** ** The two loops as one                                            *)
(* ------------------------------------------------------------------ *)

(** [GeminiMCPAgent.query] and [SpecialistAgent.run] are two copies of one
    text.  [tool_loop] is that text with the system instruction as an
    argument; the lemmas [query_loop_tool_loop] and [run_loop_tool_loop]
    below show that each copy is an instance of it, so that a property
    proved once for [tool_loop] holds for both. *)

(** The agent with the tools of a specialist. *)
Definition as_agent (sp : SpecialistAgent) : agent.GeminiMCPAgent :=
  {| agent.sessions := sessions sp;
     agent.tools_map := tools_map sp;
     agent.gemini_tools := gemini_tools sp |}.

Definition set_instruction (instruction : option string) (req : Request) : Request :=
  {| model := model req;
     contents := contents req;
     config :=
       {| system_instruction := instruction;
          tools := tools (config req);
          response_mime_type := response_mime_type (config req);
          automatic_function_calling_disable :=
            automatic_function_calling_disable (config req) |} |}.

Fixpoint tool_loop (env : Env) (instruction : option string)
  (self : agent.GeminiMCPAgent) (iterations : nat) (messages : list Content)
  : M string :=
  match iterations with
  | O => ret MAX_ITERATIONS_WARNING
  | S remaining =>
      response <- generate env (set_instruction instruction (agent.request self messages)) ;;
      content <- lift (candidate_content response) ;;
      parts <- lift (iter_parts content) ;;
      let function_calls := List.filter has_function_call parts in
      match function_calls with
      | [] => ret (final_text parts)
      | _ =>
          tool_results <- agent.execute_calls env self function_calls [] ;;
          tool_loop env instruction self remaining
            ((messages ++ [content])
               ++ [{| role := Some "user"; parts := Some tool_results |}])
      end
  end.

(** The first message of a run. *)
Definition first_message (prompt : string) : list Content :=
  [{| role := Some "user"; parts := Some [Part_from_text prompt] |}].

(** The function-response part for a call of an unknown tool. *)
Definition unknown_tool_part (name : option string) : Part :=
  Part_from_function_response name [("result", unknown_tool_text name)].

(** The routing table does not resolve [name]: no entry, or a server
    whose name is empty. *)
Definition unresolved (tools_map : gmap string string) (name : option string) : Prop :=
  tools_map_get tools_map name = None \/ tools_map_get tools_map name = Some EmptyString.

(** Every server the routing table names has a session. *)
Definition routed (tools_map : gmap string string)
  (sessions : gmap string ClientSession) : Prop :=
  forall name server,
    tools_map !! name = Some server -> server <> EmptyString ->
    is_Some (sessions !! server).

(** [needle] occurs in [hay]. *)
Definition contains (needle hay : string) : Prop :=
  exists before after, hay = before +:+ needle +:+ after.

Fixpoint starts_with (needle hay : string) : bool :=
  match needle, hay with
  | EmptyString, _ => true
  | String c needle', String c' hay' => Ascii.eqb c c' && starts_with needle' hay'
  | String _ _, EmptyString => false
  end.

Fixpoint containsb (needle hay : string) : bool :=
  starts_with needle hay ||
  match hay with
  | EmptyString => false
  | String _ hay' => containsb needle hay'
  end.

(* ------------------------------------------------------------------ *)
(** ** The final answer as the specification words it                  *)
(* ------------------------------------------------------------------ *)

(** The text of every part that has one, empty or not. *)
Definition all_texts (parts : list Part) : list string := omap text parts.

(** "Concatenate all text parts, separated by newline; if no text parts
    exist, return the placeholder". *)
Definition spec_final_text (parts : list Part) : string :=
  match omap truthy_text parts with
  | [] => EMPTY_RESPONSE
  | _ => join nl (all_texts parts)
  end.

(* ------------------------------------------------------------------ *)
(** ** Test doubles                                                    *)
(* ------------------------------------------------------------------ *)

Module stub.

Definition script_exhausted {A : Type} : result A :=
  Raise (ExternalError "script exhausted").

(** An LLM and tool servers that answer from a script, call after call,
    whatever they are asked.  [documents] lists the response bodies that
    are JSON documents, with what [json.loads] makes of them; the
    doubles never produce a task that is not a string, so [py_str] is
    not consulted. *)
Definition scripted
  (answers : list (result GenerateContentResponse))
  (tool_answers : list (result (list ContentBlock)))
  (documents : list (string * json)) : Env :=
  {| generate_content := fun n _ => nth n answers script_exhausted;
     call_tool := fun n _ => nth n tool_answers script_exhausted;
     json_loads := fun t => dict_lookup t documents;
     py_str := fun _ => EmptyString |}.

(** A response of one candidate. *)
Definition respond (content : Content) : GenerateContentResponse :=
  {| candidates := Some [{| content := Some content |}] |}.

(** A turn of the model. *)
Definition turn (parts : list Part) : Content :=
  {| role := Some "model"; parts := Some parts |}.

(** A model turn that is one text. *)
Definition says (t : string) : result GenerateContentResponse :=
  Ok (respond (turn [Part_from_text t])).

(** A call of a tool with an empty dict of arguments, and one whose
    [args] is [None]. *)
Definition call (tool : string) : FunctionCall :=
  {| fc_name := Some tool; fc_args := Some [] |}.

Definition call_without_args (tool : string) : FunctionCall :=
  {| fc_name := Some tool; fc_args := None |}.

(** A model turn that requests one tool, with no argument. *)
Definition asks (tool : string) : result GenerateContentResponse :=
  Ok (respond (turn [Part_from_function_call (call tool)])).

(** A model turn that requests one tool and leaves [args] out. *)
Definition asks_without_args (tool : string) : result GenerateContentResponse :=
  Ok (respond (turn [Part_from_function_call (call_without_args tool)])).

Definition text_block (t : string) : ContentBlock :=
  {| block_text := Some t; block_str := t |}.

(** One server [srv] that offers the tool [echo]. *)
Definition echo_agent : agent.GeminiMCPAgent :=
  {| agent.sessions := <["srv" := 0]> ∅;
     agent.tools_map := <["echo" := "srv"]> ∅;
     agent.gemini_tools :=
       [{| function_declarations :=
             [{| fd_name := "echo"; fd_description := "echo";
                 fd_parameters_json_schema := JObj [] |}] |}] |}.

Definition echo_specialist : SpecialistAgent :=
  SpecialistAgent_init "Analyst" ANALYST_SYSTEM_PROMPT
    (Some (agent.gemini_tools echo_agent))
    (Some (agent.sessions echo_agent))
    (Some (agent.tools_map echo_agent)).

(** An agent without any tool. *)
Definition bare_agent : agent.GeminiMCPAgent :=
  {| agent.sessions := ∅; agent.tools_map := ∅; agent.gemini_tools := [] |}.

Definition bare_specialist : SpecialistAgent :=
  SpecialistAgent_init "Writer" WRITER_SYSTEM_PROMPT None None None.

(** The model asks for [echo] for ever and the tool always answers. *)
Definition echo_for_ever : Env :=
  {| generate_content := fun _ _ => asks "echo";
     call_tool := fun _ _ => Ok [text_block "pong"];
     json_loads := fun _ => None;
     py_str := fun _ => EmptyString |}.

(** The model asks for [echo] ten times and the first call of the tool
    fails. *)
Definition echo_fails : Env :=
  scripted (repeat (asks "echo") 10) [Raise (ExternalError "connection closed")] [].

(** The model asks for [echo], whose call times out, and would answer
    [done] on its next turn. *)
Definition echo_times_out : Env :=
  scripted [asks "echo"; says "done"] [Raise (ExternalError "timeout")] [].

(** The model asks for the tool [x], then answers [done]. *)
Definition asks_x : Env := scripted [asks "x"; says "done"] [] [].



(** The model asks ten times for [echo] and leaves [args] out; the tool
    would answer. *)
Definition echo_without_args : Env :=
  {| generate_content := fun _ _ => asks_without_args "echo";
     call_tool := fun _ _ => Ok [text_block "pong"];
     json_loads := fun _ => None;
     py_str := fun _ => EmptyString |}.


(** The answer has one candidate, whose content has no parts. *)
Definition without_parts : GenerateContentResponse :=
  respond {| role := Some "model"; parts := None |}.

Definition says_nothing : Env := scripted [Ok without_parts] [] [].

(** A final turn of three text parts, the second one empty. *)
Definition three_parts : list Part :=
  [Part_from_text "a"; Part_from_text EmptyString; Part_from_text "b"].

Definition three_texts : Content := turn three_parts.

Definition says_three_texts : Env := scripted [Ok (respond three_texts)] [] [].

End stub.

(* ------------------------------------------------------------------ *)
(** ** Properties of a computation, for the proofs                     *)
(* ------------------------------------------------------------------ *)

(** The turn of a response and its parts, or what reading them
    raises. *)
Definition read_turn (response : GenerateContentResponse)
  : result (Content * list Part) :=
  match candidate_content response with
  | Raise e => Raise e
  | Ok content =>
      match iter_parts content with
      | Raise e => Raise e
      | Ok ps => Ok (content, ps)
      end
  end.

(** A function call that this part carries comes with its arguments. *)
Definition with_arguments (part : Part) : Prop :=
  forall fc, function_call part = Some fc -> is_Some (fc_args fc).

(** The response can be read, asks for a tool at least, and every call
    it asks for comes with its arguments. *)
Definition requests_tools (response : GenerateContentResponse) : Prop :=
  exists content ps,
    read_turn response = Ok (content, ps)
    /\ List.filter has_function_call ps <> []
    /\ Forall with_arguments ps.

(** From [st] the computation reached [st'] with outcome [r], and each of
    its tool calls that raised was its last one and is its outcome. *)
Definition tool_errors_decide {A : Type} (env : Env) (st st' : State) (r : result A)
  : Prop :=
  exists new,
    tool_requests st' = tool_requests st ++ new
    /\ forall j req e,
        new !! j = Some req ->
        call_tool env (length (tool_requests st) + j) req = Raise e ->
        r = Raise e /\ length new = S j.

Definition tool_faithful {A : Type} (env : Env) (m : M A) : Prop :=
  forall st, tool_errors_decide env st (fst (m st)) (snd (m st)).

(** Two states that differ at most in the system instruction of the
    requests sent to the LLM. *)
Definition same_but_instruction (st1 st2 : State) : Prop :=
  map (set_instruction None) (llm_requests st1)
  = map (set_instruction None) (llm_requests st2)
  /\ tool_requests st1 = tool_requests st2
  /\ delegations st1 = delegations st2.

(* ------------------------------------------------------------------ *)
(** ** Reading a run of the orchestrator                               *)
(* ------------------------------------------------------------------ *)

(** The agent key and the task of a plan step that [process] passes to a
    specialist: the step has both keys and its agent is registered. *)
Definition executable (self : Orchestrator) (step : json) : option (string * json) :=
  match getitem step "agent", getitem step "task" with
  | Ok (JStr agent_name), Ok task =>
      match specialists self !! agent_name with
      | Some _ => Some (agent_name, task)
      | None => None
      end
  | _, _ => None
  end.

(** The agent key and the text a delegation returned. *)
Definition d_result (d : Delegation) : option (string * string) :=
  match d_outcome d with
  | Ok text => Some (d_agent d, text)
  | Raise _ => None
  end.

(** The results of the delegations that returned, in the order they were
    produced. *)
Definition outputs (ds : list Delegation) : Results := omap d_result ds.

(** The results mapping after the delegations [ds], started from
    [results]: each result stored under its agent key. *)
Definition collected (results : Results) (ds : list Delegation) : Results :=
  fold_left (fun results entry => dict_set (fst entry) (snd entry) results)
    (outputs ds) results.

(** The part of a task string that renders the results so far. *)
Definition earlier_results (results : Results) : string :=
  match results with
  | [] => EmptyString
  | _ =>
      nl +:+ nl +:+ "이전 단계 결과:" +:+ nl
      +:+ String.concat EmptyString (map labelled results)
  end.

(** The plan is of the second shape, up to the evaluation of the summary
    line: [needs_specialists] is truthy and [plan] iterates over [steps],
    each with a string under [agent]. *)
Definition plan_steps (plan : json) (steps : list json) : Prop :=
  exists needs_specialists items,
    get plan "needs_specialists" (JBool false) = Ok needs_specialists
    /\ truthy needs_specialists = true
    /\ get plan "plan" (JArr []) = Ok items
    /\ iter items = Ok steps
    /\ step_summary steps = Ok tt.

(** A plan step of the shape [{agent, task}] whose agent is not
    registered. *)
Definition names_unknown_agent (self : Orchestrator) (step : json) : Prop :=
  exists agent_name task,
    getitem step "agent" = Ok (JStr agent_name)
    /\ getitem step "task" = Ok task
    /\ specialists self !! agent_name = None.

Module plans.

(** A JSON document and what [json.loads] makes of it, side by side. *)
Definition quoted (s : string) : string := dq +:+ s +:+ dq.

Definition step_text (agent_name task : string) : string :=
  "{" +:+ quoted "agent" +:+ ": " +:+ quoted agent_name +:+ ", "
  +:+ quoted "task" +:+ ": " +:+ quoted task +:+ "}".

Definition step_value (agent_name task : string) : json :=
  JObj [("agent", JStr agent_name); ("task", JStr task)].

Definition plan_text (steps : list string) : string :=
  "{" +:+ quoted "needs_specialists" +:+ ": true, " +:+ quoted "plan" +:+ ": ["
  +:+ join ", " steps +:+ "]}".

Definition plan_value (steps : list json) : json :=
  JObj [("needs_specialists", JBool true); ("plan", JArr steps)].

(** The three specialists of [MultiAgentSystem.connect], the analyst
    with the tool [echo]. *)
Definition team : Orchestrator :=
  connect_orchestrator (agent.gemini_tools stub.echo_agent)
    (agent.sessions stub.echo_agent) (agent.tools_map stub.echo_agent).

(** The plan names the analyst twice and then the writer; the three
    runs answer ALPHA, BETA and GAMMA, the synthesis FINAL. *)
Definition analyst_twice_text : string :=
  plan_text [step_text "analyst" "collect"; step_text "analyst" "collect more";
             step_text "writer" "draft"].

Definition analyst_twice_value : json :=
  plan_value [step_value "analyst" "collect"; step_value "analyst" "collect more";
              step_value "writer" "draft"].

Definition analyst_twice : Env :=
  stub.scripted
    [stub.says analyst_twice_text; stub.says "ALPHA"; stub.says "BETA";
     stub.says "GAMMA"; stub.says "FINAL"]
    [] [(analyst_twice_text, analyst_twice_value)].

(** The plan names the analyst twice, and nobody else. *)
Definition analyst_only_text : string :=
  plan_text [step_text "analyst" "collect"; step_text "analyst" "collect more"].

Definition analyst_only_value : json :=
  plan_value [step_value "analyst" "collect"; step_value "analyst" "collect more"].

Definition analyst_only : Env :=
  stub.scripted
    [stub.says analyst_only_text; stub.says "ALPHA"; stub.says "BETA";
     stub.says "FINAL"]
    [] [(analyst_only_text, analyst_only_value)].

(** The planning call answers with the empty JSON object. *)
Definition empty_object : Env :=
  stub.scripted [stub.says "{}"] [] [("{}", JObj [])].

(** The planning call answers with a text that is not JSON. *)
Definition not_json : Env := stub.scripted [stub.says "Sure, here is the plan"] [] [].


Definition ghost_text : string :=
  plan_text [step_text "ghost" "haunt"].

(** The plan names [ghost] only; the synthesis answers FINAL. *)
Definition ghost_only : Env :=
  stub.scripted [stub.says ghost_text; stub.says "FINAL"] []
    [(ghost_text, plan_value [step_value "ghost" "haunt"])].

(** The planning call answers directly: no specialist is needed. *)
Definition direct_hi_text : string :=
  "{" +:+ quoted "needs_specialists" +:+ ": false, "
  +:+ quoted "direct_response" +:+ ": " +:+ quoted "hi" +:+ "}".

Definition direct_hi : Env :=
  stub.scripted [stub.says direct_hi_text] []
    [(direct_hi_text,
      JObj [("needs_specialists", JBool false); ("direct_response", JStr "hi")])].

(** The plan of two steps of the specification: the analyst answers
    DATA, the writer DOC, the synthesis FINAL. *)
Definition analyst_writer_text : string :=
  plan_text [step_text "analyst" "collect X"; step_text "writer" "draft Y"].

Definition analyst_writer : Env :=
  stub.scripted
    [stub.says analyst_writer_text; stub.says "DATA"; stub.says "DOC";
     stub.says "FINAL"]
    []
    [(analyst_writer_text,
      plan_value [step_value "analyst" "collect X"; step_value "writer" "draft Y"])].

End plans.

(* ------------------------------------------------------------------ *)
(** ** More properties of a computation                                *)
(* ------------------------------------------------------------------ *)

(** The computation went from [st] to [st'] with outcome [r]; [log] is
    one of the logs of the state and [oracle] the collaborator whose
    calls it records.  Each recorded call that raised was the last one
    and its exception is the outcome. *)
Definition errors_decide {A Req Ans : Type}
  (log : State -> list Req) (oracle : nat -> Req -> result Ans)
  (st st' : State) (r : result A) : Prop :=
  exists new,
    log st' = log st ++ new
    /\ forall j req e,
        new !! j = Some req ->
        oracle (length (log st) + j) req = Raise e ->
        r = Raise e /\ length new = S j.

Definition error_faithful {A Req Ans : Type}
  (log : State -> list Req) (oracle : nat -> Req -> result Ans) (m : M A) : Prop :=
  forall st, errors_decide log oracle st (fst (m st)) (snd (m st)).

(** The computation only appends to [log], and what it appends
    satisfies [P]. *)
Definition appends {A Req : Type}
  (log : State -> list Req) (P : Req -> Prop) (m : M A) : Prop :=
  forall st, exists new, log (fst (m st)) = log st ++ new /\ Forall P new.

(** The tool request goes to the session of the server that the routing
    table gives for the tool. *)
Definition well_routed
  (tools_map : gmap string string) (sessions : gmap string ClientSession)
  (req : ToolRequest) : Prop :=
  exists server,
    tools_map_get tools_map (tr_name req) = Some server
    /\ server <> EmptyString
    /\ sessions !! server = Some (tr_session req).

(** The reply to the tool call carried by [call]: a function-response
    part under the name of the called tool, with one text. *)
Definition replies_to (call reply : Part) : Prop :=
  exists fc result_text,
    function_call call = Some fc
    /\ reply = Part_from_function_response (fc_name fc) [("result", result_text)].

(** The step has a string under the key [agent]. *)
Definition has_agent_name (step : json) : Prop :=
  exists agent_name, getitem step "agent" = Ok (JStr agent_name).

Module more_stubs.

(** The LLM is out of reach: its first call fails. *)
Definition llm_down : Env := stub.scripted [Raise (ExternalError "quota")] [] [].

(** The planning call succeeds, the analyst asks for [echo] and gets
    [pong], then answers DATA. *)
Definition one_step_text : string := plans.plan_text [plans.step_text "analyst" "collect"].

Definition one_step_value : json := plans.plan_value [plans.step_value "analyst" "collect"].

Definition analyst_uses_echo : Env :=
  stub.scripted
    [stub.says one_step_text; stub.asks "echo"; stub.says "DATA"]
    [Ok [stub.text_block "pong"]]
    [(one_step_text, one_step_value)].

(** The same plan, but the LLM fails when the analyst calls it. *)
Definition analyst_llm_fails : Env :=
  stub.scripted
    [stub.says one_step_text; Raise (ExternalError "quota")] []
    [(one_step_text, one_step_value)].

(** The same plan, but the call of [echo] times out. *)
Definition analyst_tool_fails : Env :=
  stub.scripted
    [stub.says one_step_text; stub.asks "echo"; stub.says "DATA"]
    [Raise (ExternalError "timeout")]
    [(one_step_text, one_step_value)].

(** The planning call answers with a zero for [needs_specialists] and a
    number for [direct_response]. *)
Definition direct_number_text : string :=
  "{" +:+ plans.quoted "needs_specialists" +:+ ": 0, "
  +:+ plans.quoted "direct_response" +:+ ": 5}".

Definition direct_number : Env :=
  stub.scripted [stub.says direct_number_text] []
    [(direct_number_text,
      JObj [("needs_specialists", JInt 0); ("direct_response", JInt 5)])].

(** The second step of the plan has a number for agent. *)
Definition numbered_agent_step_text : string :=
  "{" +:+ plans.quoted "agent" +:+ ": 7, " +:+ plans.quoted "task" +:+ ": "
  +:+ plans.quoted "count" +:+ "}".

Definition numbered_agent_step : json := JObj [("agent", JInt 7); ("task", JStr "count")].

Definition numbered_agent_text : string :=
  plans.plan_text [plans.step_text "analyst" "collect"; numbered_agent_step_text].

Definition numbered_agent_value : json :=
  plans.plan_value [plans.step_value "analyst" "collect"; numbered_agent_step].

Definition numbered_agent : Env :=
  stub.scripted [stub.says numbered_agent_text; stub.says "DATA"] []
    [(numbered_agent_text, numbered_agent_value)].

(** The second step of the plan names [ghost] and has no task. *)
Definition taskless_step_text : string :=
  "{" +:+ plans.quoted "agent" +:+ ": " +:+ plans.quoted "ghost" +:+ "}".

Definition taskless_step : json := JObj [("agent", JStr "ghost")].

Definition taskless_text : string :=
  plans.plan_text [plans.step_text "analyst" "collect"; taskless_step_text].

Definition taskless_value : json :=
  plans.plan_value [plans.step_value "analyst" "collect"; taskless_step].

Definition taskless : Env :=
  stub.scripted [stub.says taskless_text; stub.says "DATA"] []
    [(taskless_text, taskless_value)].

End more_stubs.

(** The request [req'] follows the request [req], which was the LLM call
    number [idx]: the LLM answered [req] with a response whose first
    candidate holds a turn, and [req'] carries the conversation of [req]
    with that turn and one user turn after it, the user turn holding one
    reply per tool call of the answer, in the same order; model and
    configuration are those of [req]. *)
Definition continues (env : Env) (idx : nat) (req req' : Request) : Prop :=
  exists response content calls results,
    generate_content env idx req = Ok response
    /\ candidate_content response = Ok content
    /\ iter_parts content = Ok calls
    /\ contents req' = contents req
                       ++ [content; {| role := Some "user"; parts := Some results |}]
    /\ Forall2 replies_to (List.filter has_function_call calls) results
    /\ model req' = model req
    /\ config req' = config req.

(** The latest result that the agent [agent_name] produced among the
    delegations [ds], if it produced one. *)
Definition latest_result (agent_name : string) (ds : list Delegation) : option string :=
  last (map snd (List.filter (fun entry => String.eqb (fst entry) agent_name) (outputs ds))).

(* ------------------------------------------------------------------ *)
(** ** main.py: the command line                                       *)
(* ------------------------------------------------------------------ *)

Module main_py.

(** Lines 8-16 of [main]: the loop over [sys.argv[1:]], from the
    defaults. *)
Definition parse_args (args : list string) : string * bool :=
  fold_left
    (fun '(config_path, multi_mode) arg =>
       if String.eqb arg "--multi" then (config_path, true) else (arg, multi_mode))
    args ("config.json", false).

End main_py.

(* ------------------------------------------------------------------ *)
(** ** The two systems: start, console loop and shutdown               *)
(* ------------------------------------------------------------------ *)

Module lifecycle.

(** A tool as [session.list_tools()] describes it. *)
Record ToolInfo := {
  tool_name : string;
  tool_description : option string;
  tool_inputSchema : json
}.

(** The arguments of [StdioServerParameters], as read from the
    configuration. *)
Record StdioServerParameters := {
  sp_command : json;
  sp_args : json;
  sp_env : list (string * json)
}.

(** The pair of streams that [stdio_client] yields, an opaque handle. *)
Definition Streams := nat.

(** A context entered on the [AsyncExitStack]. *)
Inductive Context :=
| StdioClient (server_params : StdioServerParameters) (streams : Streams)
| Session (session : ClientSession).

(** What [input] meets on the console: a line, or an interruption
    ([KeyboardInterrupt]); when nothing is left it meets the end of the
    input ([EOFError]). *)
Inductive Input :=
| Line (text : string)
| Interrupt.

(** What they print. *)
Inductive Output :=
| Connected (server_name : string) (tools : list string)  (* "[연결됨] ..." *)
| Initialized                                     (* the summary of the four agents *)
| Banner                                          (* title and how to leave *)
| Goodbye                                         (* "종료합니다." *)
| Answer (response : json)                        (* the reply to a request *)
| Failure (e : exn).                              (* "[오류] ..." *)

(** The collaborators at start and on the console.  [load_config path]
    stands for opening the file and [json.load]; [stdio_client n params]
    for building the [StdioServerParameters] and entering
    [stdio_client(params)] when [n] contexts are already on the exit
    stack, [client_session] likewise for [ClientSession(read, write)];
    [aclose] for the outcome of closing the contexts of the stack;
    [str_strip] and [str_lower] for [str.strip] and [str.lower]. *)
Record Host := {
  environ : list (string * string);
  load_config : string -> result json;
  stdio_client : nat -> StdioServerParameters -> result Streams;
  client_session : nat -> Streams -> result ClientSession;
  initialize : ClientSession -> result unit;
  list_tools : ClientSession -> result (list ToolInfo);
  aclose : list Context -> result unit;
  str_strip : string -> string;
  str_lower : string -> string
}.

(** The object ([GeminiMCPAgent] or [MultiAgentSystem], the first one
    without [orchestrator]) and the world around it: the contexts
    released so far, the console, and the log of the LLM and tool
    calls. *)
Record System := {
  config_path : string;
  sessions : gmap string ClientSession;
  tools_map : gmap string string;
  gemini_tools : list Tool;
  orchestrator : option Orchestrator;
  _exit_stack : list Context;
  released : list Context;
  stdin : list Input;
  stdout : list Output;
  core : State
}.

(** A computation on a state [S] that may raise. *)
Definition Prog (S A : Type) : Type := S -> S * result A.

Definition pbind {S A B : Type} (m : Prog S A) (k : A -> Prog S B) : Prog S B :=
  fun s =>
    match m s with
    | (s', Ok a) => k a s'
    | (s', Raise e) => (s', Raise e)
    end.

Definition pure {S A : Type} (r : result A) : Prog S A := fun s => (s, r).

Definition update {S : Type} (f : S -> S) : Prog S unit := fun s => (f s, Ok tt).

Declare Scope prog_scope.
Delimit Scope prog_scope with prog.
Notation "x <- c1 ;; c2" := (pbind c1 (fun x => c2))
  (at level 100, c1 at next level, right associativity) : prog_scope.
#[local] Open Scope prog_scope.

Definition set_sessions (v : gmap string ClientSession) (s : System) : System :=
  {| config_path := config_path s; sessions := v; tools_map := tools_map s;
     gemini_tools := gemini_tools s; orchestrator := orchestrator s;
     _exit_stack := _exit_stack s; released := released s;
     stdin := stdin s; stdout := stdout s; core := core s |}.

Definition set_tools_map (v : gmap string string) (s : System) : System :=
  {| config_path := config_path s; sessions := sessions s; tools_map := v;
     gemini_tools := gemini_tools s; orchestrator := orchestrator s;
     _exit_stack := _exit_stack s; released := released s;
     stdin := stdin s; stdout := stdout s; core := core s |}.

Definition set_gemini_tools (v : list Tool) (s : System) : System :=
  {| config_path := config_path s; sessions := sessions s; tools_map := tools_map s;
     gemini_tools := v; orchestrator := orchestrator s;
     _exit_stack := _exit_stack s; released := released s;
     stdin := stdin s; stdout := stdout s; core := core s |}.

Definition set_orchestrator (v : option Orchestrator) (s : System) : System :=
  {| config_path := config_path s; sessions := sessions s; tools_map := tools_map s;
     gemini_tools := gemini_tools s; orchestrator := v;
     _exit_stack := _exit_stack s; released := released s;
     stdin := stdin s; stdout := stdout s; core := core s |}.

Definition set_exit_stack (v : list Context) (s : System) : System :=
  {| config_path := config_path s; sessions := sessions s; tools_map := tools_map s;
     gemini_tools := gemini_tools s; orchestrator := orchestrator s;
     _exit_stack := v; released := released s;
     stdin := stdin s; stdout := stdout s; core := core s |}.

Definition set_released (v : list Context) (s : System) : System :=
  {| config_path := config_path s; sessions := sessions s; tools_map := tools_map s;
     gemini_tools := gemini_tools s; orchestrator := orchestrator s;
     _exit_stack := _exit_stack s; released := v;
     stdin := stdin s; stdout := stdout s; core := core s |}.

Definition set_stdin (v : list Input) (s : System) : System :=
  {| config_path := config_path s; sessions := sessions s; tools_map := tools_map s;
     gemini_tools := gemini_tools s; orchestrator := orchestrator s;
     _exit_stack := _exit_stack s; released := released s;
     stdin := v; stdout := stdout s; core := core s |}.

Definition set_core (v : State) (s : System) : System :=
  {| config_path := config_path s; sessions := sessions s; tools_map := tools_map s;
     gemini_tools := gemini_tools s; orchestrator := orchestrator s;
     _exit_stack := _exit_stack s; released := released s;
     stdin := stdin s; stdout := stdout s; core := v |}.

(** [print(...)]. *)
Definition print (o : Output) (s : System) : System :=
  {| config_path := config_path s; sessions := sessions s; tools_map := tools_map s;
     gemini_tools := gemini_tools s; orchestrator := orchestrator s;
     _exit_stack := _exit_stack s; released := released s;
     stdin := stdin s; stdout := stdout s ++ [o]; core := core s |}.

(** [d.update(other)]: the entries of [other] are stored one by one. *)
Definition dict_update {V : Type} (d other : list (string * V)) : list (string * V) :=
  fold_left (fun d entry => dict_set (fst entry) (snd entry) d) other d.

(** [servers.items()]: only a dict has it. *)
Definition items (v : json) : result (list (string * json)) :=
  match v with
  | JObj members => Ok members
  | _ => Raise AttributeError
  end.

Section Start.
Variable host : Host.

(** Line 41 (325): [{**os.environ, **config_env, "UV_LINK_MODE": "copy"}];
    only a mapping can be unpacked with [**]. *)
Definition merged_env (config_env : json) : result (list (string * json)) :=
  match config_env with
  | JObj members =>
      Ok (dict_set "UV_LINK_MODE" (JStr "copy")
            (dict_update
               (dict_update [] (map (fun kv => (fst kv, JStr (snd kv))) (environ host)))
               members))
  | _ => Raise TypeError
  end.

(** [await self._exit_stack.enter_async_context(stdio_client(server_params))]:
    the context is on the stack once it is entered. *)
Definition enter_stdio_client (server_params : StdioServerParameters)
  : Prog System Streams :=
  fun s =>
    match stdio_client host (length (_exit_stack s)) server_params with
    | Ok streams =>
        (set_exit_stack (_exit_stack s ++ [StdioClient server_params streams]) s,
         Ok streams)
    | Raise e => (s, Raise e)
    end.

(** [await self._exit_stack.enter_async_context(ClientSession(read, write))]. *)
Definition enter_client_session (streams : Streams) : Prog System ClientSession :=
  fun s =>
    match client_session host (length (_exit_stack s)) streams with
    | Ok session => (set_exit_stack (_exit_stack s ++ [Session session]) s, Ok session)
    | Raise e => (s, Raise e)
    end.

(** Lines 65-69 (347-351). *)
Definition declaration (tool : ToolInfo) : FunctionDeclaration :=
  {| fd_name := tool_name tool;
     fd_description := match tool_description tool with
                       | Some d => d       (* the empty text is its own default *)
                       | None => EmptyString
                       end;
     fd_parameters_json_schema := tool_inputSchema tool |}.

(** Lines 62-70 (344-352): [for tool in response.tools]. *)
Fixpoint register_tools (server_name : string) (tools : list ToolInfo)
  (all_declarations : list FunctionDeclaration)
  : Prog System (list FunctionDeclaration) :=
  match tools with
  | [] => pure (Ok all_declarations)
  | tool :: rest =>
      _ <- update (fun s =>
                     set_tools_map (<[tool_name tool := server_name]> (tools_map s)) s) ;;
      register_tools server_name rest (all_declarations ++ [declaration tool])
  end.

(** Lines 36-72 (321-354), the body of
    [for server_name, server_config in servers.items()]. *)
Definition connect_server (server_name : string) (server_config : json)
  (all_declarations : list FunctionDeclaration)
  : Prog System (list FunctionDeclaration) :=
  command <- pure (getitem server_config "command") ;;
  args <- pure (get server_config "args" (JArr [])) ;;
  config_env <- pure (get server_config "env" (JObj [])) ;;
  env <- pure (merged_env config_env) ;;
  streams <- enter_stdio_client
               {| sp_command := command; sp_args := args; sp_env := env |} ;;
  session <- enter_client_session streams ;;
  _ <- pure (initialize host session) ;;
  _ <- update (fun s => set_sessions (<[server_name := session]> (sessions s)) s) ;;
  tools <- pure (list_tools host session) ;;
  all_declarations <- register_tools server_name tools all_declarations ;;
  _ <- update (print (Connected server_name (map tool_name tools))) ;;
  pure (Ok all_declarations).

(** Lines 35-72 (320-354). *)
Fixpoint connect_servers (servers : list (string * json))
  (all_declarations : list FunctionDeclaration)
  : Prog System (list FunctionDeclaration) :=
  match servers with
  | [] => pure (Ok all_declarations)
  | (server_name, server_config) :: rest =>
      all_declarations <- connect_server server_name server_config all_declarations ;;
      connect_servers rest all_declarations
  end.

(** Lines 27-75 of agent.py, [GeminiMCPAgent.connect], which are also
    lines 312-357 of multi_agent.py. *)
Definition connect : Prog System unit :=
  fun s =>
    (config <- pure (load_config host (config_path s)) ;;
     servers <- pure (get config "mcpServers" (JObj [])) ;;
     servers <- pure (items servers) ;;
     all_declarations <- connect_servers servers [] ;;
     match all_declarations with
     | [] => pure (Ok tt)
     | _ =>
         update (set_gemini_tools [{| function_declarations := all_declarations |}])
     end) s.

(** Lines 312-395 of multi_agent.py, [MultiAgentSystem.connect]: the
    same, then the specialists and the orchestrator. *)
Definition connect_multi : Prog System unit :=
  _ <- connect ;;
  _ <- update (fun s =>
                 set_orchestrator
                   (Some (connect_orchestrator (gemini_tools s) (sessions s) (tools_map s)))
                   s) ;;
  update (print Initialized).

(** [cleanup]: [await self._exit_stack.aclose()].  The stack closes all
    its contexts, the last entered first, whatever each closing does;
    what it raises in the end is the host's. *)
Definition cleanup : Prog System unit :=
  fun s =>
    (set_released (released s ++ rev (_exit_stack s)) (set_exit_stack [] s),
     aclose host (_exit_stack s)).

End Start.

(** What [main] cannot survive: the [ValueError] of a constructor, or an
    exception that came up to it. *)
Inductive Crash :=
| ValueError
| Uncaught (e : exn).

(** The object as [__init__] leaves it (lines 21-25 of agent.py,
    305-310 of multi_agent.py), before anything was printed, released
    or asked, with [stdin] waiting on the console. *)
Definition new_object (config_path : string) (stdin : list Input) : System :=
  {| config_path := config_path; sessions := ∅; tools_map := ∅;
     gemini_tools := []; orchestrator := None;
     _exit_stack := []; released := [];
     stdin := stdin; stdout := []; core := initial_state |}.

(** Lines 15-25 of agent.py and 299-310 of multi_agent.py, [__init__]:
    no object without an API key that is not empty. *)
Definition init (host : Host) (config_path : string) (stdin : list Input)
  : Crash + System :=
  match dict_lookup "GEMINI_API_KEY" (environ host) with
  | None => inl ValueError
  | Some api_key =>
      if String.eqb api_key EmptyString then inl ValueError
      else inr (new_object config_path stdin)
  end.

(** The fields of the object that [query] reads. *)
Definition agent_of (s : System) : agent.GeminiMCPAgent :=
  {| agent.sessions := sessions s;
     agent.tools_map := tools_map s;
     agent.gemini_tools := gemini_tools s |}.

Section Console.
Variable host : Host.
Variable env : Env.

(** [user_input.lower() in ("quit", "exit")] *)
Definition leaves (user_input : string) : bool :=
  String.eqb (str_lower host user_input) "quit"
  || String.eqb (str_lower host user_input) "exit".

(** Lines 158-162 of agent.py: one request, answered or failed. *)
Definition query_turn (user_input : string) (s : System) : System :=
  let (st', r) := agent.query env (agent_of s) user_input (core s) in
  print (match r with
         | Ok response => Answer (JStr response)
         | Raise e => Failure e
         end) (set_core st' s).

(** Lines 415-423 of multi_agent.py: one request, answered or failed;
    without orchestrator the attribute access fails. *)
Definition process_turn (user_input : string) (s : System) : System :=
  match orchestrator s with
  | None => print (Failure AttributeError) s
  | Some orchestrator =>
      let (st', r) := process env orchestrator user_input (core s) in
      print (match r with
             | Ok response => Answer response
             | Raise e => Failure e
             end) (set_core st' s)
  end.

(** Lines 145-162 of agent.py and 402-423 of multi_agent.py, the
    [while True] of [chat_loop], on what is left of the input. *)
Fixpoint chat_iterations (turn : string -> System -> System)
  (inputs : list Input) (s : System) : System :=
  match inputs with
  | [] => print Goodbye s                                     (* EOFError *)
  | Interrupt :: rest => print Goodbye (set_stdin rest s)     (* KeyboardInterrupt *)
  | Line text :: rest =>
      let s := set_stdin rest s in
      let user_input := str_strip host text in
      if String.eqb user_input EmptyString then chat_iterations turn rest s
      else if leaves user_input then print Goodbye s
      else chat_iterations turn rest (turn user_input s)
  end.

(** [GeminiMCPAgent.chat_loop] and [MultiAgentSystem.chat_loop]. *)
Definition chat_loop (s : System) : System :=
  chat_iterations query_turn (stdin s) (print Banner s).

Definition chat_loop_multi (s : System) : System :=
  chat_iterations process_turn (stdin s) (print Banner s).

(** How a run of the program ends: before any object exists, or with
    the state left and the error that came up to [main], if any. *)
Inductive Exit :=
| NotStarted (c : Crash)
| Finished (s : System) (outcome : result unit).

(** [try: connect; chat_loop finally: cleanup]. *)
Definition run_system (connect : Prog System unit) (chat : System -> System)
  (s : System) : Exit :=
  let (s1, connected) := connect s in
  let s2 := match connected with
            | Ok _ => chat s1
            | Raise _ => s1
            end in
  let (s3, closed) := cleanup host s2 in
  Finished s3 (match closed with
               | Raise e => Raise e
               | Ok _ => connected
               end).

(** [main], on [sys.argv[1:]] and the input of the console. *)
Definition main (argv : list string) (stdin : list Input) : Exit :=
  let (config_path, multi_mode) := main_py.parse_args argv in
  match init host config_path stdin with
  | inl crash => NotStarted crash
  | inr s =>
      if multi_mode then run_system (connect_multi host) chat_loop_multi s
      else run_system (connect host) chat_loop s
  end.

End Console.

(** The requests that a console loop serves: the lines up to the first
    interruption or leaving word, stripped, the empty ones left out. *)
Fixpoint requests_of (host : Host) (inputs : list Input) : list string :=
  match inputs with
  | [] => []
  | Interrupt :: _ => []
  | Line text :: rest =>
      let user_input := str_strip host text in
      if String.eqb user_input EmptyString then requests_of host rest
      else if leaves host user_input then []
      else user_input :: requests_of host rest
  end.

(** What is left of the input when the loop ends. *)
Fixpoint unread (host : Host) (inputs : list Input) : list Input :=
  match inputs with
  | [] => []
  | Interrupt :: rest => rest
  | Line text :: rest =>
      let user_input := str_strip host text in
      if String.eqb user_input EmptyString then unread host rest
      else if leaves host user_input then rest
      else unread host rest
  end.

(** Every name in the routing table is served: its server has a
    session. *)
Definition all_served (s : System) : Prop :=
  forall name server,
    tools_map s !! name = Some server -> is_Some (sessions s !! server).

(** Every session of the object is a context of the exit stack. *)
Definition all_on_stack (s : System) : Prop :=
  forall server session,
    sessions s !! server = Some session -> Session session ∈ _exit_stack s.

(** The computation keeps the invariant [I], however it ends. *)
Definition keeps {A : Type} (I : System -> Prop) (m : Prog System A) : Prop :=
  forall s, I s -> I (fst (m s)).

(** The state after the computation is related to the one before. *)
Definition moves {A : Type} (R : System -> System -> Prop) (m : Prog System A) : Prop :=
  forall s, R s (fst (m s)).

(** From [s] to [s'] the system only started servers: the exit stack
    grew, and nothing was released, read, or asked of the LLM. *)
Definition started (s s' : System) : Prop :=
  (exists more, _exit_stack s' = _exit_stack s ++ more)
  /\ released s' = released s
  /\ stdin s' = stdin s
  /\ core s' = core s
  /\ config_path s' = config_path s.

(** The value stored last under [key] among the entries. *)
Definition dict_latest {V : Type} (key : string) (entries : list (string * V)) : option V :=
  last (map snd (List.filter (fun entry => String.eqb (fst entry) key) entries)).

(** A server that started: its name, its session and the tools that
    the session listed. *)
Definition Started : Type := string * ClientSession * list ToolInfo.

(** The server listed a tool of that name. *)
Definition lists (name : string) (server : Started) : bool :=
  existsb (fun tool => String.eqb (tool_name tool) name) (snd server).

(** The last of the servers that listed a tool of that name. *)
Definition owner (name : string) (servers : list Started) : option string :=
  last (map (fun server => fst (fst server)) (List.filter (lists name) servers)).

(** One declaration per listed tool, server after server. *)
Definition declared (servers : list Started) : list FunctionDeclaration :=
  flat_map (fun server => map declaration (snd server)) servers.

Close Scope prog_scope.

End lifecycle.

Module hosts.
Import lifecycle.

Definition search : ToolInfo :=
  {| tool_name := "search"; tool_description := Some "search the commits";
     tool_inputSchema := JObj [] |}.

Definition search_undescribed : ToolInfo :=
  {| tool_name := "search"; tool_description := None; tool_inputSchema := JObj [] |}.

Definition fetch : ToolInfo :=
  {| tool_name := "fetch"; tool_description := Some "fetch a page";
     tool_inputSchema := JObj [] |}.

(** Two servers: [alpha] with its own [PATH], and [beta]. *)
Definition two_servers : json :=
  JObj [("mcpServers",
         JObj [("alpha",
                JObj [("command", JStr "uvx"); ("args", JArr [JStr "alpha-server"]);
                      ("env", JObj [("PATH", JStr "/opt/bin")])]);
               ("beta", JObj [("command", JStr "npx")])])].

(** The configuration is [two_servers]; every server starts, the
    handles being numbered as the contexts are; the session of [alpha]
    (handle 1) lists [search] and [fetch], any other session lists
    [search].  The lines of the test inputs carry no blank around them
    and no capital, so that [strip] and [lower] leave them as they
    are. *)
Definition demo : Host :=
  {| environ := [("GEMINI_API_KEY", "secret"); ("PATH", "/usr/bin");
                 ("UV_LINK_MODE", "symlink")];
     load_config := fun _ => Ok two_servers;
     stdio_client := fun n _ => Ok n;
     client_session := fun n _ => Ok n;
     initialize := fun _ => Ok tt;
     list_tools := fun session =>
                     if Nat.eqb session 1 then Ok [search; fetch]
                     else Ok [search_undescribed];
     aclose := fun _ => Ok tt;
     str_strip := fun s => s;
     str_lower := fun s => s |}.

(** As [demo], but the second server does not start. *)
Definition beta_fails : Host :=
  {| environ := environ demo;
     load_config := load_config demo;
     stdio_client := fun n _ => if Nat.eqb n 2 then Raise (ExternalError "spawn") else Ok n;
     client_session := client_session demo;
     initialize := initialize demo;
     list_tools := list_tools demo;
     aclose := aclose demo;
     str_strip := str_strip demo;
     str_lower := str_lower demo |}.

(** As [demo], without API key. *)
Definition no_key : Host :=
  {| environ := [("PATH", "/usr/bin")];
     load_config := load_config demo;
     stdio_client := stdio_client demo;
     client_session := client_session demo;
     initialize := initialize demo;
     list_tools := list_tools demo;
     aclose := aclose demo;
     str_strip := str_strip demo;
     str_lower := str_lower demo |}.

(** A new object, as [__init__] leaves it. *)
Definition fresh (stdin : list Input) : System := new_object "config.json" stdin.

End hosts.

(* ------------------------------------------------------------------ *)
(** ** Basic facts                                                     *)
(* ------------------------------------------------------------------ *)

(** A closed fact about a test double, settled by running the model. *)
Ltac by_running := repeat split; vm_compute; reflexivity.

Lemma bind_ok {A B : Type} (m : M A) (k : A -> M B) st st' a :
  m st = (st', Ok a) -> bind m k st = k a st'.
Proof. intros H. unfold bind. now rewrite H. Qed.

Lemma bind_raise {A B : Type} (m : M A) (k : A -> M B) st st' e :
  m st = (st', Raise e) -> bind m k st = (st', Raise e).
Proof. intros H. unfold bind. now rewrite H. Qed.


Lemma execute_calls_as_agent env sp calls acc :
  multi_agent.execute_calls env sp calls acc
  = agent.execute_calls env (as_agent sp) calls acc.
Proof. reflexivity. Qed.

Lemma query_loop_tool_loop env self n messages st :
  agent.query_loop env self n messages st = tool_loop env None self n messages st.
Proof.
  revert messages st. induction n as [|n IH]; intros messages st; [reflexivity|].
  simpl. unfold bind.
  change (set_instruction None (agent.request self messages))
    with (agent.request self messages).
  destruct (generate env (agent.request self messages) st) as [st1 [response|e]];
    [|reflexivity].
  unfold lift.
  destruct (candidate_content response) as [content|e]; [|reflexivity].
  destruct (iter_parts content) as [ps|e]; [|reflexivity].
  destruct (List.filter has_function_call ps) as [|p calls];
    [reflexivity|].
  destruct (agent.execute_calls env self (p :: calls) [] st1) as [st2 [rs|e]];
    [apply IH|reflexivity].
Qed.

Lemma run_loop_tool_loop env sp n messages st :
  multi_agent.run_loop env sp n messages st
  = tool_loop env (Some (system_prompt sp)) (as_agent sp) n messages st.
Proof.
  revert messages st. induction n as [|n IH]; intros messages st; [reflexivity|].
  simpl. unfold bind.
  change (set_instruction (Some (system_prompt sp)) (agent.request (as_agent sp) messages))
    with (multi_agent.request sp messages).
  destruct (generate env (multi_agent.request sp messages) st) as [st1 [response|e]];
    [|reflexivity].
  unfold lift.
  destruct (candidate_content response) as [content|e]; [|reflexivity].
  destruct (iter_parts content) as [ps|e]; [|reflexivity].
  destruct (List.filter has_function_call ps) as [|p calls];
    [reflexivity|].
  change (multi_agent.execute_calls env sp (p :: calls) [] st1)
    with (agent.execute_calls env (as_agent sp) (p :: calls) [] st1).
  destruct (agent.execute_calls env (as_agent sp) (p :: calls) [] st1) as [st2 [rs|e]];
    [apply IH|reflexivity].
Qed.

Lemma query_tool_loop env self user_input st :
  agent.query env self user_input st
  = tool_loop env None self 10 (first_message user_input) st.
Proof. apply query_loop_tool_loop. Qed.

Lemma run_tool_loop env sp task st :
  multi_agent.run env sp task st
  = tool_loop env (Some (system_prompt sp)) (as_agent sp) 10 (first_message task) st.
Proof. apply run_loop_tool_loop. Qed.

Section LoopFacts.
Variable env : Env.
Variable self : agent.GeminiMCPAgent.


(** One call, with arguments, of a tool the routing table does not
    resolve: no effect, and the error text as the tool's reply. *)
Lemma execute_call_unresolved part fc arguments st :
  function_call part = Some fc ->
  fc_args fc = Some arguments ->
  unresolved (agent.tools_map self) (fc_name fc) ->
  agent.execute_call env self part st = (st, Ok (unknown_tool_part (fc_name fc))).
Proof.
  intros Hfc Hargs Hun. unfold agent.execute_call. rewrite Hfc, Hargs.
  unfold bind, lift, dict.
  destruct Hun as [-> | ->]; reflexivity.
Qed.

(** One call of a resolved tool: the session is called once and its
    outcome decides. *)
Lemma execute_call_resolved part fc arguments server session st :
  function_call part = Some fc ->
  fc_args fc = Some arguments ->
  tools_map_get (agent.tools_map self) (fc_name fc) = Some server ->
  server <> EmptyString ->
  agent.sessions self !! server = Some session ->
  let req := {| tr_session := session; tr_name := fc_name fc;
                tr_arguments := arguments |} in
  agent.execute_call env self part st
  = (log_tool req st,
     match call_tool env (length (tool_requests st)) req with
     | Ok content =>
         Ok (Part_from_function_response (fc_name fc)
               [("result", flatten_content content)])
     | Raise e => Raise e
     end).
Proof.
  intros Hfc Hargs Hmap Hne Hsess req. unfold agent.execute_call.
  rewrite Hfc, Hargs, Hmap.
  destruct (String.eqb_spec server EmptyString) as [->|_]; [congruence|].
  rewrite Hsess. unfold bind, lift, dict, session_call_tool. fold req.
  destruct (call_tool env (length (tool_requests st)) req); reflexivity.
Qed.

Lemma execute_call_frame part st :
  llm_requests (fst (agent.execute_call env self part st)) = llm_requests st
  /\ delegations (fst (agent.execute_call env self part st)) = delegations st.
Proof.
  unfold agent.execute_call.
  destruct (function_call part) as [fc|]; [|now split].
  unfold bind at 1, lift, dict.
  destruct (fc_args fc) as [arguments|]; [|now split].
  destruct (tools_map_get (agent.tools_map self) (fc_name fc)) as [server|]; [|now split].
  destruct (String.eqb server EmptyString); [now split|].
  destruct (agent.sessions self !! server) as [session|]; [|now split].
  unfold bind, session_call_tool.
  destruct (call_tool env _ _); now split.
Qed.

Lemma execute_calls_frame calls acc st :
  llm_requests (fst (agent.execute_calls env self calls acc st)) = llm_requests st
  /\ delegations (fst (agent.execute_calls env self calls acc st)) = delegations st.
Proof.
  revert acc st. induction calls as [|part rest IH]; intros acc st; [now split|].
  simpl. unfold bind.
  pose proof (execute_call_frame part st) as [Hl Hd].
  destruct (agent.execute_call env self part st) as [st1 [p|e]]; simpl in *;
    [|now split].
  destruct (IH (acc ++ [p]) st1) as [Hl' Hd']. split; congruence.
Qed.


(** Calls, with arguments, of unresolved tools only: no effect, one
    error part each. *)
Lemma execute_calls_unresolved calls acc st :
  Forall (fun part => exists fc arguments,
              function_call part = Some fc
              /\ fc_args fc = Some arguments
              /\ unresolved (agent.tools_map self) (fc_name fc)) calls ->
  exists results,
    agent.execute_calls env self calls acc st = (st, Ok (acc ++ results))
    /\ Forall2 (fun part p => exists fc, function_call part = Some fc
                                /\ p = unknown_tool_part (fc_name fc)) calls results.
Proof.
  intros H. revert acc.
  induction H as [|part rest (fc & arguments & Hfc & Hargs & Hun) _ IH]; intros acc.
  - exists []. rewrite app_nil_r. split; [reflexivity|constructor].
  - destruct (IH (acc ++ [unknown_tool_part (fc_name fc)])) as (rs & Heq & Hall).
    exists (unknown_tool_part (fc_name fc) :: rs). split.
    + simpl. erewrite bind_ok by (eapply execute_call_unresolved; eauto).
      rewrite Heq. now rewrite <- app_assoc.
    + constructor; eauto.
Qed.

Variable instruction : option string.

Lemma read_turn_ok response content ps :
  candidate_content response = Ok content ->
  iter_parts content = Ok ps ->
  read_turn response = Ok (content, ps).
Proof. intros H1 H2. unfold read_turn. now rewrite H1, H2. Qed.

(** One round of the loop, spelled out. *)
Lemma tool_loop_step n messages st :
  let req := set_instruction instruction (agent.request self messages) in
  tool_loop env instruction self (S n) messages st
  = match generate_content env (length (llm_requests st)) req with
    | Raise e => (log_llm req st, Raise e)
    | Ok response =>
        match read_turn response with
        | Raise e => (log_llm req st, Raise e)
        | Ok (content, ps) =>
            match List.filter has_function_call ps with
            | [] => (log_llm req st, Ok (final_text ps))
            | calls =>
                match agent.execute_calls env self calls [] (log_llm req st) with
                | (st', Ok tool_results) =>
                    tool_loop env instruction self n
                      ((messages ++ [content])
                         ++ [{| role := Some "user"; parts := Some tool_results |}]) st'
                | (st', Raise e) => (st', Raise e)
                end
            end
        end
    end.
Proof.
  intros req. simpl. unfold bind, generate, lift, read_turn. fold req.
  destruct (generate_content env (length (llm_requests st)) req) as [response|e];
    [|reflexivity].
  destruct (candidate_content response) as [content|e]; [|reflexivity].
  destruct (iter_parts content) as [ps|e]; [|reflexivity].
  destruct (List.filter has_function_call ps); reflexivity.
Qed.

Lemma tool_loop_frame n messages st :
  length (llm_requests (fst (tool_loop env instruction self n messages st)))
    <= length (llm_requests st) + n
  /\ delegations (fst (tool_loop env instruction self n messages st)) = delegations st.
Proof.
  revert messages st. induction n as [|n IH]; intros messages st.
  - simpl. split; [lia|reflexivity].
  - rewrite tool_loop_step.
    set (req := set_instruction instruction (agent.request self messages)).
    assert (Hlog : length (llm_requests (log_llm req st)) = length (llm_requests st) + 1)
      by (simpl; rewrite length_app; reflexivity).
    destruct (generate_content env (length (llm_requests st)) req) as [response|e];
      [|simpl fst; split; [lia|reflexivity]].
    destruct (read_turn response) as [[content ps]|e];
      [|simpl fst; split; [lia|reflexivity]].
    destruct (List.filter has_function_call ps) as [|p calls];
      [simpl fst; split; [lia|reflexivity]|].
    pose proof (execute_calls_frame (p :: calls) [] (log_llm req st)) as [Hl Hd].
    destruct (agent.execute_calls env self (p :: calls) [] (log_llm req st))
      as [st1 [rs|e]]; simpl fst in *.
    + destruct (IH ((messages ++ [content])
                      ++ [{| role := Some "user"; parts := Some rs |}]) st1)
        as [IHl IHd].
      split; [rewrite Hl in IHl; lia | now rewrite IHd, Hd].
    + split; [rewrite Hl; lia | now rewrite Hd].
Qed.

End LoopFacts.

Section LoopRuns.
Variable env : Env.
Variable self : agent.GeminiMCPAgent.
Variable instruction : option string.

(** With a consistent routing table and tools that answer, a batch of
    calls produces its results. *)
Lemma tools_map_get_routed name server :
  routed (agent.tools_map self) (agent.sessions self) ->
  tools_map_get (agent.tools_map self) name = Some server ->
  server <> EmptyString ->
  is_Some (agent.sessions self !! server).
Proof.
  intros Hroute Hmap Hne. destruct name as [name|]; [|discriminate].
  exact (Hroute name server Hmap Hne).
Qed.

Lemma execute_calls_ok calls acc st :
  (forall k req, exists content, call_tool env k req = Ok content) ->
  routed (agent.tools_map self) (agent.sessions self) ->
  Forall (fun part => has_function_call part = true) calls ->
  Forall with_arguments calls ->
  exists st' results, agent.execute_calls env self calls acc st = (st', Ok results).
Proof.
  intros Htool Hroute H Hargs. revert acc st.
  induction H as [|part rest Hpart _ IH]; intros acc st; [simpl; eauto|].
  apply Forall_cons in Hargs as [Harg Hargs].
  unfold has_function_call in Hpart.
  destruct (function_call part) as [fc|] eqn:Hfc; [|discriminate].
  destruct (Harg fc Hfc) as [arguments Ha].
  assert (exists st1 p, agent.execute_call env self part st = (st1, Ok p))
    as (st1 & p & Hp).
  { destruct (tools_map_get (agent.tools_map self) (fc_name fc)) as [server|] eqn:Hmap.
    - destruct (String.eqb_spec server EmptyString) as [->|Hne].
      + erewrite execute_call_unresolved by (eauto; now right). eauto.
      + destruct (tools_map_get_routed _ _ Hroute Hmap Hne) as [session Hs].
        erewrite execute_call_resolved by eauto.
        destruct (Htool (length (tool_requests st))
                    {| tr_session := session; tr_name := fc_name fc;
                       tr_arguments := arguments |}) as [content ->].
        eauto.
    - erewrite execute_call_unresolved by (eauto; now left). eauto. }
  simpl. erewrite bind_ok by exact Hp. now apply IH.
Qed.

Lemma filter_has_function_call ps :
  Forall (fun part => has_function_call part = true) (List.filter has_function_call ps).
Proof. apply List.Forall_forall. intros p Hp. now apply List.filter_In in Hp. Qed.

Lemma filter_with_arguments ps :
  Forall with_arguments ps -> Forall with_arguments (List.filter has_function_call ps).
Proof.
  intros H. apply List.Forall_forall. intros p Hp. apply List.filter_In in Hp as [Hp _].
  rewrite List.Forall_forall in H. now apply H.
Qed.

(** The loop runs out of rounds when every answer asks for a tool and
    no tool call fails. *)
Lemma tool_loop_exhausts n messages st :
  (forall k req,
      length (llm_requests st) <= k < length (llm_requests st) + n ->
      exists response,
        generate_content env k req = Ok response /\ requests_tools response) ->
  (forall k req, exists content, call_tool env k req = Ok content) ->
  routed (agent.tools_map self) (agent.sessions self) ->
  exists st',
    tool_loop env instruction self n messages st = (st', Ok MAX_ITERATIONS_WARNING)
    /\ length (llm_requests st') = length (llm_requests st) + n.
Proof.
  intros Hllm Htool Hroute. revert messages st Hllm.
  induction n as [|n IH]; intros messages st Hllm.
  - exists st. split; [reflexivity|lia].
  - rewrite tool_loop_step.
    set (req := set_instruction instruction (agent.request self messages)).
    destruct (Hllm (length (llm_requests st)) req ltac:(lia))
      as (response & -> & content & ps & -> & Hcalls & Hargs).
    destruct (List.filter has_function_call ps) as [|p calls] eqn:Hf;
      [congruence|].
    destruct (execute_calls_ok (p :: calls) [] (log_llm req st) Htool Hroute)
      as (st1 & rs & Hex).
    { rewrite <- Hf. apply filter_has_function_call. }
    { rewrite <- Hf. now apply filter_with_arguments. }
    pose proof (execute_calls_frame env self (p :: calls) [] (log_llm req st)) as [Hl _].
    rewrite Hex in *. simpl fst in Hl.
    assert (Hlen : length (llm_requests st1) = length (llm_requests st) + 1).
    { rewrite Hl. simpl. rewrite length_app. reflexivity. }
    destruct (IH ((messages ++ [content])
                    ++ [{| role := Some "user"; parts := Some rs |}]) st1)
      as (st' & Hrun & Hcount).
    { intros k r Hk. apply Hllm. lia. }
    exists st'. split; [exact Hrun|lia].
Qed.

End LoopRuns.

(* ------------------------------------------------------------------ *)
(** ** C1: the iteration cap                                           *)
(* ------------------------------------------------------------------ *)

(** C1, as stated, fails: the ten answers of [echo_fails] all request the
    tool [echo], yet [query] and [run] raise the error of the first tool
    call instead of returning the warning.  So they do, before any tool
    is called, when the answers request [echo] with [args] left out
    ([echo_without_args]): [dict(None)] raises [TypeError]. *)
Lemma cap_warning_counterexample :
  Forall (fun answer => exists response content ps,
              answer = Ok response
              /\ read_turn response = Ok (content, ps)
              /\ List.filter has_function_call ps <> [])
    (repeat (stub.asks "echo") 10 ++ repeat (stub.asks_without_args "echo") 10)
  /\ snd (agent.query stub.echo_fails stub.echo_agent "hi" initial_state)
     = Raise (ExternalError "connection closed")
  /\ snd (multi_agent.run stub.echo_fails stub.echo_specialist "hi" initial_state)
     = Raise (ExternalError "connection closed")
  /\ agent.query stub.echo_without_args stub.echo_agent "hi" initial_state
     = (log_llm (agent.request stub.echo_agent (first_message "hi")) initial_state,
        Raise TypeError)
  /\ multi_agent.run stub.echo_without_args stub.echo_specialist "hi" initial_state
     = (log_llm (multi_agent.request stub.echo_specialist (first_message "hi"))
          initial_state,
        Raise TypeError).
Proof.
  split; [|repeat split; vm_compute; reflexivity].
  repeat constructor; eexists _, _, _; (split; [reflexivity|]);
    (split; [reflexivity|discriminate]).
Qed.

(** C1 (amended): [query] and [run] always end after at most 10 model
    calls; when each of the 10 answers has a first candidate whose
    parts request a tool, every requested call comes with its arguments
    ([args] is not [None]), no tool call raises and every routed server
    has a session, they return the fixed warning string, after exactly
    10 model calls. *)
Theorem loop_terminates_within_cap
  (env : Env) (a : agent.GeminiMCPAgent) (sp : SpecialistAgent)
  (prompt : string) (st : State) :
  length (llm_requests (fst (agent.query env a prompt st)))
    <= length (llm_requests st) + 10
  /\ length (llm_requests (fst (multi_agent.run env sp prompt st)))
    <= length (llm_requests st) + 10
  /\ ((forall k req,
          length (llm_requests st) <= k < length (llm_requests st) + 10 ->
          exists response content ps,
            generate_content env k req = Ok response
            /\ candidate_content response = Ok content
            /\ parts content = Some ps
            /\ List.filter has_function_call ps <> []
            /\ (forall part fc,
                   part ∈ ps -> function_call part = Some fc -> fc_args fc <> None)) ->
      (forall k req, exists content, call_tool env k req = Ok content) ->
      (routed (agent.tools_map a) (agent.sessions a) ->
       exists st',
         agent.query env a prompt st
         = (st', Ok "[경고] 최대 반복 횟수(10)에 도달했습니다.")
         /\ length (llm_requests st') = length (llm_requests st) + 10)
      /\ (routed (tools_map sp) (sessions sp) ->
          exists st',
            multi_agent.run env sp prompt st
            = (st', Ok "[경고] 최대 반복 횟수(10)에 도달했습니다.")
            /\ length (llm_requests st') = length (llm_requests st) + 10)).
Proof.
  rewrite query_tool_loop, run_tool_loop.
  split; [apply tool_loop_frame|]. split; [apply tool_loop_frame|].
  intros Hllm Htool.
  assert (Hllm' : forall k req,
             length (llm_requests st) <= k < length (llm_requests st) + 10 ->
             exists response,
               generate_content env k req = Ok response /\ requests_tools response).
  { intros k req Hk.
    destruct (Hllm k req Hk) as (response & content & ps & Hgen & Hc & Hps & Hcalls & Hargs).
    exists response. split; [exact Hgen|]. exists content, ps.
    split; [apply read_turn_ok; [exact Hc|unfold iter_parts; now rewrite Hps]|].
    split; [exact Hcalls|].
    apply List.Forall_forall. intros part Hin fc Hfc.
    apply list_elem_of_In in Hin.
    destruct (fc_args fc) as [arguments|] eqn:Ha; [eauto|].
    now destruct (Hargs part fc Hin Hfc). }
  split; intros Hroute; now apply tool_loop_exhausts.
Qed.

Lemma routed_echo : routed (agent.tools_map stub.echo_agent) (agent.sessions stub.echo_agent).
Proof.
  intros name server Hmap Hne. simpl in *.
  destruct (decide (name = "echo")) as [->|Hn].
  - rewrite lookup_insert_eq in Hmap. injection Hmap as <-.
    rewrite lookup_insert_eq. eauto.
  - rewrite lookup_insert_ne, lookup_empty in Hmap by congruence. discriminate.
Qed.

Lemma loop_terminates_within_cap_witness :
  exists st',
    agent.query stub.echo_for_ever stub.echo_agent "hi" initial_state
    = (st', Ok MAX_ITERATIONS_WARNING)
    /\ length (llm_requests st') = 10.
Proof.
  destruct (loop_terminates_within_cap stub.echo_for_ever stub.echo_agent
              stub.echo_specialist "hi" initial_state) as (_ & _ & H).
  destruct H as [H _].
  - intros k req _. eexists _, _, _.
    split; [reflexivity|]. split; [reflexivity|]. split; [reflexivity|].
    split; [discriminate|].
    intros part fc Hin Hfc. apply list_elem_of_singleton in Hin. subst part.
    injection Hfc as <-. discriminate.
  - intros k req. eexists. reflexivity.
  - exact (H routed_echo).
Defined.

(* ------------------------------------------------------------------ *)
(** ** Tool errors are not caught                                      *)
(* ------------------------------------------------------------------ *)

Section ToolFaithful.
Variable env : Env.

Lemma tool_faithful_pure {A : Type} (r : result A) : tool_faithful env (lift r).
Proof.
  intros st. exists []. split; [now rewrite app_nil_r|].
  intros j req e Hj. discriminate.
Qed.

Lemma tool_faithful_generate req : tool_faithful env (generate env req).
Proof.
  intros st. exists []. split; [now rewrite app_nil_r|].
  intros j r e Hj. discriminate.
Qed.

Lemma tool_faithful_call session name arguments :
  tool_faithful env (session_call_tool env session name arguments).
Proof.
  intros st. unfold session_call_tool. simpl.
  eexists [_]. split; [reflexivity|].
  intros j req e Hj Hraise. destruct j as [|j]; [|discriminate].
  injection Hj as <-. rewrite Nat.add_0_r in Hraise. now split.
Qed.

Lemma tool_faithful_bind {A B : Type} (m : M A) (k : A -> M B) :
  tool_faithful env m -> (forall a, tool_faithful env (k a)) ->
  tool_faithful env (bind m k).
Proof.
  intros Hm Hk st. specialize (Hm st). unfold bind.
  destruct (m st) as [st1 [a|e]]; simpl in *.
  2:{ destruct Hm as (new1 & Heq1 & Hnew1). exists new1. split; [exact Heq1|].
      intros j req e' Hj Hraise. destruct (Hnew1 j req e' Hj Hraise) as [Hr Hlen].
      split; [congruence|exact Hlen]. }
  destruct Hm as (new1 & Heq1 & Hnew1).
  destruct (Hk a st1) as (new2 & Heq2 & Hnew2).
  exists (new1 ++ new2). split; [now rewrite Heq2, Heq1, app_assoc|].
  intros j req e Hj Hraise.
  destruct (decide (j < length new1)) as [Hlt|Hge].
  - rewrite lookup_app_l in Hj by exact Hlt.
    destruct (Hnew1 j req e Hj Hraise) as [Habs _]. discriminate.
  - rewrite lookup_app_r in Hj by lia.
    destruct (Hnew2 (j - length new1) req e Hj) as [Hr Hlen].
    + rewrite Heq1, length_app.
      replace (length (tool_requests st) + length new1 + (j - length new1))
        with (length (tool_requests st) + j) by lia.
      exact Hraise.
    + split; [exact Hr|]. rewrite length_app. lia.
Qed.

Variable self : agent.GeminiMCPAgent.

Lemma tool_faithful_execute_call part :
  tool_faithful env (agent.execute_call env self part).
Proof.
  unfold agent.execute_call.
  destruct (function_call part) as [fc|]; [|apply (tool_faithful_pure (Raise _))].
  apply tool_faithful_bind; [apply tool_faithful_pure|]. intros arguments.
  apply tool_faithful_bind; [|intros t; apply (tool_faithful_pure (Ok _))].
  destruct (tools_map_get (agent.tools_map self) (fc_name fc)) as [server|];
    [|apply (tool_faithful_pure (Ok _))].
  destruct (String.eqb server EmptyString); [apply (tool_faithful_pure (Ok _))|].
  destruct (agent.sessions self !! server) as [session|];
    [|apply (tool_faithful_pure (Raise _))].
  apply tool_faithful_bind; [apply tool_faithful_call|].
  intros content. apply (tool_faithful_pure (Ok _)).
Qed.

Lemma tool_faithful_execute_calls calls acc :
  tool_faithful env (agent.execute_calls env self calls acc).
Proof.
  revert acc. induction calls as [|part rest IH]; intros acc; simpl.
  - apply (tool_faithful_pure (Ok _)).
  - apply tool_faithful_bind; [apply tool_faithful_execute_call|].
    intros p. apply IH.
Qed.

Lemma tool_faithful_tool_loop instruction n messages :
  tool_faithful env (tool_loop env instruction self n messages).
Proof.
  revert messages. induction n as [|n IH]; intros messages; simpl.
  - apply (tool_faithful_pure (Ok _)).
  - apply tool_faithful_bind; [apply tool_faithful_generate|].
    intros response.
    apply tool_faithful_bind; [apply tool_faithful_pure|]. intros content.
    apply tool_faithful_bind; [apply tool_faithful_pure|]. intros ps.
    destruct (List.filter has_function_call ps) as [|p calls];
      [apply (tool_faithful_pure (Ok _))|].
    apply tool_faithful_bind; [apply tool_faithful_execute_calls|].
    intros rs. apply IH.
Qed.

End ToolFaithful.

(* ------------------------------------------------------------------ *)
(** ** C3: an error raised by call_tool                                *)
(* ------------------------------------------------------------------ *)

(** C3, as stated, fails: in [echo_times_out] the call of [echo] raises a
    timeout; [query] and [run] raise it too, after a single model call,
    although the model would have answered [done] on its next turn. *)
Lemma tool_error_counterexample :
  agent.query stub.echo_times_out stub.echo_agent "hi" initial_state
  = ({| llm_requests := [agent.request stub.echo_agent (first_message "hi")];
        tool_requests := [{| tr_session := 0; tr_name := Some "echo";
                             tr_arguments := [] |}];
        delegations := [] |},
     Raise (ExternalError "timeout"))
  /\ snd (multi_agent.run stub.echo_times_out stub.echo_specialist "hi" initial_state)
     = Raise (ExternalError "timeout")
  /\ length (llm_requests
               (fst (multi_agent.run stub.echo_times_out stub.echo_specialist
                       "hi" initial_state))) = 1.
Proof. by_running. Qed.

(** C3 (amended): the loop does not catch an error raised by
    [call_tool].  Whichever tool call of a run of [query] or [run] raises,
    that call is the last one of the run and its exception is the outcome
    of the run. *)
Theorem tool_error_propagates
  (env : Env) (a : agent.GeminiMCPAgent) (sp : SpecialistAgent)
  (prompt : string) (st : State) :
  (forall st' r,
      agent.query env a prompt st = (st', r) ->
      exists new,
        tool_requests st' = tool_requests st ++ new
        /\ forall j req e,
            new !! j = Some req ->
            call_tool env (length (tool_requests st) + j) req = Raise e ->
            r = Raise e /\ length new = S j)
  /\ (forall st' r,
      multi_agent.run env sp prompt st = (st', r) ->
      exists new,
        tool_requests st' = tool_requests st ++ new
        /\ forall j req e,
            new !! j = Some req ->
            call_tool env (length (tool_requests st) + j) req = Raise e ->
            r = Raise e /\ length new = S j).
Proof.
  split; intros st' r Hrun.
  - rewrite query_tool_loop in Hrun.
    pose proof (tool_faithful_tool_loop env a None 10 (first_message prompt) st) as H.
    now rewrite Hrun in H.
  - rewrite run_tool_loop in Hrun.
    pose proof (tool_faithful_tool_loop env (as_agent sp) (Some (system_prompt sp)) 10
                  (first_message prompt) st) as H.
    now rewrite Hrun in H.
Qed.

Lemma tool_error_propagates_witness :
  snd (agent.query stub.echo_times_out stub.echo_agent "hi" initial_state)
  = Raise (ExternalError "timeout").
Proof.
  destruct (tool_error_propagates stub.echo_times_out stub.echo_agent
              stub.echo_specialist "hi" initial_state) as [H _].
  destruct (agent.query stub.echo_times_out stub.echo_agent "hi" initial_state)
    as [st' r] eqn:Hrun.
  destruct (H st' r eq_refl) as (new & Hnew & Hraise).
  assert (Hreq : new = [{| tr_session := 0; tr_name := Some "echo";
                           tr_arguments := [] |}]).
  { apply (f_equal fst) in Hrun. simpl in Hrun. subst st'.
    vm_compute in Hnew. symmetry. exact Hnew. }
  subst new.
  exact (proj1 (Hraise 0 _ (ExternalError "timeout") eq_refl eq_refl)).
Defined.

(* ------------------------------------------------------------------ *)
(** ** C2: a tool the routing table does not know                      *)
(* ------------------------------------------------------------------ *)

Section UnknownTool.
Variable env : Env.
Variable self : agent.GeminiMCPAgent.
Variable instruction : option string.



End UnknownTool.




(* ------------------------------------------------------------------ *)
(** ** C7: the final answer                                            *)
(* ------------------------------------------------------------------ *)

Lemma omap_truthy_text ps :
  omap truthy_text ps
  = List.filter (fun t => negb (String.eqb t EmptyString)) (all_texts ps).
Proof.
  unfold all_texts. induction ps as [|p ps IH]; [reflexivity|].
  change (omap truthy_text (p :: ps))
    with (match truthy_text p with
          | Some t => t :: omap truthy_text ps
          | None => omap truthy_text ps
          end).
  change (omap text (p :: ps))
    with (match text p with Some t => t :: omap text ps | None => omap text ps end).
  unfold truthy_text at 1.
  destruct (text p) as [t|]; [|exact IH].
  simpl. destruct (String.eqb t EmptyString); simpl; now rewrite IH.
Qed.

Lemma tool_loop_final env self instruction n messages st response content ps :
  let req := set_instruction instruction (agent.request self messages) in
  generate_content env (length (llm_requests st)) req = Ok response ->
  read_turn response = Ok (content, ps) ->
  List.filter has_function_call ps = [] ->
  tool_loop env instruction self (S n) messages st
  = (log_llm req st, Ok (final_text ps)).
Proof.
  intros req Hgen Hturn Hnone. rewrite tool_loop_step. fold req.
  now rewrite Hgen, Hturn, Hnone.
Qed.

(** A response that cannot be read ends the run. *)
Lemma tool_loop_unreadable env self instruction n messages st response e :
  let req := set_instruction instruction (agent.request self messages) in
  generate_content env (length (llm_requests st)) req = Ok response ->
  read_turn response = Raise e ->
  tool_loop env instruction self (S n) messages st = (log_llm req st, Raise e).
Proof.
  intros req Hgen Hturn. rewrite tool_loop_step. fold req. now rewrite Hgen, Hturn.
Qed.

(** C7, as stated, fails: the answer of [says_three_texts] has the text
    parts [a], the empty text and [b]; the loop returns [a] and [b] on two
    lines, where joining all the text parts leaves an empty line between
    them.  And the answer of [says_nothing], whose content has no parts
    at all, makes the loop raise [TypeError] where the placeholder is
    promised. *)
Lemma final_text_counterexample :
  snd (agent.query stub.says_three_texts stub.bare_agent "hi" initial_state)
  = Ok ("a" +:+ nl +:+ "b")
  /\ spec_final_text stub.three_parts = "a" +:+ nl +:+ nl +:+ "b"
  /\ snd (agent.query stub.says_three_texts stub.bare_agent "hi" initial_state)
     <> Ok (spec_final_text stub.three_parts)
  /\ snd (agent.query stub.says_nothing stub.bare_agent "hi" initial_state)
     = Raise TypeError
  /\ snd (multi_agent.run stub.says_nothing stub.bare_specialist "hi" initial_state)
     = Raise TypeError.
Proof.
  split; [vm_compute; reflexivity|]. split; [vm_compute; reflexivity|].
  split; [vm_compute; discriminate|]. split; vm_compute; reflexivity.
Qed.

(** C7 (amended): when the first candidate of an answer of the model has
    a content with a list of parts, none of which is a tool call,
    [query] and [run] return at once the texts of its parts that are
    not empty, joined by line feeds, and the placeholder [(빈 응답)] when
    there is no such text.  An answer that cannot be read so ends the
    run with an exception instead: [TypeError] when [candidates] or
    [parts] is [None], [IndexError] when there is no candidate,
    [AttributeError] when the candidate has no content. *)
Theorem final_answer_text
  (env : Env) (a : agent.GeminiMCPAgent) (sp : SpecialistAgent)
  (n : nat) (messages : list Content) (st : State)
  (response : GenerateContentResponse) :
  let unreadable :=
    match candidates response with
    | None => Some TypeError
    | Some [] => Some IndexError
    | Some (candidate :: _) =>
        match content candidate with
        | None => Some AttributeError
        | Some content =>
            match parts content with
            | None => Some TypeError
            | Some _ => None
            end
        end
    end in
  (forall content ps,
      candidate_content response = Ok content ->
      parts content = Some ps ->
      List.filter has_function_call ps = [] ->
      let texts :=
        List.filter (fun t => negb (String.eqb t EmptyString)) (all_texts ps) in
      let answer := match texts with [] => "(빈 응답)" | _ => join nl texts end in
      (generate_content env (length (llm_requests st)) (agent.request a messages)
       = Ok response ->
       agent.query_loop env a (S n) messages st
       = (log_llm (agent.request a messages) st, Ok answer))
      /\ (generate_content env (length (llm_requests st)) (multi_agent.request sp messages)
          = Ok response ->
          multi_agent.run_loop env sp (S n) messages st
          = (log_llm (multi_agent.request sp messages) st, Ok answer)))
  /\ (forall e,
         unreadable = Some e ->
         (generate_content env (length (llm_requests st)) (agent.request a messages)
          = Ok response ->
          agent.query_loop env a (S n) messages st
          = (log_llm (agent.request a messages) st, Raise e))
         /\ (generate_content env (length (llm_requests st))
               (multi_agent.request sp messages)
             = Ok response ->
             multi_agent.run_loop env sp (S n) messages st
             = (log_llm (multi_agent.request sp messages) st, Raise e))).
Proof.
  intros unreadable. split.
  - intros content ps Hcontent Hps Hnone texts answer.
    assert (Hans : answer = final_text ps).
    { unfold answer, texts, final_text. now rewrite omap_truthy_text. }
    assert (Hturn : read_turn response = Ok (content, ps)).
    { apply read_turn_ok; [exact Hcontent|]. unfold iter_parts. now rewrite Hps. }
    rewrite Hans. split; intros Hgen.
    + rewrite query_loop_tool_loop. now apply (tool_loop_final env a None _ _ _ response content).
    + rewrite run_loop_tool_loop.
      now apply (tool_loop_final env (as_agent sp) (Some (system_prompt sp))
                   _ _ _ response content).
  - intros e He.
    assert (Hturn : read_turn response = Raise e).
    { unfold unreadable in He. unfold read_turn, candidate_content, iter_parts.
      destruct (candidates response) as [[|candidate others]|]; try congruence.
      destruct (content candidate) as [content|]; try congruence.
      destruct (parts content); congruence. }
    split; intros Hgen.
    + rewrite query_loop_tool_loop. now apply (tool_loop_unreadable env a None _ _ _ response).
    + rewrite run_loop_tool_loop.
      now apply (tool_loop_unreadable env (as_agent sp) (Some (system_prompt sp))
                   _ _ _ response).
Qed.

Lemma final_answer_text_witness :
  agent.query stub.says_three_texts stub.bare_agent "hi" initial_state
  = (log_llm (agent.request stub.bare_agent (first_message "hi")) initial_state,
     Ok ("a" +:+ nl +:+ "b")).
Proof.
  apply (proj1 (final_answer_text stub.says_three_texts stub.bare_agent
                  stub.bare_specialist 9 (first_message "hi") initial_state
                  (stub.respond stub.three_texts))
           stub.three_texts stub.three_parts);
    reflexivity.
Defined.

(* ------------------------------------------------------------------ *)
(** ** C9: run is query with a system instruction                      *)
(* ------------------------------------------------------------------ *)

Section SameLoop.
Variable env : Env.
Variable self : agent.GeminiMCPAgent.

Lemma execute_call_same_tools part st1 st2 :
  tool_requests st1 = tool_requests st2 ->
  snd (agent.execute_call env self part st1) = snd (agent.execute_call env self part st2)
  /\ tool_requests (fst (agent.execute_call env self part st1))
     = tool_requests (fst (agent.execute_call env self part st2)).
Proof.
  intros Heq. unfold agent.execute_call.
  destruct (function_call part) as [fc|]; [|now split].
  unfold bind at 1 3 5 7, lift, dict.
  destruct (fc_args fc) as [arguments|]; [|now split].
  destruct (tools_map_get (agent.tools_map self) (fc_name fc)) as [server|]; [|now split].
  destruct (String.eqb server EmptyString); [now split|].
  destruct (agent.sessions self !! server) as [session|]; [|now split].
  unfold bind, session_call_tool. rewrite Heq.
  destruct (call_tool env _ _); simpl; now rewrite Heq.
Qed.

Lemma execute_calls_same_tools calls acc st1 st2 :
  tool_requests st1 = tool_requests st2 ->
  snd (agent.execute_calls env self calls acc st1)
  = snd (agent.execute_calls env self calls acc st2)
  /\ tool_requests (fst (agent.execute_calls env self calls acc st1))
     = tool_requests (fst (agent.execute_calls env self calls acc st2)).
Proof.
  revert acc st1 st2. induction calls as [|part rest IH]; intros acc st1 st2 Heq;
    [now split|].
  simpl. unfold bind.
  destruct (execute_call_same_tools part st1 st2 Heq) as [Hr Ht].
  destruct (agent.execute_call env self part st1) as [st1' [p1|e1]];
    destruct (agent.execute_call env self part st2) as [st2' [p2|e2]];
    simpl in Hr, Ht; try discriminate.
  - injection Hr as ->. apply IH. exact Ht.
  - simpl. split; [congruence|exact Ht].
Qed.

Hypothesis instruction_ignored :
  forall k req i, generate_content env k (set_instruction i req) = generate_content env k req.

(** Two runs of the loop that differ in the instruction only: same
    outcome, same tool calls, and the same requests but for the
    instruction. *)
Lemma tool_loop_instruction i n messages st1 st2 :
  length (llm_requests st1) = length (llm_requests st2) ->
  tool_requests st1 = tool_requests st2 ->
  snd (tool_loop env i self n messages st1) = snd (tool_loop env None self n messages st2)
  /\ tool_requests (fst (tool_loop env i self n messages st1))
     = tool_requests (fst (tool_loop env None self n messages st2))
  /\ exists new,
      llm_requests (fst (tool_loop env None self n messages st2))
      = llm_requests st2 ++ new
      /\ llm_requests (fst (tool_loop env i self n messages st1))
         = llm_requests st1 ++ map (set_instruction i) new.
Proof.
  revert messages st1 st2. induction n as [|n IH]; intros messages st1 st2 Hlen Htools.
  - simpl. repeat split; [exact Htools|]. exists []. now rewrite !app_nil_r.
  - rewrite !tool_loop_step.
    change (set_instruction None (agent.request self messages))
      with (agent.request self messages).
    set (base := agent.request self messages).
    rewrite instruction_ignored, Hlen.
    destruct (generate_content env (length (llm_requests st2)) base) as [response|e].
    2:{ simpl. repeat split; [exact Htools|]. now exists [base]. }
    destruct (read_turn response) as [[content ps]|e].
    2:{ simpl. repeat split; [exact Htools|]. now exists [base]. }
    destruct (List.filter has_function_call ps) as [|p calls].
    { simpl. repeat split; [exact Htools|]. now exists [base]. }
    pose proof (execute_calls_same_tools (p :: calls) []
                  (log_llm (set_instruction i base) st1) (log_llm base st2) Htools)
      as [Hr Ht].
    pose proof (execute_calls_frame env self (p :: calls) []
                  (log_llm (set_instruction i base) st1)) as [Hl1 _].
    pose proof (execute_calls_frame env self (p :: calls) [] (log_llm base st2))
      as [Hl2 _].
    destruct (agent.execute_calls env self (p :: calls) []
                (log_llm (set_instruction i base) st1)) as [st1' [rs1|e1]];
      destruct (agent.execute_calls env self (p :: calls) [] (log_llm base st2))
        as [st2' [rs2|e2]];
      simpl in Hr, Ht, Hl1, Hl2; try discriminate.
    + injection Hr as ->.
      destruct (IH ((messages ++ [content])
                      ++ [{| role := Some "user"; parts := Some rs2 |}])
                  st1' st2') as (Hout & Htr & new & Hn2 & Hn1).
      { rewrite Hl1, Hl2, !length_app. simpl. lia. }
      { exact Ht. }
      repeat split; [exact Hout|exact Htr|].
      exists (base :: new). rewrite Hn2, Hn1, Hl1, Hl2.
      simpl. now rewrite <- !app_assoc.
    + simpl. repeat split; [congruence|exact Ht|].
      exists [base]. now rewrite Hl1, Hl2.
Qed.

End SameLoop.

(** C9: for an LLM whose answers do not depend on the system instruction
    it is given, [SpecialistAgent.run] ends as [GeminiMCPAgent.query]
    does on the same tools (the same text returned, or the same
    exception raised), with the same tool calls; the requests sent to
    the LLM are those of [query] with the system prompt of the
    specialist added. *)
Theorem run_is_query_with_instruction
  (env : Env) (sp : SpecialistAgent) (task : string) (st : State) :
  (forall k req i,
      generate_content env k (set_instruction i req) = generate_content env k req) ->
  let ran := multi_agent.run env sp task st in
  let queried := agent.query env (as_agent sp) task st in
  snd ran = snd queried
  /\ tool_requests (fst ran) = tool_requests (fst queried)
  /\ exists new,
      llm_requests (fst queried) = llm_requests st ++ new
      /\ llm_requests (fst ran)
         = llm_requests st ++ map (set_instruction (Some (system_prompt sp))) new.
Proof.
  intros Hign ran queried. unfold ran, queried.
  rewrite run_tool_loop, query_tool_loop.
  now apply tool_loop_instruction.
Qed.

Lemma run_is_query_with_instruction_witness :
  snd (multi_agent.run stub.echo_for_ever stub.echo_specialist "hi" initial_state)
  = snd (agent.query stub.echo_for_ever (as_agent stub.echo_specialist) "hi" initial_state).
Proof.
  apply (run_is_query_with_instruction stub.echo_for_ever stub.echo_specialist
           "hi" initial_state).
  intros k req i. reflexivity.
Defined.

(* ------------------------------------------------------------------ *)
(** ** Strings                                                         *)
(* ------------------------------------------------------------------ *)

Lemma append_cons (c : ascii) (a b : string) : String c a +:+ b = String c (a +:+ b).
Proof. reflexivity. Qed.

Lemma append_empty_l (a : string) : EmptyString +:+ a = a.
Proof. reflexivity. Qed.

Lemma append_assoc (a b c : string) : (a +:+ b) +:+ c = a +:+ (b +:+ c).
Proof.
  induction a as [|ch a IH]; [reflexivity|].
  rewrite !append_cons. now f_equal.
Qed.

Lemma append_empty_r (a : string) : a +:+ EmptyString = a.
Proof.
  induction a as [|ch a IH]; [reflexivity|].
  rewrite append_cons. now f_equal.
Qed.

Lemma starts_with_append needle after : starts_with needle (needle +:+ after) = true.
Proof.
  induction needle as [|c needle IH]; [reflexivity|].
  rewrite append_cons. simpl. now rewrite Ascii.eqb_refl, IH.
Qed.

Lemma containsb_starts needle hay : starts_with needle hay = true -> containsb needle hay = true.
Proof. intros H. destruct hay; simpl; now rewrite H. Qed.

Lemma containsb_complete needle hay : contains needle hay -> containsb needle hay = true.
Proof.
  intros (before & after & ->). induction before as [|c before IH].
  - rewrite append_empty_l. apply containsb_starts, starts_with_append.
  - rewrite append_cons. simpl. rewrite IH. apply orb_true_r.
Qed.

Lemma containsb_sound needle hay : containsb needle hay = true -> contains needle hay.
Proof.
  assert (Hstart : forall n h, starts_with n h = true -> exists after, h = n +:+ after).
  { induction n as [|c n IH]; intros h H; [now exists h|].
    destruct h as [|c' h]; simpl in H; [discriminate|].
    apply andb_true_iff in H as [Hc Hn]. apply Ascii.eqb_eq in Hc as ->.
    destruct (IH h Hn) as [after ->]. now exists after. }
  induction hay as [|c hay IH]; simpl; intros H.
  - rewrite orb_false_r in H. destruct (Hstart _ _ H) as [after ->].
    now exists EmptyString, after.
  - apply orb_true_iff in H as [H|H].
    + destruct (Hstart _ _ H) as [after ->]. now exists EmptyString, after.
    + destruct (IH H) as (before & after & ->). now exists (String c before), after.
Qed.

Lemma concat_empty_cons (x : string) (xs : list string) :
  String.concat EmptyString (x :: xs) = x +:+ String.concat EmptyString xs.
Proof. destruct xs; simpl; [now rewrite append_empty_r|reflexivity]. Qed.

(** The loop [for name, result in results.items(): text += ...]. *)
Lemma fold_labelled results init :
  fold_left (fun acc entry => acc +:+ labelled entry) results init
  = init +:+ String.concat EmptyString (map labelled results).
Proof.
  revert init. induction results as [|entry results IH]; intros init.
  - simpl. now rewrite append_empty_r.
  - cbn [fold_left map]. now rewrite IH, concat_empty_cons, append_assoc.
Qed.

(* ------------------------------------------------------------------ *)
(** ** The steps of a plan                                             *)
(* ------------------------------------------------------------------ *)

Lemma dict_set_fresh {V : Type} (k : string) (v : V) (d : list (string * V)) :
  k ∉ map fst d -> dict_set k v d = d ++ [(k, v)].
Proof.
  induction d as [|[k' v'] d IH]; intros Hk; [reflexivity|].
  simpl in *. apply not_elem_of_cons in Hk as [Hne Hk].
  destruct (String.eqb_spec k' k) as [->|_]; [congruence|].
  now rewrite IH.
Qed.

(** With pairwise distinct keys the mapping is the list of the entries in
    the order they were stored. *)
Lemma fold_dict_set_nodup (entries results : Results) :
  NoDup (map fst (results ++ entries)) ->
  fold_left (fun results entry => dict_set (fst entry) (snd entry) results)
    entries results
  = results ++ entries.
Proof.
  revert results. induction entries as [|[k v] entries IH]; intros results Hnd.
  - now rewrite app_nil_r.
  - simpl. assert (Hfresh : k ∉ map fst results).
    { rewrite map_app in Hnd. apply NoDup_app in Hnd as (_ & Hdisj & _).
      intros Hin. apply (Hdisj k Hin). simpl. left. }
    rewrite (dict_set_fresh k v results Hfresh).
    rewrite IH; [now rewrite <- app_assoc|].
    now rewrite <- app_assoc.
Qed.

Lemma collected_nodup (ds : list Delegation) :
  NoDup (map fst (outputs ds)) -> collected [] ds = outputs ds.
Proof. intros Hnd. unfold collected. now rewrite fold_dict_set_nodup. Qed.

Lemma collected_cons_ok results d ds text :
  d_outcome d = Ok text ->
  collected results (d :: ds) = collected (dict_set (d_agent d) text results) ds.
Proof.
  intros Hd. unfold collected, outputs.
  change (omap d_result (d :: ds))
    with (match d_result d with
          | Some entry => entry :: omap d_result ds
          | None => omap d_result ds
          end).
  unfold d_result at 1. now rewrite Hd.
Qed.

Section Steps.
Variable env : Env.
Variable self : Orchestrator.
Variable user_input : string.

(** The task string, in one piece. *)
Lemma build_full_task_eq task results :
  build_full_task env user_input task results
  = "원래 사용자 요청: " +:+ user_input +:+ nl +:+ nl
    +:+ "현재 작업: " +:+ format_value env task +:+ earlier_results results.
Proof.
  unfold build_full_task, earlier_results, context.
  destruct results as [|entry results].
  - now rewrite !append_assoc, append_empty_r.
  - rewrite fold_labelled. now rewrite !append_assoc.
Qed.

(** The synthesis prompt, in one piece. *)
Lemma synthesis_prompt_eq results :
  synthesis_prompt user_input results
  = "원래 사용자 요청: " +:+ user_input +:+ nl +:+ nl
    +:+ "각 전문가의 결과를 통합하여 최종 응답을 만들어주세요:" +:+ nl +:+ nl
    +:+ String.concat EmptyString (map labelled results).
Proof. unfold synthesis_prompt. rewrite fold_labelled. now rewrite !append_assoc. Qed.

Lemma run_frame sp task st :
  delegations (fst (multi_agent.run env sp task st)) = delegations st.
Proof. rewrite run_tool_loop. apply tool_loop_frame. Qed.

Lemma executable_known step agent_name task :
  executable self step = Some (agent_name, task) ->
  getitem step "agent" = Ok (JStr agent_name)
  /\ getitem step "task" = Ok task
  /\ is_Some (specialists self !! agent_name).
Proof.
  unfold executable.
  destruct (getitem step "agent") as [[| | | |a| |]|]; try discriminate.
  destruct (getitem step "task") as [t|]; try discriminate.
  destruct (specialists self !! a) as [sp|] eqn:Hsp; [|discriminate].
  intros [= <- <-]. eauto.
Qed.

(** A step that is handed to its specialist. *)
Lemma run_step_known step agent_name task specialist results st :
  getitem step "agent" = Ok (JStr agent_name) ->
  getitem step "task" = Ok task ->
  specialists self !! agent_name = Some specialist ->
  let full_task := build_full_task env user_input task results in
  let ran := multi_agent.run env specialist full_task st in
  run_step env self user_input step results st
  = (log_delegation {| d_agent := agent_name; d_task := full_task;
                       d_outcome := snd ran |} (fst ran),
     match snd ran with
     | Ok text => Ok (dict_set agent_name text results)
     | Raise e => Raise e
     end).
Proof.
  intros Ha Ht Hsp full_task ran. unfold run_step, bind, lift, delegate.
  rewrite Ha, Ht, Hsp. fold full_task. fold ran.
  destruct ran as [st' [text|e]]; reflexivity.
Qed.

(** A step of an unregistered agent: nothing happens. *)
Lemma run_step_unknown step results st :
  names_unknown_agent self step ->
  run_step env self user_input step results st = (st, Ok results).
Proof.
  intros (a & task & Ha & Ht & Hsp). unfold run_step, bind, lift.
  now rewrite Ha, Ht, Hsp.
Qed.

(** A step that is not handed over leaves no trace: it is skipped, or
    it raises. *)
Lemma run_step_not_executable step results st :
  executable self step = None ->
  exists r,
    run_step env self user_input step results st = (st, r)
    /\ forall results', r = Ok results' -> results' = results.
Proof.
  unfold executable, run_step, bind, lift. intros Hex.
  destruct (getitem step "agent") as [agent_name|e];
    [|eexists; split; [reflexivity|discriminate]].
  destruct (getitem step "task") as [task|e].
  2:{ destruct agent_name; eexists; (split; [reflexivity|discriminate]). }
  destruct agent_name as [| | | |a| |];
    try (eexists; split; [reflexivity|]; first [discriminate|now intros ? [= <-]]).
  destruct (specialists self !! a); [discriminate|].
  eexists; split; [reflexivity|]. now intros ? [= <-].
Qed.

(** What the loop over the steps hands to the specialists. *)
Lemma run_steps_delegations steps results st :
  exists ds,
    delegations (fst (run_steps env self user_input steps results st))
    = delegations st ++ ds
    /\ (forall k d,
           ds !! k = Some d ->
           Forall (fun d' => is_Some (d_result d')) (take k ds)
           /\ exists task,
               omap (executable self) steps !! k = Some (d_agent d, task)
               /\ d_task d
                  = build_full_task env user_input task (collected results (take k ds)))
    /\ (forall results',
           snd (run_steps env self user_input steps results st) = Ok results' ->
           results' = collected results ds
           /\ Forall (fun d' => is_Some (d_result d')) ds
           /\ map d_agent ds = map fst (omap (executable self) steps)).
Proof.
  revert results st. induction steps as [|step rest IH]; intros results st.
  { exists []. simpl. rewrite app_nil_r. repeat split; try constructor.
    - discriminate.
    - discriminate.
    - now injection H as <-. }
  change (omap (executable self) (step :: rest))
    with (match executable self step with
          | Some x => x :: omap (executable self) rest
          | None => omap (executable self) rest
          end).
  change (run_steps env self user_input (step :: rest) results st)
    with (bind (run_step env self user_input step results)
               (fun results => run_steps env self user_input rest results) st).
  unfold bind.
  destruct (executable self step) as [[a task]|] eqn:Hex.
  - destruct (executable_known _ _ _ Hex) as (Ha & Ht & [sp Hsp]).
    rewrite (run_step_known step a task sp results st Ha Ht Hsp).
    set (full_task := build_full_task env user_input task results).
    pose proof (run_frame sp full_task st) as Hframe.
    destruct (multi_agent.run env sp full_task st) as [st1 [text|e]]; simpl in Hframe |- *.
    + set (d0 := {| d_agent := a; d_task := full_task; d_outcome := Ok text |}).
      destruct (IH (dict_set a text results) (log_delegation d0 st1))
        as (ds & Hds & Htasks & Hres).
      exists (d0 :: ds). split; [|split].
      * rewrite Hds. simpl. rewrite Hframe. now rewrite <- app_assoc.
      * intros k d Hk. destruct k as [|k].
        -- injection Hk as <-. split; [constructor|].
           exists task. now split.
        -- simpl in Hk. destruct (Htasks k d Hk) as (Hall & task' & Hstep & Htask).
           split; [constructor; [now eexists|exact Hall]|].
           exists task'. split; [exact Hstep|].
           rewrite Htask. reflexivity.
      * intros results' Hout. destruct (Hres results' Hout) as (-> & Hall & Hagents).
        split; [|split].
        -- now rewrite (collected_cons_ok results d0 ds text).
        -- constructor; [now eexists|exact Hall].
        -- simpl. now rewrite Hagents.
    + exists [{| d_agent := a; d_task := full_task; d_outcome := Raise e |}].
      split; [|split].
      * simpl. now rewrite Hframe.
      * intros k d Hk. destruct k as [|k]; [|discriminate].
        injection Hk as <-. split; [constructor|]. exists task. now split.
      * discriminate.
  - destruct (run_step_not_executable step results st Hex) as (r & -> & Hr).
    destruct r as [results1|e].
    + rewrite (Hr results1 eq_refl). apply IH.
    + exists []. simpl. rewrite app_nil_r. repeat split; discriminate.
Qed.

End Steps.

(* ------------------------------------------------------------------ *)
(** ** The plan, the steps and the synthesis together                  *)
(* ------------------------------------------------------------------ *)

Section ProcessFacts.
Variable env : Env.
Variable self : Orchestrator.
Variable user_input : string.

(** The planning call is one request, whatever comes back. *)
Lemma create_plan_state st :
  fst (_create_plan env user_input st) = log_llm (plan_request user_input) st.
Proof.
  unfold _create_plan, bind, generate, lift.
  destruct (generate_content env _ _) as [response|e]; [|reflexivity].
  destruct (first_part response) as [part|e]; [|reflexivity].
  destruct (text part) as [t|]; [|reflexivity].
  destruct (json_loads env t); reflexivity.
Qed.

(** A plan of the second shape: the steps, then the synthesis. *)
Lemma process_plan_steps plan steps st :
  plan_steps plan steps ->
  process_plan env self user_input plan st
  = bind (run_steps env self user_input steps [])
         (fun results => synthesis env user_input results) st.
Proof.
  intros (needs & items & Hneeds & Htruthy & Hitems & Hiter & Hsummary).
  unfold process_plan, bind at 1, lift. rewrite Hneeds, Htruthy. simpl negb. cbv iota.
  unfold bind at 1. rewrite Hitems. unfold bind at 1. rewrite Hiter.
  unfold bind at 1. rewrite Hsummary. reflexivity.
Qed.

Lemma process_after_plan st st1 plan :
  _create_plan env user_input st = (st1, Ok plan) ->
  process env self user_input st = process_plan env self user_input plan st1.
Proof. intros H. unfold process. now apply bind_ok. Qed.

(** One result: no call.  Otherwise: one call of the editor. *)
Lemma synthesis_single agent_name text st :
  synthesis env user_input [(agent_name, text)] st = (st, Ok (JStr text)).
Proof. reflexivity. Qed.

Lemma synthesis_call results st :
  length results <> 1 ->
  synthesis env user_input results st
  = (log_llm (synthesis_request user_input results) st,
     match generate_content env (length (llm_requests st))
             (synthesis_request user_input results) with
     | Ok answer => first_part_text answer
     | Raise e => Raise e
     end).
Proof.
  intros Hlen. unfold synthesis.
  destruct results as [|[a r] [|entry results]]; simpl in Hlen; try lia;
    unfold bind, generate, lift;
    destruct (generate_content env _ _); reflexivity.
Qed.

Lemma synthesis_frame results st :
  delegations (fst (synthesis env user_input results st)) = delegations st.
Proof.
  destruct (decide (length results = 1)) as [H1|Hne].
  - destruct results as [|[a r] [|entry results]]; try discriminate. reflexivity.
  - now rewrite synthesis_call.
Qed.

Lemma step_summary_app xs ys :
  step_summary (xs ++ ys)
  = match step_summary xs with
    | Ok _ => step_summary ys
    | Raise e => Raise e
    end.
Proof.
  induction xs as [|x xs IH]; [reflexivity|]. simpl.
  destruct (getitem x "agent") as [[| | | |a| |]|]; try reflexivity. exact IH.
Qed.

Lemma run_steps_app xs ys results st :
  run_steps env self user_input (xs ++ ys) results st
  = bind (run_steps env self user_input xs results)
         (fun results => run_steps env self user_input ys results) st.
Proof.
  revert results st. induction xs as [|x xs IH]; intros results st; [reflexivity|].
  simpl. unfold bind.
  destruct (run_step env self user_input x results st) as [st1 [results1|e]];
    [|reflexivity].
  rewrite IH. reflexivity.
Qed.

End ProcessFacts.

(** A direct answer: one LLM call, no specialist. *)
Example process_direct_response :
  process plans.direct_hi plans.team "hello" initial_state
  = (log_llm (plan_request "hello") initial_state, Ok (JStr "hi")).
Proof. by_running. Qed.

(** The plan of two steps: the writer is told DATA, and the synthesis
    call is given DATA and DOC under the names of their agents. *)
Example process_two_steps :
  let ran := process plans.analyst_writer plans.team "request" initial_state in
  snd ran = Ok (JStr "FINAL")
  /\ map d_agent (delegations (fst ran)) = ["analyst"; "writer"]
  /\ map d_outcome (delegations (fst ran)) = [Ok "DATA"; Ok "DOC"]
  /\ last (llm_requests (fst ran))
     = Some (synthesis_request "request" [("analyst", "DATA"); ("writer", "DOC")]).
Proof. by_running. Qed.

Lemma outputs_agents ds :
  Forall (fun d => is_Some (d_result d)) ds -> map fst (outputs ds) = map d_agent ds.
Proof.
  induction 1 as [|d ds [entry Hd] _ IH]; [reflexivity|].
  unfold outputs in *.
  change (omap d_result (d :: ds))
    with (match d_result d with
          | Some entry => entry :: omap d_result ds
          | None => omap d_result ds
          end).
  rewrite Hd. simpl. rewrite IH. f_equal.
  unfold d_result in Hd. destruct (d_outcome d); [|discriminate].
  now injection Hd as <-.
Qed.

(* ------------------------------------------------------------------ *)
(** ** C4: what a specialist is told                                   *)
(* ------------------------------------------------------------------ *)

(** C4, as stated, fails: with the plan analyst, analyst, writer the
    writer's task string carries the second result of the analyst, BETA,
    and not the first one, ALPHA, which the mapping no longer holds. *)
Lemma task_context_counterexample :
  let st' := fst (process plans.analyst_twice plans.team "request" initial_state) in
  map d_agent (delegations st') = ["analyst"; "analyst"; "writer"]
  /\ map d_outcome (delegations st') = [Ok "ALPHA"; Ok "BETA"; Ok "GAMMA"]
  /\ exists d,
      delegations st' !! 2 = Some d
      /\ contains "BETA" (d_task d)
      /\ ~ contains "ALPHA" (d_task d).
Proof.
  split; [vm_compute; reflexivity|]. split; [vm_compute; reflexivity|].
  eexists. split; [vm_compute; reflexivity|]. split.
  - apply containsb_sound. vm_compute. reflexivity.
  - intros H. apply containsb_complete in H. vm_compute in H. discriminate.
Qed.

(** C4 (amended): in a run of [process] on a plan of the second shape,
    the task string of the [k]-th call of a specialist is made of the
    user's request, the task of the [k]-th step with a registered agent,
    and the results mapping as the [k] earlier calls left it, which all
    returned: for each agent name the latest result it produced, names in
    the order of their first call.  When the agent names of the earlier
    calls are pairwise distinct, these are the results of exactly those
    calls, in the order they were produced.  No later result enters. *)
Theorem delegated_task_context
  (env : Env) (self : Orchestrator) (user_input : string)
  (st st1 : State) (plan : json) (steps : list json) :
  _create_plan env user_input st = (st1, Ok plan) ->
  plan_steps plan steps ->
  exists ds,
    delegations (fst (process env self user_input st)) = delegations st ++ ds
    /\ forall k d,
        ds !! k = Some d ->
        let earlier := take k ds in
        Forall (fun d' => is_Some (d_result d')) earlier
        /\ (exists task,
               omap (executable self) steps !! k = Some (d_agent d, task)
               /\ d_task d
                  = "원래 사용자 요청: " +:+ user_input +:+ nl +:+ nl
                    +:+ "현재 작업: " +:+ format_value env task
                    +:+ earlier_results (collected [] earlier))
        /\ (NoDup (map d_agent earlier) -> collected [] earlier = outputs earlier).
Proof.
  intros Hplan Hsteps.
  rewrite (process_after_plan env self user_input st st1 plan Hplan).
  rewrite (process_plan_steps env self user_input plan steps st1 Hsteps).
  assert (Hd1 : delegations st1 = delegations st).
  { pose proof (create_plan_state env user_input st) as H. rewrite Hplan in H.
    simpl in H. now subst st1. }
  destruct (run_steps_delegations env self user_input steps [] st1)
    as (ds & Hds & Htasks & _).
  exists ds. split.
  - unfold bind.
    destruct (run_steps env self user_input steps [] st1) as [st2 [results|e]];
      simpl in Hds |- *.
    + now rewrite synthesis_frame, Hds, Hd1.
    + now rewrite Hds, Hd1.
  - intros k d Hk earlier.
    destruct (Htasks k d Hk) as (Hall & task & Hstep & Htask).
    split; [exact Hall|]. split.
    + exists task. split; [exact Hstep|]. now rewrite Htask, build_full_task_eq.
    + intros Hnd. apply collected_nodup. now rewrite outputs_agents.
Qed.

Lemma delegated_task_context_witness :
  exists ds,
    delegations (fst (process plans.analyst_writer plans.team "request" initial_state))
    = ds
    /\ exists d, ds !! 1 = Some d
         /\ d_agent d = "writer"
         /\ d_task d
            = "원래 사용자 요청: request" +:+ nl +:+ nl +:+ "현재 작업: draft Y"
              +:+ nl +:+ nl +:+ "이전 단계 결과:" +:+ nl
              +:+ "--- analyst 결과 ---" +:+ nl +:+ "DATA" +:+ nl +:+ nl.
Proof.
  destruct (delegated_task_context plans.analyst_writer plans.team "request"
              initial_state
              (log_llm (plan_request "request") initial_state)
              (plans.plan_value [plans.step_value "analyst" "collect X";
                                 plans.step_value "writer" "draft Y"])
              [plans.step_value "analyst" "collect X";
               plans.step_value "writer" "draft Y"])
    as (ds & Hds & _).
  - vm_compute. reflexivity.
  - exists (JBool true),
      (JArr [plans.step_value "analyst" "collect X"; plans.step_value "writer" "draft Y"]).
    repeat split; reflexivity.
  - exists ds. split; [exact Hds|].
    vm_compute in Hds. subst ds. eexists. split; [reflexivity|].
    split; vm_compute; reflexivity.
Defined.

(* ------------------------------------------------------------------ *)
(** ** C5: one result, or a synthesis                                  *)
(* ------------------------------------------------------------------ *)

(** C5, as stated, fails: with the plan analyst, analyst two results are
    collected, ALPHA and BETA, yet no synthesis call is made (the three
    requests are the planning call and the two runs) and BETA is
    returned as it is. *)
Lemma synthesis_counterexample :
  let ran := process plans.analyst_only plans.team "request" initial_state in
  map d_outcome (delegations (fst ran)) = [Ok "ALPHA"; Ok "BETA"]
  /\ snd ran = Ok (JStr "BETA")
  /\ map (fun req => system_instruction (config req)) (llm_requests (fst ran))
     = [Some ORCHESTRATOR_SYSTEM_PROMPT; Some ANALYST_SYSTEM_PROMPT;
        Some ANALYST_SYSTEM_PROMPT].
Proof. by_running. Qed.

(** C5 (amended): once the steps of a plan have run, the results mapping
    holds for each agent name the latest result it produced, names in
    the order of their first call; with pairwise distinct agent names
    these are all the results in step order.  When the mapping has
    exactly one entry, its result is returned as it is, without any
    further LLM call.  Otherwise (several entries, or none) one synthesis
    call is made, whose prompt is the user's request followed by every
    entry of the mapping labelled by its agent name, and the text of the
    first part of its answer is returned. *)
Theorem synthesis_of_results
  (env : Env) (self : Orchestrator) (user_input : string)
  (st st1 st2 : State) (plan : json) (steps : list json) (results : Results) :
  _create_plan env user_input st = (st1, Ok plan) ->
  plan_steps plan steps ->
  run_steps env self user_input steps [] st1 = (st2, Ok results) ->
  (exists ds,
      delegations st2 = delegations st1 ++ ds
      /\ results = collected [] ds
      /\ (NoDup (map d_agent ds) -> results = outputs ds))
  /\ (forall agent_name text,
         results = [(agent_name, text)] ->
         process env self user_input st = (st2, Ok (JStr text)))
  /\ (length results <> 1 ->
      process env self user_input st
      = (log_llm (synthesis_request user_input results) st2,
         match generate_content env (length (llm_requests st2))
                 (synthesis_request user_input results) with
         | Ok answer => first_part_text answer
         | Raise e => Raise e
         end)
      /\ contents (synthesis_request user_input results)
         = [{| role := Some "user";
               parts :=
                 Some [Part_from_text
                         ("원래 사용자 요청: " +:+ user_input +:+ nl +:+ nl
                          +:+ "각 전문가의 결과를 통합하여 최종 응답을 만들어주세요:"
                          +:+ nl +:+ nl
                          +:+ String.concat EmptyString (map labelled results))] |}]).
Proof.
  intros Hplan Hsteps Hrun.
  assert (Hprocess : process env self user_input st
                     = synthesis env user_input results st2).
  { rewrite (process_after_plan env self user_input st st1 plan Hplan).
    rewrite (process_plan_steps env self user_input plan steps st1 Hsteps).
    now apply bind_ok. }
  split; [|split].
  - destruct (run_steps_delegations env self user_input steps [] st1)
      as (ds & Hds & _ & Hres).
    rewrite Hrun in Hds, Hres. simpl in Hds, Hres.
    destruct (Hres results eq_refl) as (Hcollected & Hall & _).
    exists ds. split; [exact Hds|]. split; [exact Hcollected|].
    intros Hnd. rewrite Hcollected. apply collected_nodup. now rewrite outputs_agents.
  - intros agent_name text ->. now rewrite Hprocess.
  - intros Hlen. split.
    + rewrite Hprocess. now apply synthesis_call.
    + unfold synthesis_request. simpl. now rewrite synthesis_prompt_eq.
Qed.

Lemma synthesis_of_results_witness :
  process plans.analyst_writer plans.team "request" initial_state
  = (fst (process plans.analyst_writer plans.team "request" initial_state),
     Ok (JStr "FINAL"))
  /\ contents (synthesis_request "request" [("analyst", "DATA"); ("writer", "DOC")])
     = [{| role := Some "user";
           parts :=
             Some [Part_from_text
                     ("원래 사용자 요청: request" +:+ nl +:+ nl
                      +:+ "각 전문가의 결과를 통합하여 최종 응답을 만들어주세요:"
                      +:+ nl +:+ nl
                      +:+ "--- analyst 결과 ---" +:+ nl +:+ "DATA" +:+ nl +:+ nl
                      +:+ "--- writer 결과 ---" +:+ nl +:+ "DOC" +:+ nl +:+ nl)] |}].
Proof.
  destruct (synthesis_of_results plans.analyst_writer plans.team "request"
              initial_state
              (log_llm (plan_request "request") initial_state)
              (fst (run_steps plans.analyst_writer plans.team "request"
                      [plans.step_value "analyst" "collect X";
                       plans.step_value "writer" "draft Y"] []
                      (log_llm (plan_request "request") initial_state)))
              (plans.plan_value [plans.step_value "analyst" "collect X";
                                 plans.step_value "writer" "draft Y"])
              [plans.step_value "analyst" "collect X";
               plans.step_value "writer" "draft Y"]
              [("analyst", "DATA"); ("writer", "DOC")])
    as (_ & _ & H).
  - vm_compute. reflexivity.
  - exists (JBool true),
      (JArr [plans.step_value "analyst" "collect X"; plans.step_value "writer" "draft Y"]).
    repeat split; reflexivity.
  - vm_compute. reflexivity.
  - destruct H as [Hrun Hprompt]; [simpl; lia|].
    split; [|vm_compute; reflexivity].
    rewrite Hrun. vm_compute. reflexivity.
Defined.

(* ------------------------------------------------------------------ *)
(** ** C6: a planning answer that is not a plan                        *)
(* ------------------------------------------------------------------ *)

(** C6, as stated, fails: the empty JSON object is valid JSON of neither
    shape, and [process] answers it with the placeholder instead of
    failing. *)
Lemma malformed_plan_counterexample :
  json_loads plans.empty_object "{}" = Some (JObj [])
  /\ process plans.empty_object plans.team "hello" initial_state
     = (log_llm (plan_request "hello") initial_state, Ok (JStr "(빈 응답)"))
  /\ snd (chat_loop_turn plans.empty_object plans.team "hello" initial_state)
     = PrintedResponse (JStr "(빈 응답)").
Proof. by_running. Qed.

(** C6 (amended): let [t] be the text of the planning answer.  If [t] is
    not valid JSON, [process] raises the decoding error, the console
    prints it as an error, and the planning call was the only LLM call:
    nothing is retried or replaced.  If [t] decodes to a JSON value that
    is not an object, [process] fails likewise.  A JSON object is not
    checked against the two shapes: one without [needs_specialists] is
    answered with its [direct_response], or with the placeholder
    [(빈 응답)]. *)
Theorem malformed_plan
  (env : Env) (self : Orchestrator) (user_input : string) (st : State)
  (answer : GenerateContentResponse) (content : Content)
  (part : Part) (others : list Part) (t : string) :
  generate_content env (length (llm_requests st)) (plan_request user_input) = Ok answer ->
  candidate_content answer = Ok content ->
  parts content = Some (part :: others) ->
  text part = Some t ->
  let st1 := log_llm (plan_request user_input) st in
  (json_loads env t = None ->
   process env self user_input st = (st1, Raise JSONDecodeError)
   /\ chat_loop_turn env self user_input st = (st1, PrintedError JSONDecodeError))
  /\ (forall plan,
         json_loads env t = Some plan ->
         (forall members, plan <> JObj members) ->
         process env self user_input st = (st1, Raise AttributeError)
         /\ chat_loop_turn env self user_input st = (st1, PrintedError AttributeError))
  /\ (forall members,
         json_loads env t = Some (JObj members) ->
         dict_lookup "needs_specialists" members = None ->
         process env self user_input st
         = (st1, Ok (match dict_lookup "direct_response" members with
                     | Some direct => direct
                     | None => JStr "(빈 응답)"
                     end))).
Proof.
  intros Hgen Hcontent Hparts Htext st1.
  assert (Hcreate : _create_plan env user_input st
                    = (st1, match json_loads env t with
                            | Some plan => Ok plan
                            | None => Raise JSONDecodeError
                            end)).
  { unfold _create_plan, bind, generate, lift, first_part.
    rewrite Hgen, Hcontent, Hparts, Htext.
    destruct (json_loads env t); reflexivity. }
  split; [|split].
  - intros Hloads. rewrite Hloads in Hcreate.
    assert (Hp : process env self user_input st = (st1, Raise JSONDecodeError))
      by (unfold process; now apply bind_raise).
    split; [exact Hp|]. unfold chat_loop_turn. now rewrite Hp.
  - intros plan Hloads Hshape. rewrite Hloads in Hcreate.
    assert (Hp : process env self user_input st = (st1, Raise AttributeError)).
    { rewrite (process_after_plan env self user_input st st1 plan Hcreate).
      destruct plan; try reflexivity. now destruct (Hshape members). }
    split; [exact Hp|]. unfold chat_loop_turn. now rewrite Hp.
  - intros members Hloads Hneeds. rewrite Hloads in Hcreate.
    rewrite (process_after_plan env self user_input st st1 _ Hcreate).
    unfold process_plan, bind, lift, get. rewrite Hneeds. reflexivity.
Qed.

Lemma malformed_plan_witness :
  process plans.not_json plans.team "hello" initial_state
  = (log_llm (plan_request "hello") initial_state, Raise JSONDecodeError)
  /\ chat_loop_turn plans.not_json plans.team "hello" initial_state
     = (log_llm (plan_request "hello") initial_state, PrintedError JSONDecodeError).
Proof.
  destruct (malformed_plan plans.not_json plans.team "hello" initial_state
              (stub.respond (stub.turn [Part_from_text "Sure, here is the plan"]))
              (stub.turn [Part_from_text "Sure, here is the plan"])
              (Part_from_text "Sure, here is the plan") []
              "Sure, here is the plan" eq_refl eq_refl eq_refl eq_refl) as (H & _ & _).
  exact (H eq_refl).
Defined.

(* ------------------------------------------------------------------ *)
(** ** C8: a step for an agent that is not registered                  *)
(* ------------------------------------------------------------------ *)





(* ------------------------------------------------------------------ *)
(** ** C10: a plan that produces no result                             *)
(* ------------------------------------------------------------------ *)

Lemma run_steps_unknown env self user_input steps results st :
  Forall (names_unknown_agent self) steps ->
  run_steps env self user_input steps results st = (st, Ok results).
Proof.
  induction 1 as [|step rest Hstep _ IH]; [reflexivity|].
  simpl. unfold bind. now rewrite run_step_unknown.
Qed.

(** C10: when the plan asks for specialists and no step produces a
    result (there is no step, or every step names an agent that is not
    registered), [process] makes the synthesis call all the same, with a
    prompt that holds the user's request and no labelled result, and
    returns the text of its answer: two LLM calls in all, the planning
    call and the synthesis call. *)
Theorem synthesis_without_results
  (env : Env) (self : Orchestrator) (user_input : string) (st st1 : State)
  (plan : json) (steps : list json)
  (answer : GenerateContentResponse) (content : Content)
  (part : Part) (others : list Part) (t : string) :
  _create_plan env user_input st = (st1, Ok plan) ->
  plan_steps plan steps ->
  Forall (names_unknown_agent self) steps ->
  generate_content env (length (llm_requests st1)) (synthesis_request user_input [])
  = Ok answer ->
  candidate_content answer = Ok content ->
  parts content = Some (part :: others) ->
  text part = Some t ->
  process env self user_input st
  = (log_llm (synthesis_request user_input []) st1, Ok (JStr t))
  /\ llm_requests (log_llm (synthesis_request user_input []) st1)
     = llm_requests st ++ [plan_request user_input; synthesis_request user_input []]
  /\ contents (synthesis_request user_input [])
     = [{| role := Some "user";
           parts :=
             Some [Part_from_text
                     ("원래 사용자 요청: " +:+ user_input +:+ nl +:+ nl
                      +:+ "각 전문가의 결과를 통합하여 최종 응답을 만들어주세요:"
                      +:+ nl +:+ nl)] |}].
Proof.
  intros Hplan Hsteps Hunknown Hgen Hcontent Hparts Htext. split; [|split].
  - rewrite (process_after_plan env self user_input st st1 plan Hplan).
    rewrite (process_plan_steps env self user_input plan steps st1 Hsteps).
    erewrite bind_ok by (now apply run_steps_unknown).
    rewrite synthesis_call by (simpl; lia).
    rewrite Hgen. unfold first_part_text, first_part.
    now rewrite Hcontent, Hparts, Htext.
  - pose proof (create_plan_state env user_input st) as H. rewrite Hplan in H.
    simpl in H. subst st1. simpl. now rewrite <- app_assoc.
  - reflexivity.
Qed.

Lemma synthesis_without_results_witness :
  process plans.ghost_only plans.team "request" initial_state
  = (log_llm (synthesis_request "request" [])
       (log_llm (plan_request "request") initial_state),
     Ok (JStr "FINAL")).
Proof.
  apply (synthesis_without_results plans.ghost_only plans.team "request"
           initial_state (log_llm (plan_request "request") initial_state)
           (plans.plan_value [plans.step_value "ghost" "haunt"])
           [plans.step_value "ghost" "haunt"]
           (stub.respond (stub.turn [Part_from_text "FINAL"]))
           (stub.turn [Part_from_text "FINAL"])
           (Part_from_text "FINAL") [] "FINAL").
  - vm_compute. reflexivity.
  - exists (JBool true), (JArr [plans.step_value "ghost" "haunt"]).
    repeat split; reflexivity.
  - constructor; [|constructor].
    exists "ghost", (JStr "haunt"). repeat split; reflexivity.
  - reflexivity.
  - reflexivity.
  - reflexivity.
  - reflexivity.
Defined.

(* ================================================================== *)
(** * Further properties of the code                                   *)
(* ================================================================== *)

(* ------------------------------------------------------------------ *)
(** ** Errors of the collaborators are never caught                    *)
(* ------------------------------------------------------------------ *)

Section Faithful.
Context {Req Ans : Type}.
Variable log : State -> list Req.
Variable oracle : nat -> Req -> result Ans.

Lemma faithful_silent {A : Type} (m : M A) :
  (forall st, log (fst (m st)) = log st) -> error_faithful log oracle m.
Proof.
  intros Hsilent st. exists []. split; [now rewrite Hsilent, app_nil_r|].
  intros j req e Hj. discriminate.
Qed.

Lemma faithful_lift {A : Type} (r : result A) : error_faithful log oracle (lift r).
Proof. now apply faithful_silent. Qed.

Lemma faithful_bind {A B : Type} (m : M A) (k : A -> M B) :
  error_faithful log oracle m ->
  (forall a, error_faithful log oracle (k a)) ->
  error_faithful log oracle (bind m k).
Proof.
  intros Hm Hk st. specialize (Hm st). unfold bind.
  destruct (m st) as [st1 [a|e]]; simpl in *.
  2:{ destruct Hm as (new1 & Heq1 & Hnew1). exists new1. split; [exact Heq1|].
      intros j req e' Hj Hraise. destruct (Hnew1 j req e' Hj Hraise) as [Hr Hlen].
      split; [congruence|exact Hlen]. }
  destruct Hm as (new1 & Heq1 & Hnew1).
  destruct (Hk a st1) as (new2 & Heq2 & Hnew2).
  exists (new1 ++ new2). split; [now rewrite Heq2, Heq1, app_assoc|].
  intros j req e Hj Hraise.
  destruct (decide (j < length new1)) as [Hlt|Hge].
  - rewrite lookup_app_l in Hj by exact Hlt.
    destruct (Hnew1 j req e Hj Hraise) as [Habs _]. discriminate.
  - rewrite lookup_app_r in Hj by lia.
    destruct (Hnew2 (j - length new1) req e Hj) as [Hr Hlen].
    + rewrite Heq1, length_app.
      replace (length (log st) + length new1 + (j - length new1))
        with (length (log st) + j) by lia.
      exact Hraise.
    + split; [exact Hr|]. rewrite length_app. lia.
Qed.

(** Pointwise equal computations share the property. *)
Lemma faithful_ext {A : Type} (m m' : M A) :
  (forall st, m st = m' st) -> error_faithful log oracle m' -> error_faithful log oracle m.
Proof. intros Heq H st. rewrite Heq. apply H. Qed.

End Faithful.

Section LlmFaithful.
Variable env : Env.

Local Notation "'llm_faithful'" := (error_faithful llm_requests (generate_content env)).

Lemma llm_faithful_generate req : llm_faithful (generate env req).
Proof.
  intros st. unfold generate. simpl. exists [req]. split; [reflexivity|].
  intros j r e Hj Hraise. destruct j as [|j]; [|discriminate].
  injection Hj as <-. rewrite Nat.add_0_r in Hraise. now split.
Qed.

Lemma llm_faithful_execute_calls self calls acc :
  llm_faithful (agent.execute_calls env self calls acc).
Proof. apply faithful_silent. intros st. apply execute_calls_frame. Qed.

Lemma llm_faithful_tool_loop self instruction n messages :
  llm_faithful (tool_loop env instruction self n messages).
Proof.
  revert messages. induction n as [|n IH]; intros messages; simpl.
  - apply (faithful_lift _ _ (Ok _)).
  - apply faithful_bind; [apply llm_faithful_generate|].
    intros response.
    apply faithful_bind; [apply faithful_lift|]. intros content.
    apply faithful_bind; [apply faithful_lift|]. intros ps.
    destruct (List.filter has_function_call ps) as [|p calls];
      [apply (faithful_lift _ _ (Ok _))|].
    apply faithful_bind; [apply llm_faithful_execute_calls|].
    intros rs. apply IH.
Qed.

Lemma llm_faithful_run sp task : llm_faithful (multi_agent.run env sp task).
Proof.
  eapply faithful_ext; [intros st; apply run_tool_loop|].
  apply llm_faithful_tool_loop.
Qed.

End LlmFaithful.

(** X1: the loop does not catch an error of the LLM call.  Whichever
    model call of a run of [query] or [run] raises, it is the last one of
    the run and its exception is the outcome of the run. *)
Theorem llm_error_propagates
  (env : Env) (a : agent.GeminiMCPAgent) (sp : SpecialistAgent)
  (prompt : string) (st : State) :
  (forall st' r,
      agent.query env a prompt st = (st', r) ->
      exists new,
        llm_requests st' = llm_requests st ++ new
        /\ forall j req e,
            new !! j = Some req ->
            generate_content env (length (llm_requests st) + j) req = Raise e ->
            r = Raise e /\ length new = S j)
  /\ (forall st' r,
      multi_agent.run env sp prompt st = (st', r) ->
      exists new,
        llm_requests st' = llm_requests st ++ new
        /\ forall j req e,
            new !! j = Some req ->
            generate_content env (length (llm_requests st) + j) req = Raise e ->
            r = Raise e /\ length new = S j).
Proof.
  split; intros st' r Hrun.
  - rewrite query_tool_loop in Hrun.
    pose proof (llm_faithful_tool_loop env a None 10 (first_message prompt) st) as H.
    now rewrite Hrun in H.
  - pose proof (llm_faithful_run env sp prompt st) as H.
    now rewrite Hrun in H.
Qed.

Lemma llm_error_propagates_witness :
  snd (agent.query more_stubs.llm_down stub.echo_agent "hi" initial_state)
  = Raise (ExternalError "quota").
Proof.
  destruct (llm_error_propagates more_stubs.llm_down stub.echo_agent
              stub.echo_specialist "hi" initial_state) as [H _].
  destruct (agent.query more_stubs.llm_down stub.echo_agent "hi" initial_state)
    as [st' r] eqn:Hrun.
  destruct (H st' r eq_refl) as (new & Hnew & Hraise).
  assert (Hreq : new = [agent.request stub.echo_agent (first_message "hi")]).
  { apply (f_equal fst) in Hrun. simpl in Hrun. subst st'.
    vm_compute in Hnew. symmetry. exact Hnew. }
  subst new.
  exact (proj1 (Hraise 0 _ (ExternalError "quota") eq_refl eq_refl)).
Defined.

(** A delegation is a run, for a log that the record of the delegation
    does not touch. *)
Lemma faithful_delegate_of_run {Req Ans : Type}
  (log : State -> list Req) (oracle : nat -> Req -> result Ans) env agent_name sp task :
  (forall d st, log (log_delegation d st) = log st) ->
  error_faithful log oracle (multi_agent.run env sp task) ->
  error_faithful log oracle (delegate env agent_name sp task).
Proof.
  intros Hsilent Hrun st. unfold delegate. specialize (Hrun st).
  destruct (multi_agent.run env sp task st) as [st' outcome]. simpl in *.
  destruct Hrun as (new & Hnew & Hraise).
  exists new. split; [now rewrite Hsilent|exact Hraise].
Qed.

Section ProcessFaithful.
Context {Req Ans : Type}.
Variable log : State -> list Req.
Variable oracle : nat -> Req -> result Ans.
Variable env : Env.
Variable self : Orchestrator.
Variable user_input : string.

Hypothesis faithful_generate : forall req, error_faithful log oracle (generate env req).
Hypothesis faithful_delegate :
  forall agent_name sp task,
    error_faithful log oracle (delegate env agent_name sp task).

Lemma faithful_run_step step results :
  error_faithful log oracle (run_step env self user_input step results).
Proof.
  unfold run_step.
  apply faithful_bind; [apply faithful_lift|]. intros agent_name.
  apply faithful_bind; [apply faithful_lift|]. intros task.
  destruct agent_name as [| | | |a| |];
    try apply (faithful_lift _ _ (Ok _)); try apply (faithful_lift _ _ (Raise _)).
  destruct (specialists self !! a) as [sp|]; [|apply (faithful_lift _ _ (Ok _))].
  apply faithful_bind; [apply faithful_delegate|].
  intros text. apply (faithful_lift _ _ (Ok _)).
Qed.

Lemma faithful_run_steps steps results :
  error_faithful log oracle (run_steps env self user_input steps results).
Proof.
  revert results. induction steps as [|step rest IH]; intros results; simpl.
  - apply (faithful_lift _ _ (Ok _)).
  - apply faithful_bind; [apply faithful_run_step|]. intros results'. apply IH.
Qed.

Lemma faithful_synthesis results :
  error_faithful log oracle (synthesis env user_input results).
Proof.
  unfold synthesis.
  destruct results as [|[a r] [|entry results]];
    try apply (faithful_lift _ _ (Ok _));
    (apply faithful_bind; [apply faithful_generate|]; intros content; apply faithful_lift).
Qed.

Lemma faithful_process_plan plan :
  error_faithful log oracle (process_plan env self user_input plan).
Proof.
  unfold process_plan.
  apply faithful_bind; [apply faithful_lift|]. intros needs.
  destruct (negb (truthy needs)); [apply faithful_lift|].
  apply faithful_bind; [apply faithful_lift|]. intros items.
  apply faithful_bind; [apply faithful_lift|]. intros steps.
  apply faithful_bind; [apply faithful_lift|]. intros _.
  apply faithful_bind; [apply faithful_run_steps|]. intros results.
  apply faithful_synthesis.
Qed.

Lemma faithful_process :
  error_faithful log oracle (process env self user_input).
Proof.
  unfold process. apply faithful_bind; [|apply faithful_process_plan].
  unfold _create_plan. apply faithful_bind; [apply faithful_generate|].
  intros response. apply faithful_bind; [apply faithful_lift|]. intros part.
  destruct (text part) as [t|]; [|apply (faithful_lift _ _ (Raise _))].
  destruct (json_loads env t);
    [apply (faithful_lift _ _ (Ok _))|apply (faithful_lift _ _ (Raise _))].
Qed.

End ProcessFaithful.

Lemma tool_silent_generate env req st :
  tool_requests (fst (generate env req st)) = tool_requests st.
Proof. reflexivity. Qed.

(** X2: [Orchestrator.process] catches nothing.  Whichever LLM call made
    for a request raises (the planning call, a call of a specialist or
    the synthesis call), it is the last LLM call of the request and its
    exception is the outcome of [process]; likewise for whichever tool
    call raises. *)
Theorem process_catches_nothing
  (env : Env) (self : Orchestrator) (user_input : string) (st st' : State)
  (r : result json) :
  process env self user_input st = (st', r) ->
  (exists new,
      llm_requests st' = llm_requests st ++ new
      /\ forall j req e,
          new !! j = Some req ->
          generate_content env (length (llm_requests st) + j) req = Raise e ->
          r = Raise e /\ length new = S j)
  /\ (exists new,
         tool_requests st' = tool_requests st ++ new
         /\ forall j req e,
             new !! j = Some req ->
             call_tool env (length (tool_requests st) + j) req = Raise e ->
             r = Raise e /\ length new = S j).
Proof.
  intros Hrun. split.
  - assert (H : error_faithful llm_requests (generate_content env)
                  (process env self user_input)).
    { apply faithful_process; [apply llm_faithful_generate|].
      intros agent_name sp task.
      apply faithful_delegate_of_run; [reflexivity|apply llm_faithful_run]. }
    specialize (H st). now rewrite Hrun in H.
  - assert (H : error_faithful tool_requests (call_tool env)
                  (process env self user_input)).
    { apply faithful_process.
      - intros req. apply faithful_silent. intros st0. reflexivity.
      - intros agent_name sp task. apply faithful_delegate_of_run; [reflexivity|].
        eapply faithful_ext; [intros st0; apply run_tool_loop|].
        exact (tool_faithful_tool_loop env (as_agent sp) (Some (system_prompt sp)) 10
                 (first_message task)). }
    specialize (H st). now rewrite Hrun in H.
Qed.

Lemma process_catches_nothing_witness :
  snd (process more_stubs.analyst_llm_fails plans.team "request" initial_state)
  = Raise (ExternalError "quota").
Proof.
  destruct (process more_stubs.analyst_llm_fails plans.team "request" initial_state)
    as [st' r] eqn:Hrun.
  destruct (process_catches_nothing more_stubs.analyst_llm_fails plans.team "request"
              initial_state st' r Hrun) as [(new & Hnew & Hraise) _].
  assert (Hlast : new !! 1
                  = Some (multi_agent.request stub.echo_specialist
                            (first_message
                               (build_full_task more_stubs.analyst_llm_fails "request"
                                  (JStr "collect") [])))).
  { apply (f_equal fst) in Hrun. simpl in Hrun. subst st'.
    vm_compute in Hnew. rewrite <- Hnew. reflexivity. }
  exact (proj1 (Hraise 1 _ (ExternalError "quota") Hlast eq_refl)).
Defined.

(* ------------------------------------------------------------------ *)
(** ** The conversation of a run                                       *)
(* ------------------------------------------------------------------ *)

Section Conversation.
Variable env : Env.
Variable self : agent.GeminiMCPAgent.

Lemma execute_call_reply part st st' p :
  agent.execute_call env self part st = (st', Ok p) -> replies_to part p.
Proof.
  unfold agent.execute_call, replies_to.
  destruct (function_call part) as [fc|]; [|discriminate].
  unfold bind at 1, lift, dict.
  destruct (fc_args fc) as [arguments|]; [|discriminate].
  unfold bind at 1.
  match goal with
  | |- context [match ?m st with _ => _ end] => destruct (m st) as [st1 [t|e]]
  end; [|discriminate].
  intros [= _ <-]. eauto.
Qed.

(** One reply per call, in the order of the calls. *)
Lemma execute_calls_replies calls acc st st' results :
  agent.execute_calls env self calls acc st = (st', Ok results) ->
  exists new, results = acc ++ new /\ Forall2 replies_to calls new.
Proof.
  revert acc st. induction calls as [|part rest IH]; intros acc st H; simpl in H.
  - injection H as _ <-. exists []. rewrite app_nil_r. split; [reflexivity|constructor].
  - unfold bind in H.
    destruct (agent.execute_call env self part st) as [st1 [p|e]] eqn:Hp; [|discriminate].
    destruct (IH _ _ H) as (new & -> & Hall).
    exists (p :: new). rewrite <- app_assoc. split; [reflexivity|].
    constructor; [now apply (execute_call_reply part st st1)|exact Hall].
Qed.

Variable instruction : option string.

Lemma tool_loop_conversation n messages st :
  exists new,
    llm_requests (fst (tool_loop env instruction self n messages st))
    = llm_requests st ++ new
    /\ (0 < n -> 0 < length new)
    /\ (forall req,
           new !! 0 = Some req ->
           req = set_instruction instruction (agent.request self messages))
    /\ (forall k req req',
           new !! k = Some req -> new !! S k = Some req' ->
           continues env (length (llm_requests st) + k) req req').
Proof.
  revert messages st. induction n as [|n IH]; intros messages st.
  { exists []. simpl. rewrite app_nil_r. repeat split; try lia; discriminate. }
  rewrite tool_loop_step.
  set (req0 := set_instruction instruction (agent.request self messages)).
  assert (Hsingle :
            exists new,
              llm_requests (log_llm req0 st) = llm_requests st ++ new
              /\ (0 < S n -> 0 < length new)
              /\ (forall req, new !! 0 = Some req -> req = req0)
              /\ (forall k req req',
                     new !! k = Some req -> new !! S k = Some req' ->
                     continues env (length (llm_requests st) + k) req req')).
  { exists [req0]. repeat split; [simpl; lia| |].
    - now intros req [= <-].
    - intros k req req' _ Hk. destruct k; discriminate. }
  destruct (generate_content env (length (llm_requests st)) req0) as [response|e] eqn:Hgen;
    [|exact Hsingle].
  unfold read_turn.
  destruct (candidate_content response) as [content|e] eqn:Hcontent; [|exact Hsingle].
  destruct (iter_parts content) as [ps|e] eqn:Hps; [|exact Hsingle].
  destruct (List.filter has_function_call ps) as [|p calls] eqn:Hcalls;
    [exact Hsingle|].
  pose proof (execute_calls_frame env self (p :: calls) [] (log_llm req0 st)) as [Hl _].
  destruct (agent.execute_calls env self (p :: calls) [] (log_llm req0 st))
    as [st1 [rs|e]] eqn:Hex; simpl fst in Hl.
  2:{ simpl fst. rewrite Hl. exact Hsingle. }
  destruct (execute_calls_replies _ _ _ _ _ Hex) as (rs' & Hrs & Hreplies).
  simpl in Hrs. subst rs'.
  destruct (IH ((messages ++ [content])
                  ++ [{| role := Some "user"; parts := Some rs |}]) st1)
    as (new & Hnew & _ & Hfirst & Hnext).
  exists (req0 :: new). split; [|split; [|split]].
  - rewrite Hnew, Hl. simpl. now rewrite <- app_assoc.
  - simpl. lia.
  - now intros req [= <-].
  - intros k req req' Hk Hk'. destruct k as [|k].
    + injection Hk as <-. simpl in Hk'. rewrite (Hfirst req' Hk').
      exists response, content, ps, rs. rewrite Nat.add_0_r, Hgen, Hcalls.
      repeat split; [exact Hcontent|exact Hps| |exact Hreplies].
      simpl. now rewrite <- app_assoc.
    + simpl in Hk, Hk'.
      replace (length (llm_requests st) + S k) with (length (llm_requests st1) + k)
        by (rewrite Hl; simpl; rewrite length_app; simpl; lia).
      now apply Hnext.
Qed.

End Conversation.

(** X3: the conversation of a run of [query] or [run] only grows.  The
    first request carries the prompt alone; each later request carries
    the conversation of the request before it, then the turn the LLM
    answered to that request, as received, then one user turn with one
    function response per tool call of that answer, in the order of the
    calls and under their names.  Model and configuration never change
    within a run, and at least one request is made. *)
Theorem conversation_grows
  (env : Env) (a : agent.GeminiMCPAgent) (sp : SpecialistAgent)
  (prompt : string) (st : State) :
  (exists new,
      llm_requests (fst (agent.query env a prompt st)) = llm_requests st ++ new
      /\ 0 < length new
      /\ (forall req,
             new !! 0 = Some req -> req = agent.request a (first_message prompt))
      /\ (forall k req req',
             new !! k = Some req -> new !! S k = Some req' ->
             continues env (length (llm_requests st) + k) req req'))
  /\ (exists new,
         llm_requests (fst (multi_agent.run env sp prompt st)) = llm_requests st ++ new
         /\ 0 < length new
         /\ (forall req,
                new !! 0 = Some req ->
                req = multi_agent.request sp (first_message prompt))
         /\ (forall k req req',
                new !! k = Some req -> new !! S k = Some req' ->
                continues env (length (llm_requests st) + k) req req')).
Proof.
  split.
  - rewrite query_tool_loop.
    destruct (tool_loop_conversation env a None 10 (first_message prompt) st)
      as (new & Hnew & Hpos & Hfirst & Hnext).
    exists new. repeat split; [exact Hnew|apply Hpos; lia|exact Hfirst|exact Hnext].
  - rewrite run_tool_loop.
    destruct (tool_loop_conversation env (as_agent sp) (Some (system_prompt sp)) 10
                (first_message prompt) st) as (new & Hnew & Hpos & Hfirst & Hnext).
    exists new. repeat split; [exact Hnew|apply Hpos; lia|exact Hfirst|exact Hnext].
Qed.

Lemma conversation_grows_witness :
  exists req req',
    llm_requests (fst (agent.query stub.asks_x stub.bare_agent "hi" initial_state))
    = [req; req']
    /\ continues stub.asks_x 0 req req'.
Proof.
  destruct (conversation_grows stub.asks_x stub.bare_agent stub.bare_specialist
              "hi" initial_state) as [(new & Hnew & _ & _ & Hnext) _].
  vm_compute in Hnew. subst new.
  eexists _, _. split; [vm_compute; reflexivity|].
  apply (Hnext 0); reflexivity.
Defined.

(* ------------------------------------------------------------------ *)
(** ** Where the tool calls go                                         *)
(* ------------------------------------------------------------------ *)

Section Appends.
Context {Req : Type}.
Variable log : State -> list Req.
Variable P : Req -> Prop.

Lemma appends_silent {A : Type} (m : M A) :
  (forall st, log (fst (m st)) = log st) -> appends log P m.
Proof. intros H st. exists []. split; [now rewrite H, app_nil_r|constructor]. Qed.

Lemma appends_lift {A : Type} (r : result A) : appends log P (lift r).
Proof. now apply appends_silent. Qed.

Lemma appends_bind {A B : Type} (m : M A) (k : A -> M B) :
  appends log P m -> (forall a, appends log P (k a)) -> appends log P (bind m k).
Proof.
  intros Hm Hk st. specialize (Hm st). unfold bind.
  destruct (m st) as [st1 [a|e]]; simpl in *; [|exact Hm].
  destruct Hm as (new1 & Heq1 & Hall1). destruct (Hk a st1) as (new2 & Heq2 & Hall2).
  exists (new1 ++ new2). split; [now rewrite Heq2, Heq1, app_assoc|].
  now apply Forall_app.
Qed.

Lemma appends_ext {A : Type} (m m' : M A) :
  (forall st, m st = m' st) -> appends log P m' -> appends log P m.
Proof. intros Heq H st. rewrite Heq. apply H. Qed.

Lemma appends_weaken {A : Type} (Q : Req -> Prop) (m : M A) :
  (forall req, Q req -> P req) -> appends log Q m -> appends log P m.
Proof.
  intros HQ H st. destruct (H st) as (new & Hnew & Hall).
  exists new. split; [exact Hnew|]. eapply Forall_impl; eauto.
Qed.

End Appends.

Section Routing.
Variable env : Env.
Variable self : agent.GeminiMCPAgent.

Local Notation "'routed_calls'" :=
  (appends tool_requests (well_routed (agent.tools_map self) (agent.sessions self))).

Lemma routed_execute_call part : routed_calls (agent.execute_call env self part).
Proof.
  unfold agent.execute_call.
  destruct (function_call part) as [fc|]; [|apply (appends_lift _ _ (Raise _))].
  apply appends_bind; [apply appends_lift|]. intros arguments.
  apply appends_bind; [|intros t; apply (appends_lift _ _ (Ok _))].
  destruct (tools_map_get (agent.tools_map self) (fc_name fc)) as [server|] eqn:Hmap;
    [|apply (appends_lift _ _ (Ok _))].
  destruct (String.eqb_spec server EmptyString) as [->|Hne];
    [apply (appends_lift _ _ (Ok _))|].
  destruct (agent.sessions self !! server) as [session|] eqn:Hs;
    [|apply (appends_lift _ _ (Raise _))].
  apply appends_bind; [|intros content; apply (appends_lift _ _ (Ok _))].
  intros st. unfold session_call_tool. simpl. eexists [_]. split; [reflexivity|].
  constructor; [|constructor]. exists server. now repeat split.
Qed.

Lemma routed_execute_calls calls acc : routed_calls (agent.execute_calls env self calls acc).
Proof.
  revert acc. induction calls as [|part rest IH]; intros acc; simpl.
  - apply (appends_lift _ _ (Ok _)).
  - apply appends_bind; [apply routed_execute_call|]. intros p. apply IH.
Qed.

Lemma routed_tool_loop instruction n messages :
  routed_calls (tool_loop env instruction self n messages).
Proof.
  revert messages. induction n as [|n IH]; intros messages; simpl.
  - apply (appends_lift _ _ (Ok _)).
  - apply appends_bind; [now apply appends_silent|].
    intros response.
    apply appends_bind; [apply appends_lift|]. intros content.
    apply appends_bind; [apply appends_lift|]. intros ps.
    destruct (List.filter has_function_call ps) as [|p calls];
      [apply (appends_lift _ _ (Ok _))|].
    apply appends_bind; [apply routed_execute_calls|].
    intros rs. apply IH.
Qed.

End Routing.

Lemma tools_map_get_empty name : tools_map_get ∅ name = None.
Proof. destruct name; [apply lookup_empty|reflexivity]. Qed.

Lemma run_without_tools env sp task st :
  tools_map sp = ∅ ->
  tool_requests (fst (multi_agent.run env sp task st)) = tool_requests st.
Proof.
  intros Hempty. rewrite run_tool_loop.
  destruct (routed_tool_loop env (as_agent sp) (Some (system_prompt sp)) 10
              (first_message task) st) as (new & Hnew & Hall).
  rewrite Hnew. destruct Hall as [|req new (server & Hmap & _) _];
    [apply app_nil_r|].
  simpl in Hmap. now rewrite Hempty, tools_map_get_empty in Hmap.
Qed.

(** X4: a run of [query] or [run] calls a tool only as the routing table
    says: every [call_tool] it makes is for a tool name the table maps
    to a server with a name that is not empty, and goes to the session
    registered for that server.  An agent with an empty routing table
    therefore never calls a tool server. *)
Theorem tool_calls_follow_routing
  (env : Env) (a : agent.GeminiMCPAgent) (sp : SpecialistAgent)
  (prompt : string) (st : State) :
  (exists new,
      tool_requests (fst (agent.query env a prompt st)) = tool_requests st ++ new
      /\ Forall (well_routed (agent.tools_map a) (agent.sessions a)) new
      /\ (agent.tools_map a = ∅ -> new = []))
  /\ (exists new,
         tool_requests (fst (multi_agent.run env sp prompt st)) = tool_requests st ++ new
         /\ Forall (well_routed (tools_map sp) (sessions sp)) new
         /\ (tools_map sp = ∅ -> new = [])).
Proof.
  assert (Hnone : forall (tm : gmap string string) sessions new,
             Forall (well_routed tm sessions) new -> tm = ∅ -> new = []).
  { intros tm sessions new Hall ->. destruct Hall as [|req new (server & Hmap & _) _];
      [reflexivity|]. now rewrite tools_map_get_empty in Hmap. }
  split.
  - rewrite query_tool_loop.
    destruct (routed_tool_loop env a None 10 (first_message prompt) st)
      as (new & Hnew & Hall).
    exists new. repeat split; [exact Hnew|exact Hall|now apply (Hnone _ _ _ Hall)].
  - rewrite run_tool_loop.
    destruct (routed_tool_loop env (as_agent sp) (Some (system_prompt sp)) 10
                (first_message prompt) st) as (new & Hnew & Hall).
    exists new. repeat split; [exact Hnew|exact Hall|now apply (Hnone _ _ _ Hall)].
Qed.

Lemma tool_calls_follow_routing_witness :
  tool_requests (fst (multi_agent.run stub.echo_for_ever stub.bare_specialist "hi"
                        initial_state)) = [].
Proof.
  destruct (tool_calls_follow_routing stub.echo_for_ever stub.bare_agent
              stub.bare_specialist "hi" initial_state) as [_ (new & Hnew & _ & Hnone)].
  rewrite Hnew, (Hnone eq_refl). reflexivity.
Defined.

Section ProcessAppends.
Context {Req : Type}.
Variable log : State -> list Req.
Variable P : Req -> Prop.
Variable env : Env.
Variable self : Orchestrator.
Variable user_input : string.

Hypothesis appends_generate : forall req, appends log P (generate env req).
Hypothesis appends_run :
  forall agent_name sp task,
    specialists self !! agent_name = Some sp ->
    appends log P (multi_agent.run env sp task).
Hypothesis log_delegation_silent : forall d st, log (log_delegation d st) = log st.

Lemma appends_run_step step results :
  appends log P (run_step env self user_input step results).
Proof.
  unfold run_step.
  apply appends_bind; [apply appends_lift|]. intros agent_name.
  apply appends_bind; [apply appends_lift|]. intros task.
  destruct agent_name as [| | | |a| |];
    try apply (appends_lift _ _ (Ok _)); try apply (appends_lift _ _ (Raise _)).
  destruct (specialists self !! a) as [sp|] eqn:Hsp; [|apply (appends_lift _ _ (Ok _))].
  apply appends_bind; [|intros text; apply (appends_lift _ _ (Ok _))].
  intros st. unfold delegate.
  destruct (appends_run a sp (build_full_task env user_input task results) Hsp st)
    as (new & Hnew & Hall).
  destruct (multi_agent.run env sp _ st) as [st' outcome]. simpl in *.
  exists new. split; [now rewrite log_delegation_silent|exact Hall].
Qed.

Lemma appends_run_steps steps results :
  appends log P (run_steps env self user_input steps results).
Proof.
  revert results. induction steps as [|step rest IH]; intros results; simpl.
  - apply (appends_lift _ _ (Ok _)).
  - apply appends_bind; [apply appends_run_step|]. intros results'. apply IH.
Qed.

Lemma appends_process : appends log P (process env self user_input).
Proof.
  unfold process. apply appends_bind.
  - unfold _create_plan. apply appends_bind; [apply appends_generate|].
    intros response. apply appends_bind; [apply appends_lift|]. intros part.
    destruct (text part) as [t|]; [|apply (appends_lift _ _ (Raise _))].
    destruct (json_loads env t);
      [apply (appends_lift _ _ (Ok _))|apply (appends_lift _ _ (Raise _))].
  - intros plan. unfold process_plan.
    apply appends_bind; [apply appends_lift|]. intros needs.
    destruct (negb (truthy needs)); [apply appends_lift|].
    apply appends_bind; [apply appends_lift|]. intros items.
    apply appends_bind; [apply appends_lift|]. intros steps.
    apply appends_bind; [apply appends_lift|]. intros _.
    apply appends_bind; [apply appends_run_steps|]. intros results.
    unfold synthesis.
    destruct results as [|[a r] [|entry results]];
      try apply (appends_lift _ _ (Ok _));
      (apply appends_bind; [apply appends_generate|]; intros content; apply appends_lift).
Qed.

End ProcessAppends.

(** The three specialists that [connect] registers. *)
Lemma connect_orchestrator_specialists gemini_tools sessions tools_map agent_name sp :
  specialists (connect_orchestrator gemini_tools sessions tools_map) !! agent_name = Some sp ->
  (agent_name = "analyst"
   /\ sp = SpecialistAgent_init "Analyst" ANALYST_SYSTEM_PROMPT
             (Some gemini_tools) (Some sessions) (Some tools_map))
  \/ (agent_name = "writer"
      /\ sp = SpecialistAgent_init "Writer" WRITER_SYSTEM_PROMPT None None None)
  \/ (agent_name = "reviewer"
      /\ sp = SpecialistAgent_init "Reviewer" REVIEWER_SYSTEM_PROMPT None None None).
Proof.
  unfold connect_orchestrator. simpl. intros H.
  destruct (decide (agent_name = "reviewer")) as [->|Hr].
  { rewrite lookup_insert_eq in H. injection H as <-. right. right. now split. }
  rewrite lookup_insert_ne in H by congruence.
  destruct (decide (agent_name = "writer")) as [->|Hw].
  { rewrite lookup_insert_eq in H. injection H as <-. right. left. now split. }
  rewrite lookup_insert_ne in H by congruence.
  destruct (decide (agent_name = "analyst")) as [->|Ha].
  { rewrite lookup_insert_eq in H. injection H as <-. left. now split. }
  rewrite lookup_insert_ne, lookup_empty in H by congruence. discriminate.
Qed.

(** X5: in the system that [MultiAgentSystem.connect] builds, whatever
    the plan, every tool call made while a request is processed follows
    the routing table of the system: it is a call of the analyst, for a
    tool the table maps to a server, sent to that server's session.  The
    writer and the reviewer have no tools and never call one, and so
    does nobody when the routing table is empty. *)
Theorem system_tool_calls_follow_routing
  (env : Env) (gemini_tools : list Tool) (sessions : gmap string ClientSession)
  (tools_map : gmap string string) (user_input : string) (st : State) :
  let system := connect_orchestrator gemini_tools sessions tools_map in
  (exists new,
      tool_requests (fst (process env system user_input st)) = tool_requests st ++ new
      /\ Forall (well_routed tools_map sessions) new
      /\ (tools_map = ∅ -> new = []))
  /\ (forall agent_name sp task st0,
         specialists system !! agent_name = Some sp ->
         agent_name <> "analyst" ->
         tool_requests (fst (multi_agent.run env sp task st0)) = tool_requests st0).
Proof.
  intros system.
  assert (Hrun : forall agent_name sp task,
             specialists system !! agent_name = Some sp ->
             appends tool_requests (well_routed tools_map sessions)
               (multi_agent.run env sp task)).
  { intros agent_name sp task Hsp.
    apply (appends_ext _ _ _ _ (run_tool_loop env sp task)).
    apply connect_orchestrator_specialists in Hsp
      as [[_ ->]|[[_ ->]|[_ ->]]].
    - exact (routed_tool_loop env (as_agent _) _ 10 _).
    - eapply appends_weaken; [|exact (routed_tool_loop env (as_agent _) _ 10 _)].
      intros req (server & Hmap & _). simpl in Hmap.
      now rewrite tools_map_get_empty in Hmap.
    - eapply appends_weaken; [|exact (routed_tool_loop env (as_agent _) _ 10 _)].
      intros req (server & Hmap & _). simpl in Hmap.
      now rewrite tools_map_get_empty in Hmap. }
  split.
  - assert (Hgen : forall req,
               appends tool_requests (well_routed tools_map sessions) (generate env req))
      by (intros req; now apply appends_silent).
    destruct (appends_process tool_requests (well_routed tools_map sessions) env system
                user_input Hgen Hrun (fun d st0 => eq_refl) st) as (new & Hnew & Hall).
    exists new. repeat split; [exact Hnew|exact Hall|].
    intros ->. destruct Hall as [|req new (server & Hmap & _) _]; [reflexivity|].
    now rewrite tools_map_get_empty in Hmap.
  - intros agent_name sp task st0 Hsp Hne.
    apply run_without_tools.
    apply connect_orchestrator_specialists in Hsp
      as [[-> _]|[[_ ->]|[_ ->]]]; [congruence|reflexivity|reflexivity].
Qed.

Lemma system_tool_calls_follow_routing_witness :
  tool_requests
    (fst (multi_agent.run stub.echo_for_ever
            (SpecialistAgent_init "Writer" WRITER_SYSTEM_PROMPT None None None)
            "write it" initial_state))
  = [].
Proof.
  apply (proj2 (system_tool_calls_follow_routing stub.echo_for_ever [] ∅ ∅ "hi"
                  initial_state) "writer").
  - unfold connect_orchestrator. simpl.
    rewrite lookup_insert_ne by discriminate. apply lookup_insert_eq.
  - discriminate.
Defined.

(* ------------------------------------------------------------------ *)
(** ** The plan: direct answers and ill-formed steps                   *)
(* ------------------------------------------------------------------ *)

(** X6: when the value of [needs_specialists] is false for Python (the
    key is missing, or its value is false, null, zero, an empty string,
    list or object), [process] answers with the value of
    [direct_response] as it is, string or not, or with the placeholder
    when the key is missing: the planning call is its only LLM call, no
    specialist runs and no tool is called, whatever [plan] holds. *)
Theorem direct_answer
  (env : Env) (self : Orchestrator) (user_input : string) (st st1 : State)
  (members : list (string * json)) :
  _create_plan env user_input st = (st1, Ok (JObj members)) ->
  truthy (default (JBool false) (dict_lookup "needs_specialists" members)) = false ->
  process env self user_input st
  = (log_llm (plan_request user_input) st,
     Ok (default (JStr "(빈 응답)") (dict_lookup "direct_response" members))).
Proof.
  intros Hplan Hfalsy.
  pose proof (create_plan_state env user_input st) as Hst. rewrite Hplan in Hst.
  simpl in Hst. subst st1.
  rewrite (process_after_plan env self user_input st _ _ Hplan).
  unfold process_plan, bind, lift, get.
  destruct (dict_lookup "needs_specialists" members) as [needs|]; simpl in Hfalsy |- *.
  - rewrite Hfalsy. simpl. now destruct (dict_lookup "direct_response" members).
  - now destruct (dict_lookup "direct_response" members).
Qed.

Lemma direct_answer_witness :
  process more_stubs.direct_number plans.team "hello" initial_state
  = (log_llm (plan_request "hello") initial_state, Ok (JInt 5)).
Proof.
  apply (direct_answer more_stubs.direct_number plans.team "hello" initial_state
           (log_llm (plan_request "hello") initial_state)
           [("needs_specialists", JInt 0); ("direct_response", JInt 5)]).
  - vm_compute. reflexivity.
  - reflexivity.
Defined.

Lemma step_summary_bad pre step post :
  Forall has_agent_name pre ->
  ~ has_agent_name step ->
  step_summary (pre ++ step :: post)
  = Raise (match getitem step "agent" with
           | Raise e => e
           | Ok _ => AttributeError
           end).
Proof.
  intros Hpre Hstep. rewrite step_summary_app.
  assert (Hok : step_summary pre = Ok tt).
  { induction Hpre as [|s pre [a Ha] _ IH]; [reflexivity|]. simpl. now rewrite Ha. }
  rewrite Hok. simpl.
  destruct (getitem step "agent") as [[| | | |a| |]|e] eqn:Ha; try reflexivity.
  destruct Hstep. now exists a.
Qed.

(** X7: the agents of all the steps are checked before the first step
    runs.  When one step of the plan, wherever it stands, has no [agent]
    key, is not an object, or has an [agent] that is not a string,
    [process] fails after the planning call alone: no specialist has run,
    not even for the well-formed steps before it.  The error is the
    [KeyError] or [TypeError] of the subscript, or [AttributeError]. *)
Theorem ill_formed_agent_stops_all_steps
  (env : Env) (self : Orchestrator) (user_input : string) (st st1 : State)
  (plan needs_specialists items : json) (pre : list json) (step : json)
  (post : list json) :
  _create_plan env user_input st = (st1, Ok plan) ->
  get plan "needs_specialists" (JBool false) = Ok needs_specialists ->
  truthy needs_specialists = true ->
  get plan "plan" (JArr []) = Ok items ->
  iter items = Ok (pre ++ step :: post) ->
  Forall has_agent_name pre ->
  ~ has_agent_name step ->
  process env self user_input st
  = (log_llm (plan_request user_input) st,
     Raise (match getitem step "agent" with
            | Raise e => e
            | Ok _ => AttributeError
            end)).
Proof.
  intros Hplan Hneeds Htruthy Hitems Hiter Hpre Hstep.
  pose proof (create_plan_state env user_input st) as Hst. rewrite Hplan in Hst.
  simpl in Hst. subst st1.
  rewrite (process_after_plan env self user_input st _ _ Hplan).
  unfold process_plan, bind, lift. rewrite Hneeds, Htruthy. simpl.
  rewrite Hitems, Hiter. now rewrite (step_summary_bad pre step post Hpre Hstep).
Qed.

Lemma ill_formed_agent_stops_all_steps_witness :
  process more_stubs.numbered_agent plans.team "request" initial_state
  = (log_llm (plan_request "request") initial_state, Raise AttributeError).
Proof.
  apply (ill_formed_agent_stops_all_steps more_stubs.numbered_agent plans.team "request"
           initial_state (log_llm (plan_request "request") initial_state)
           more_stubs.numbered_agent_value (JBool true)
           (JArr [plans.step_value "analyst" "collect"; more_stubs.numbered_agent_step])
           [plans.step_value "analyst" "collect"] more_stubs.numbered_agent_step []).
  - vm_compute. reflexivity.
  - reflexivity.
  - reflexivity.
  - reflexivity.
  - reflexivity.
  - constructor; [now exists "analyst"|constructor].
  - intros [a Ha]. discriminate.
Defined.

(** X8: the task of a step is read only when the step is reached.  A
    step with an agent name and no [task] key makes [process] fail with
    [KeyError] for [task], whether its agent is registered or not, but
    only after the steps before it have run; no later step runs and no
    synthesis call is made. *)
Theorem missing_task_fails_late
  (env : Env) (self : Orchestrator) (user_input : string) (st st1 st2 : State)
  (plan : json) (pre : list json) (step : json) (post : list json)
  (results : Results) (e : exn) :
  _create_plan env user_input st = (st1, Ok plan) ->
  plan_steps plan (pre ++ step :: post) ->
  getitem step "task" = Raise e ->
  run_steps env self user_input pre [] st1 = (st2, Ok results) ->
  e = KeyError "task"
  /\ process env self user_input st = (st2, Raise (KeyError "task")).
Proof.
  intros Hplan Hsteps Htask Hpre.
  assert (Hagent : has_agent_name step).
  { destruct Hsteps as (_ & _ & _ & _ & _ & _ & Hsummary).
    rewrite step_summary_app in Hsummary.
    destruct (step_summary pre) as [[]|]; [|discriminate]. simpl in Hsummary.
    destruct (getitem step "agent") as [[| | | |agent_name| |]|] eqn:Ha;
      try discriminate.
    now exists agent_name. }
  destruct Hagent as [a Ha].
  assert (He : e = KeyError "task").
  { unfold getitem in Ha, Htask. destruct step; try discriminate.
    destruct (dict_lookup "task" members); [discriminate|]. now injection Htask as <-. }
  subst e. split; [reflexivity|].
  rewrite (process_after_plan env self user_input st st1 plan Hplan).
  rewrite (process_plan_steps env self user_input plan _ st1 Hsteps).
  unfold bind at 1. rewrite run_steps_app. unfold bind at 1. rewrite Hpre.
  simpl. unfold bind, run_step, lift. now rewrite Ha, Htask.
Qed.

Lemma missing_task_fails_late_witness :
  snd (process more_stubs.taskless plans.team "request" initial_state)
  = Raise (KeyError "task")
  /\ map d_outcome
       (delegations (fst (process more_stubs.taskless plans.team "request" initial_state)))
     = [Ok "DATA"].
Proof.
  destruct (missing_task_fails_late more_stubs.taskless plans.team "request"
              initial_state (log_llm (plan_request "request") initial_state)
              (fst (run_steps more_stubs.taskless plans.team "request"
                      [plans.step_value "analyst" "collect"] []
                      (log_llm (plan_request "request") initial_state)))
              more_stubs.taskless_value
              [plans.step_value "analyst" "collect"] more_stubs.taskless_step []
              [("analyst", "DATA")] (KeyError "task")) as [_ H].
  - vm_compute. reflexivity.
  - exists (JBool true),
      (JArr [plans.step_value "analyst" "collect"; more_stubs.taskless_step]).
    repeat split; reflexivity.
  - reflexivity.
  - vm_compute. reflexivity.
  - rewrite H. split; [reflexivity|]. vm_compute. reflexivity.
Defined.

(* ------------------------------------------------------------------ *)
(** ** What a request costs                                            *)
(* ------------------------------------------------------------------ *)

Section Budget.
Variable env : Env.
Variable self : Orchestrator.
Variable user_input : string.

(** A run makes between one and ten LLM calls. *)
Lemma run_llm_calls sp task st :
  length (llm_requests st) + 1
  <= length (llm_requests (fst (multi_agent.run env sp task st)))
  <= length (llm_requests st) + 10.
Proof.
  rewrite run_tool_loop. split.
  - destruct (tool_loop_conversation env (as_agent sp) (Some (system_prompt sp)) 10
                (first_message task) st) as (new & -> & Hpos & _).
    rewrite length_app. specialize (Hpos ltac:(lia)). lia.
  - apply tool_loop_frame.
Qed.

Lemma run_steps_budget steps results st :
  exists ds,
    delegations (fst (run_steps env self user_input steps results st))
    = delegations st ++ ds
    /\ length (llm_requests st) + length ds
       <= length (llm_requests (fst (run_steps env self user_input steps results st)))
       <= length (llm_requests st) + 10 * length ds.
Proof.
  revert results st. induction steps as [|step rest IH]; intros results st.
  { exists []. simpl. rewrite app_nil_r. split; [reflexivity|lia]. }
  change (run_steps env self user_input (step :: rest) results st)
    with (bind (run_step env self user_input step results)
               (fun results => run_steps env self user_input rest results) st).
  unfold bind.
  destruct (executable self step) as [[a task]|] eqn:Hex.
  - destruct (executable_known self _ _ _ Hex) as (Ha & Ht & [sp Hsp]).
    rewrite (run_step_known env self user_input step a task sp results st Ha Ht Hsp).
    set (full_task := build_full_task env user_input task results).
    pose proof (run_frame env sp full_task st) as Hframe.
    pose proof (run_llm_calls sp full_task st) as Hcalls.
    destruct (multi_agent.run env sp full_task st) as [st1 [text|e]];
      simpl in Hframe, Hcalls |- *.
    + set (d0 := {| d_agent := a; d_task := full_task; d_outcome := Ok text |}).
      destruct (IH (dict_set a text results) (log_delegation d0 st1)) as (ds & Hds & Hb).
      exists (d0 :: ds). split.
      * rewrite Hds. simpl. rewrite Hframe. now rewrite <- app_assoc.
      * simpl in Hb |- *. lia.
    + eexists [_]. split; [simpl; now rewrite Hframe|]. simpl. lia.
  - destruct (run_step_not_executable env self user_input step results st Hex)
      as (r & -> & Hr).
    destruct r as [results1|e]; [apply IH|].
    exists []. simpl. rewrite app_nil_r. split; [reflexivity|lia].
Qed.

End Budget.

(** X9: a request costs at most two LLM calls, the planning call and the
    synthesis call, plus ten per specialist run that was started, and at
    least the planning call plus one per specialist run. *)
Theorem llm_call_budget
  (env : Env) (self : Orchestrator) (user_input : string) (st : State) :
  let st' := fst (process env self user_input st) in
  exists ds,
    delegations st' = delegations st ++ ds
    /\ length (llm_requests st) + 1 + length ds
       <= length (llm_requests st')
       <= length (llm_requests st) + 2 + 10 * length ds.
Proof.
  intros st'. unfold st', process, bind.
  pose proof (create_plan_state env user_input st) as Hst.
  destruct (_create_plan env user_input st) as [st1 [plan|e]]; simpl in Hst; subst st1.
  2:{ exists []. simpl. rewrite app_nil_r, length_app. simpl. split; [reflexivity|lia]. }
  assert (Hnone : forall r : result json,
             exists ds,
               delegations (fst (log_llm (plan_request user_input) st, r))
               = delegations st ++ ds
               /\ length (llm_requests st) + 1 + length ds
                  <= length (llm_requests (fst (log_llm (plan_request user_input) st, r)))
                  <= length (llm_requests st) + 2 + 10 * length ds).
  { intros r. exists []. simpl. rewrite app_nil_r, length_app. simpl.
    split; [reflexivity|lia]. }
  unfold process_plan, bind, lift.
  destruct (get plan "needs_specialists" (JBool false)) as [needs|e]; [|apply Hnone].
  destruct (negb (truthy needs)); [apply Hnone|].
  destruct (get plan "plan" (JArr [])) as [items|e]; [|apply Hnone].
  destruct (iter items) as [steps|e]; [|apply Hnone].
  destruct (step_summary steps) as [[]|e]; [|apply Hnone].
  destruct (run_steps_budget env self user_input steps []
              (log_llm (plan_request user_input) st)) as (ds & Hds & Hb).
  exists ds.
  destruct (run_steps env self user_input steps [] (log_llm (plan_request user_input) st))
    as [st2 [results|e]]; simpl in Hds, Hb |- *.
  - rewrite synthesis_frame. split; [exact Hds|].
    rewrite length_app in Hb. simpl in Hb.
    destruct (decide (length results = 1)) as [H1|Hne].
    + destruct results as [|[a r] [|entry results]]; try discriminate. simpl. lia.
    + rewrite synthesis_call by exact Hne. simpl. rewrite length_app. simpl. lia.
  - split; [exact Hds|]. rewrite length_app in Hb. simpl in Hb. lia.
Qed.

(* ------------------------------------------------------------------ *)
(** ** The results mapping                                             *)
(* ------------------------------------------------------------------ *)

Lemma dict_lookup_set_eq {V : Type} (k : string) (v : V) (d : list (string * V)) :
  dict_lookup k (dict_set k v d) = Some v.
Proof.
  induction d as [|[k' v'] d IH]; simpl.
  - now rewrite String.eqb_refl.
  - destruct (String.eqb_spec k' k) as [->|Hne]; simpl.
    + now rewrite String.eqb_refl.
    + destruct (String.eqb_spec k' k); [congruence|exact IH].
Qed.

Lemma dict_lookup_set_ne {V : Type} (k k0 : string) (v : V) (d : list (string * V)) :
  k <> k0 -> dict_lookup k0 (dict_set k v d) = dict_lookup k0 d.
Proof.
  intros Hne. induction d as [|[k' v'] d IH]; simpl.
  - destruct (String.eqb_spec k k0); [congruence|reflexivity].
  - destruct (String.eqb_spec k' k) as [->|Hk]; simpl.
    + destruct (String.eqb_spec k k0); [congruence|reflexivity].
    + destruct (String.eqb_spec k' k0); [reflexivity|exact IH].
Qed.

Lemma dict_set_keys {V : Type} (k : string) (v : V) (d : list (string * V)) :
  NoDup (map fst d) -> NoDup (map fst (dict_set k v d))
  /\ forall k0, k0 ∈ map fst (dict_set k v d) <-> k0 = k \/ k0 ∈ map fst d.
Proof.
  induction d as [|[k' v'] d IH]; intros Hnd; simpl.
  - split; [apply NoDup_singleton|]. intros k0. rewrite list_elem_of_singleton.
    split; [now left|]. intros [H|H]; [exact H|]. now apply not_elem_of_nil in H.
  - apply NoDup_cons in Hnd as [Hk' Hnd]. destruct (IH Hnd) as [IHnd IHin].
    destruct (String.eqb_spec k' k) as [->|Hne]; simpl.
    + split; [now apply NoDup_cons|]. intros k0. rewrite elem_of_cons. tauto.
    + split.
      * apply NoDup_cons. split; [|exact IHnd]. rewrite IHin. intros [H|H]; [congruence|exact (Hk' H)].
      * intros k0. rewrite !elem_of_cons, IHin. tauto.
Qed.

Lemma fold_dict_set_lookup (entries results : Results) (agent_name : string) :
  dict_lookup agent_name
    (fold_left (fun results entry => dict_set (fst entry) (snd entry) results)
       entries results)
  = match last (map snd (List.filter (fun entry => String.eqb (fst entry) agent_name)
                           entries)) with
    | Some text => Some text
    | None => dict_lookup agent_name results
    end.
Proof.
  revert results. induction entries as [|[k v] entries IH]; intros results; [reflexivity|].
  simpl fold_left. rewrite IH. cbn [List.filter fst snd].
  destruct (String.eqb_spec k agent_name) as [->|Hne].
  - cbn [map snd].
    destruct (map snd (List.filter (fun entry => String.eqb (fst entry) agent_name)
                         entries)) as [|x xs] eqn:E.
    + simpl. apply dict_lookup_set_eq.
    + rewrite last_cons_cons. destruct (last (x :: xs)) eqn:El; [reflexivity|].
      apply last_None in El. discriminate.
  - destruct (last (map snd (List.filter (fun entry => String.eqb (fst entry) agent_name)
                               entries))); [reflexivity|].
    now apply dict_lookup_set_ne.
Qed.

Lemma fold_dict_set_keys (entries results : Results) :
  NoDup (map fst results) ->
  NoDup (map fst (fold_left (fun results entry => dict_set (fst entry) (snd entry) results)
                    entries results)).
Proof.
  revert results. induction entries as [|[k v] entries IH]; intros results Hnd;
    [exact Hnd|].
  simpl. apply IH. now apply dict_set_keys.
Qed.

(** X10: after the steps of a plan, the results mapping has no agent
    name twice, and looking an agent name up gives the latest result that
    this agent produced, or nothing when it produced none; only
    registered agents have an entry. *)
Theorem results_hold_latest
  (env : Env) (self : Orchestrator) (user_input : string)
  (steps : list json) (st st' : State) (results : Results) :
  run_steps env self user_input steps [] st = (st', Ok results) ->
  exists ds,
    delegations st' = delegations st ++ ds
    /\ NoDup (map fst results)
    /\ (forall agent_name,
           dict_lookup agent_name results = latest_result agent_name ds)
    /\ (forall agent_name,
           is_Some (dict_lookup agent_name results) ->
           is_Some (specialists self !! agent_name)).
Proof.
  intros Hrun.
  destruct (run_steps_delegations env self user_input steps [] st)
    as (ds & Hds & Htasks & Hres).
  rewrite Hrun in Hds, Hres. simpl in Hds, Hres.
  destruct (Hres results eq_refl) as (-> & Hall & Hagents).
  exists ds. split; [exact Hds|].
  assert (Hlookup : forall agent_name,
             dict_lookup agent_name (collected [] ds) = latest_result agent_name ds).
  { intros agent_name. unfold collected, latest_result.
    rewrite fold_dict_set_lookup.
    now destruct (last (map snd (List.filter _ (outputs ds)))). }
  split; [apply fold_dict_set_keys; constructor|]. split; [exact Hlookup|].
  intros agent_name [text Htext]. rewrite Hlookup in Htext.
  unfold latest_result in Htext.
  assert (Hin : agent_name ∈ map fst (outputs ds)).
  { destruct (List.filter (fun entry => String.eqb (fst entry) agent_name) (outputs ds))
      as [|entry l] eqn:Hf; [discriminate|].
    assert (Hentry : In entry (List.filter
                                 (fun entry => String.eqb (fst entry) agent_name)
                                 (outputs ds))) by (rewrite Hf; now left).
    apply List.filter_In in Hentry as [Hentry Hname].
    apply String.eqb_eq in Hname as <-.
    apply list_elem_of_In, in_map, Hentry. }
  rewrite (outputs_agents ds Hall), Hagents in Hin.
  apply list_elem_of_fmap in Hin as ([a task] & -> & Hin).
  apply list_elem_of_omap in Hin as (step & _ & Hstep).
  now destruct (executable_known self step a task Hstep) as (_ & _ & Hsp).
Qed.

Lemma results_hold_latest_witness :
  exists results,
    snd (run_steps plans.analyst_twice plans.team "request"
           [plans.step_value "analyst" "collect";
            plans.step_value "analyst" "collect more";
            plans.step_value "writer" "draft"] []
           (log_llm (plan_request "request") initial_state)) = Ok results
    /\ dict_lookup "analyst" results = Some "BETA".
Proof.
  destruct (run_steps plans.analyst_twice plans.team "request"
              [plans.step_value "analyst" "collect";
               plans.step_value "analyst" "collect more";
               plans.step_value "writer" "draft"] []
              (log_llm (plan_request "request") initial_state))
    as [st' [results|e]] eqn:Hrun; [|vm_compute in Hrun; discriminate].
  exists results. split; [reflexivity|].
  destruct (results_hold_latest _ _ _ _ _ _ _ Hrun) as (ds & Hds & _ & Hlookup & _).
  rewrite Hlookup.
  apply (f_equal fst) in Hrun. simpl in Hrun. subst st'.
  vm_compute in Hds. subst ds. vm_compute. reflexivity.
Defined.

(* ------------------------------------------------------------------ *)
(** ** A specialist that fails                                         *)
(* ------------------------------------------------------------------ *)

Lemma delegations_faithful_delegate env agent_name sp task :
  error_faithful delegations (fun (_ : nat) (d : Delegation) => d_outcome d)
    (delegate env agent_name sp task).
Proof.
  intros st. unfold delegate.
  pose proof (run_frame env sp task st) as Hframe.
  destruct (multi_agent.run env sp task st) as [st' outcome]. simpl in Hframe.
  unfold errors_decide. simpl.
  eexists [_]. split; [now rewrite Hframe|].
  intros j d e Hj Hraise. destruct j as [|j]; [|discriminate].
  injection Hj as <-. simpl in Hraise. now split.
Qed.

(** X11: [process] does not recover from a specialist that fails.
    Whichever call of [SpecialistAgent.run] raises, for whatever reason,
    it is the last call of a specialist for the request and its
    exception is the outcome of [process]. *)
Theorem specialist_failure_aborts
  (env : Env) (self : Orchestrator) (user_input : string) (st st' : State)
  (r : result json) :
  process env self user_input st = (st', r) ->
  exists ds,
    delegations st' = delegations st ++ ds
    /\ forall k d e,
        ds !! k = Some d ->
        d_outcome d = Raise e ->
        r = Raise e /\ length ds = S k.
Proof.
  intros Hrun.
  assert (H : error_faithful delegations (fun (_ : nat) (d : Delegation) => d_outcome d)
                (process env self user_input)).
  { apply faithful_process.
    - intros req. apply faithful_silent. reflexivity.
    - intros agent_name sp task. apply delegations_faithful_delegate. }
  specialize (H st). rewrite Hrun in H. exact H.
Qed.

Lemma specialist_failure_aborts_witness :
  snd (process more_stubs.analyst_tool_fails plans.team "request" initial_state)
  = Raise (ExternalError "timeout").
Proof.
  destruct (process more_stubs.analyst_tool_fails plans.team "request" initial_state)
    as [st' r] eqn:Hrun.
  destruct (specialist_failure_aborts more_stubs.analyst_tool_fails plans.team "request"
              initial_state st' r Hrun) as (ds & Hds & Hraise).
  apply (f_equal fst) in Hrun. simpl in Hrun. subst st'.
  vm_compute in Hds. subst ds.
  exact (proj1 (Hraise 0 _ (ExternalError "timeout") eq_refl eq_refl)).
Defined.

(* ------------------------------------------------------------------ *)
(** ** main.py: the command line                                       *)
(* ------------------------------------------------------------------ *)

Import lifecycle.

Lemma parse_args_from (args : list string) (config_path : string) (multi_mode : bool) :
  fold_left
    (fun '(config_path, multi_mode) arg =>
       if String.eqb arg "--multi" then (config_path, true) else (arg, multi_mode))
    args (config_path, multi_mode)
  = (default config_path
       (last (List.filter (fun arg => negb (String.eqb arg "--multi")) args)),
     multi_mode || existsb (fun arg => String.eqb arg "--multi") args).
Proof.
  revert config_path multi_mode.
  induction args as [|arg args IH]; intros config_path multi_mode.
  - simpl. now rewrite orb_false_r.
  - simpl fold_left. simpl List.filter. simpl existsb.
    destruct (String.eqb arg "--multi"); rewrite IH; simpl.
    + now rewrite orb_true_r.
    + f_equal.
      destruct (List.filter (fun arg => negb (String.eqb arg "--multi")) args)
        as [|x xs] eqn:E; [reflexivity|].
      rewrite last_cons_cons.
      destruct (last (x :: xs)) eqn:El; [reflexivity|].
      apply last_None in El. discriminate.
Qed.

(** X12: the command line of [main].  The multi-agent mode is on exactly
    when [--multi] occurs among the arguments, wherever and however
    often; the configuration path is the last argument that is not
    [--multi], and [config.json] when there is none.  No check is made:
    any other argument, an unknown option too, is taken for a path. *)
Theorem parse_args_spec (args : list string) :
  main_py.parse_args args
  = (default "config.json"
       (last (List.filter (fun arg => negb (String.eqb arg "--multi")) args)),
     existsb (fun arg => String.eqb arg "--multi") args).
Proof. unfold main_py.parse_args. now rewrite parse_args_from. Qed.

(* ------------------------------------------------------------------ *)
(** ** Start: the servers, the routing table and the catalog           *)
(* ------------------------------------------------------------------ *)

Section ProgFacts.
Context {A B : Type}.

Lemma keeps_pbind (I : System -> Prop) (m : Prog System A) (k : A -> Prog System B) :
  keeps I m -> (forall a, keeps I (k a)) -> keeps I (pbind m k).
Proof.
  intros Hm Hk s Hs. unfold pbind. specialize (Hm s Hs).
  destruct (m s) as [s1 [a|e]]; simpl in *; [now apply Hk|exact Hm].
Qed.

Lemma keeps_pure (I : System -> Prop) (r : result A) : keeps I (pure r).
Proof. now intros s Hs. Qed.

Lemma moves_pbind (R : System -> System -> Prop) (m : Prog System A)
      (k : A -> Prog System B) :
  (forall s1 s2 s3, R s1 s2 -> R s2 s3 -> R s1 s3) ->
  moves R m -> (forall a, moves R (k a)) -> moves R (pbind m k).
Proof.
  intros Htrans Hm Hk s. unfold pbind. specialize (Hm s).
  destruct (m s) as [s1 [a|e]]; simpl in *; [|exact Hm].
  eapply Htrans; [exact Hm|apply Hk].
Qed.

End ProgFacts.

Lemma started_refl s : started s s.
Proof. repeat split. exists []. now rewrite app_nil_r. Qed.

Lemma started_trans s1 s2 s3 : started s1 s2 -> started s2 s3 -> started s1 s3.
Proof.
  intros ([m1 H1] & Hr1 & Hi1 & Hc1 & Hp1) ([m2 H2] & Hr2 & Hi2 & Hc2 & Hp2).
  repeat split; try congruence.
  exists (m1 ++ m2). now rewrite H2, H1, app_assoc.
Qed.

Section StartFacts.
Variable host : Host.

Lemma moves_pure {A : Type} (r : result A) : moves started (pure r).
Proof. intros s. apply started_refl. Qed.

Lemma started_enter_stdio_client params : moves started (enter_stdio_client host params).
Proof.
  intros s. unfold enter_stdio_client.
  destruct (stdio_client host _ params); simpl; [|apply started_refl].
  repeat split. now eexists.
Qed.

Lemma started_enter_client_session streams :
  moves started (enter_client_session host streams).
Proof.
  intros s. unfold enter_client_session.
  destruct (client_session host _ streams); simpl; [|apply started_refl].
  repeat split. now eexists.
Qed.

(** An assignment to a field that [started] does not watch. *)
Lemma moves_update (f : System -> System) :
  (forall s, _exit_stack (f s) = _exit_stack s
             /\ released (f s) = released s
             /\ stdin (f s) = stdin s
             /\ core (f s) = core s
             /\ config_path (f s) = config_path s) ->
  moves started (update f).
Proof.
  intros Hf s. unfold update. simpl.
  destruct (Hf s) as (Hk & Hr & Hi & Hc & Hp).
  repeat split; try assumption. exists []. now rewrite app_nil_r.
Qed.

Lemma started_register_tools server_name tools decls :
  moves started (register_tools server_name tools decls).
Proof.
  revert decls. induction tools as [|tool rest IH]; intros decls; simpl.
  - apply moves_pure.
  - apply moves_pbind; [apply started_trans| |intros _; apply IH].
    now apply moves_update.
Qed.

Lemma started_connect_server server_name server_config decls :
  moves started (connect_server host server_name server_config decls).
Proof.
  unfold connect_server.
  repeat (apply moves_pbind; [apply started_trans| |intros ?]);
    try apply moves_pure;
    try apply started_enter_stdio_client;
    try apply started_enter_client_session;
    try apply started_register_tools;
    now apply moves_update.
Qed.

Lemma started_connect_servers servers decls :
  moves started (connect_servers host servers decls).
Proof.
  revert decls. induction servers as [|[name config] rest IH]; intros decls; simpl.
  - apply moves_pure.
  - apply moves_pbind; [apply started_trans|apply started_connect_server|].
    intros decls'. apply IH.
Qed.

Lemma started_connect : moves started (connect host).
Proof.
  intros s. unfold connect.
  apply (moves_pbind started _ _ started_trans); [apply moves_pure|]. intros config.
  apply moves_pbind; [apply started_trans|apply moves_pure|]. intros servers.
  apply moves_pbind; [apply started_trans|apply moves_pure|]. intros servers'.
  apply moves_pbind; [apply started_trans|apply started_connect_servers|].
  intros decls. destruct decls; [apply moves_pure|].
  now apply moves_update.
Qed.

(** The routing table stays served. *)
Lemma served_register_tools server_name tools decls s :
  all_served s ->
  is_Some (sessions s !! server_name) ->
  all_served (fst (register_tools server_name tools decls s)).
Proof.
  revert decls s. induction tools as [|tool rest IH]; intros decls s Hs Hsession;
    [exact Hs|].
  simpl. unfold pbind, update. simpl. apply IH; [|exact Hsession].
  intros name server. simpl.
  destruct (decide (name = tool_name tool)) as [->|Hne].
  - rewrite lookup_insert_eq. now intros [= <-].
  - rewrite lookup_insert_ne by congruence. apply Hs.
Qed.

Lemma served_more_sessions s v :
  all_served s -> (forall server, is_Some (sessions s !! server) -> is_Some (v !! server)) ->
  all_served (set_sessions v s).
Proof. intros Hs Hv name server Hmap. apply Hv, (Hs name server Hmap). Qed.

Lemma served_connect_server server_name server_config decls :
  keeps all_served (connect_server host server_name server_config decls).
Proof.
  intros s Hs. unfold connect_server, pbind, pure.
  destruct (getitem server_config "command") as [command|e]; [|exact Hs].
  destruct (get server_config "args" (JArr [])) as [args|e]; [|exact Hs].
  destruct (get server_config "env" (JObj [])) as [config_env|e]; [|exact Hs].
  destruct (merged_env host config_env) as [env|e]; [|exact Hs].
  unfold enter_stdio_client.
  destruct (stdio_client host _ _) as [streams|e]; [|exact Hs].
  unfold enter_client_session.
  destruct (client_session host _ streams) as [session|e]; [|exact Hs].
  destruct (initialize host session) as [[]|e]; [|exact Hs].
  unfold update. cbn [fst snd].
  set (s1 := set_sessions _ _).
  assert (H1 : all_served s1).
  2: assert (Hsession : is_Some (sessions s1 !! server_name)).
  { intros name server Hmap. simpl in *.
    destruct (decide (server = server_name)) as [->|Hne].
    - rewrite lookup_insert_eq. eauto.
    - rewrite lookup_insert_ne by congruence. apply (Hs name server Hmap). }
  { simpl. rewrite lookup_insert_eq. eauto. }
  destruct (list_tools host session) as [tools|e]; [|exact H1].
  pose proof (served_register_tools server_name tools decls s1 H1 Hsession) as H2.
  destruct (register_tools server_name tools decls s1) as [s2 [decls'|e]];
    intros name server; exact (H2 name server).
Qed.

Lemma served_connect_servers servers decls :
  keeps all_served (connect_servers host servers decls).
Proof.
  revert decls. induction servers as [|[name config] rest IH]; intros decls; simpl.
  - apply keeps_pure.
  - apply keeps_pbind; [apply served_connect_server|]. intros decls'. apply IH.
Qed.

Lemma served_connect : keeps all_served (connect host).
Proof.
  intros s Hs. unfold connect.
  apply (keeps_pbind all_served); [apply keeps_pure| |exact Hs]. intros config.
  apply keeps_pbind; [apply keeps_pure|]. intros servers.
  apply keeps_pbind; [apply keeps_pure|]. intros servers'.
  apply keeps_pbind; [apply served_connect_servers|].
  intros decls. destruct decls; [apply keeps_pure|].
  intros s0 Hs0. exact Hs0.
Qed.

End StartFacts.

(** X13: [connect] keeps the routing table served.  If every tool name
    of the table leads to a server with a session before [connect], so
    it does after it, whether [connect] returns or raises half-way; in
    particular after the [connect] of a new object, every routed tool
    call finds its session: the [KeyError] of [self.sessions[server_name]]
    cannot occur. *)
Theorem connect_keeps_routing_served (host : Host) (s : System) :
  all_served s ->
  let s' := fst (connect host s) in
  all_served s' /\ routed (tools_map s') (sessions s').
Proof.
  intros Hs s'. assert (H : all_served s') by now apply served_connect.
  split; [exact H|]. intros name server Hmap _. exact (H name server Hmap).
Qed.

Lemma connect_keeps_routing_served_witness :
  routed (tools_map (fst (connect hosts.demo (hosts.fresh []))))
    (sessions (fst (connect hosts.demo (hosts.fresh [])))).
Proof.
  apply (connect_keeps_routing_served hosts.demo (hosts.fresh [])).
  intros name server Hmap. simpl in Hmap. now rewrite lookup_empty in Hmap.
Defined.

Section StackFacts.
Variable host : Host.

Lemma on_stack_grow s more :
  all_on_stack s -> all_on_stack (set_exit_stack (_exit_stack s ++ more) s).
Proof. intros Hs server session Hsess. simpl. apply elem_of_app. left. now apply (Hs server). Qed.

Lemma on_stack_register_tools server_name tools decls :
  keeps all_on_stack (register_tools server_name tools decls).
Proof.
  revert decls. induction tools as [|tool rest IH]; intros decls; simpl.
  - apply keeps_pure.
  - apply keeps_pbind; [|intros _; apply IH]. intros s Hs. exact Hs.
Qed.

Lemma on_stack_connect_server server_name server_config decls :
  keeps all_on_stack (connect_server host server_name server_config decls).
Proof.
  intros s Hs. unfold connect_server, pbind, pure.
  destruct (getitem server_config "command") as [command|e]; [|exact Hs].
  destruct (get server_config "args" (JArr [])) as [args|e]; [|exact Hs].
  destruct (get server_config "env" (JObj [])) as [config_env|e]; [|exact Hs].
  destruct (merged_env host config_env) as [env|e]; [|exact Hs].
  unfold enter_stdio_client.
  destruct (stdio_client host _ _) as [streams|e]; [|exact Hs].
  set (s0 := set_exit_stack _ s).
  assert (H0 : all_on_stack s0) by now apply on_stack_grow.
  unfold enter_client_session.
  destruct (client_session host _ streams) as [session|e]; [|exact H0].
  set (s0' := set_exit_stack _ s0).
  assert (H0' : all_on_stack s0') by now apply on_stack_grow.
  destruct (initialize host session) as [[]|e]; [|exact H0'].
  unfold update. cbn [fst snd].
  set (s1 := set_sessions _ _).
  assert (H1 : all_on_stack s1).
  { intros server session' Hsess. simpl in Hsess.
    destruct (decide (server = server_name)) as [->|Hne].
    - rewrite lookup_insert_eq in Hsess. injection Hsess as <-.
      simpl. apply elem_of_app. right. apply list_elem_of_singleton. reflexivity.
    - rewrite lookup_insert_ne in Hsess by congruence. exact (H0' server session' Hsess). }
  destruct (list_tools host session) as [tools|e]; [|exact H1].
  pose proof (on_stack_register_tools server_name tools decls s1 H1) as H2.
  destruct (register_tools server_name tools decls s1) as [s2 [decls'|e]];
    intros server session'; exact (H2 server session').
Qed.

Lemma on_stack_connect : keeps all_on_stack (connect host).
Proof.
  intros s Hs. unfold connect.
  apply (keeps_pbind all_on_stack); [apply keeps_pure| |exact Hs]. intros config.
  apply keeps_pbind; [apply keeps_pure|]. intros servers.
  apply keeps_pbind; [apply keeps_pure|]. intros servers'.
  apply keeps_pbind.
  - generalize (@nil FunctionDeclaration).
    induction servers' as [|[name config'] rest IH]; intros decls; simpl.
    + apply keeps_pure.
    + apply keeps_pbind; [apply on_stack_connect_server|]. intros decls'. apply IH.
  - intros decls. destruct decls; [apply keeps_pure|].
    intros s0 Hs0. exact Hs0.
Qed.

End StackFacts.

(** X14: [connect] only starts servers, and loses none.  However it
    ends, it has only added contexts on top of the exit stack (nothing
    is released, read from the console or asked of the LLM), and every
    session registered in [sessions] is one of the contexts of the
    stack, so that [cleanup] will close it. *)
Theorem connect_registers_what_it_starts (host : Host) (s : System) :
  all_on_stack s ->
  let s' := fst (connect host s) in
  all_on_stack s'
  /\ (exists more, _exit_stack s' = _exit_stack s ++ more)
  /\ released s' = released s
  /\ stdin s' = stdin s
  /\ core s' = core s.
Proof.
  intros Hs s'. split; [now apply on_stack_connect|].
  destruct (started_connect host s) as (Hstack & Hr & Hi & Hc & _).
  repeat split; assumption.
Qed.

Lemma connect_registers_what_it_starts_witness :
  all_on_stack (fst (connect hosts.beta_fails (hosts.fresh []))).
Proof.
  apply (connect_registers_what_it_starts hosts.beta_fails (hosts.fresh [])).
  intros server session Hsess. simpl in Hsess. now rewrite lookup_empty in Hsess.
Defined.

Section CatalogFacts.
Variable host : Host.

(** Registering the tools of a server always succeeds: each of them is
    routed to that server and declared, the rest is untouched. *)
Lemma register_tools_spec server_name tools decls s :
  exists s',
    register_tools server_name tools decls s = (s', Ok (decls ++ map declaration tools))
    /\ (forall tool, tool ∈ tools -> tools_map s' !! tool_name tool = Some server_name)
    /\ (forall name, name ∉ map tool_name tools -> tools_map s' !! name = tools_map s !! name)
    /\ sessions s' = sessions s
    /\ gemini_tools s' = gemini_tools s.
Proof.
  revert decls s. induction tools as [|tool rest IH]; intros decls s.
  - exists s. simpl. rewrite app_nil_r. repeat split; try reflexivity.
    intros tool Hin. now apply not_elem_of_nil in Hin.
  - simpl. unfold pbind, update. cbn [fst snd].
    set (s1 := set_tools_map _ s).
    destruct (IH (decls ++ [declaration tool]) s1) as (s' & Hrun & Hin & Hout & Hs & Hg).
    exists s'. rewrite Hrun, <- app_assoc. repeat split; try assumption.
    + intros tool' Htool. apply elem_of_cons in Htool as [->|Htool]; [|now apply Hin].
      destruct (decide (tool_name tool ∈ map tool_name rest)) as [Hdup|Hfresh].
      * apply list_elem_of_fmap in Hdup as (tool' & Hname & Htool'). rewrite Hname.
        now apply Hin.
      * rewrite (Hout _ Hfresh). simpl. apply lookup_insert_eq.
    + intros name Hname. apply not_elem_of_cons in Hname as [Hne Hname].
      rewrite (Hout name Hname). simpl. now rewrite lookup_insert_ne by congruence.
Qed.

(** A server that started: it has a session, whose tools are all routed
    to it and declared. *)
Lemma connect_server_ok server_name server_config decls s s' decls' :
  connect_server host server_name server_config decls s = (s', Ok decls') ->
  exists session tools,
    sessions s' !! server_name = Some session
    /\ list_tools host session = Ok tools
    /\ decls' = decls ++ map declaration tools
    /\ (forall tool, tool ∈ tools -> tools_map s' !! tool_name tool = Some server_name)
    /\ (forall name,
           name ∉ map tool_name tools -> tools_map s' !! name = tools_map s !! name)
    /\ gemini_tools s' = gemini_tools s.
Proof.
  unfold connect_server, pbind, pure.
  destruct (getitem server_config "command") as [command|e]; [|discriminate].
  destruct (get server_config "args" (JArr [])) as [args|e]; [|discriminate].
  destruct (get server_config "env" (JObj [])) as [config_env|e]; [|discriminate].
  destruct (merged_env host config_env) as [env|e]; [|discriminate].
  unfold enter_stdio_client.
  destruct (stdio_client host _ _) as [streams|e]; [|discriminate].
  unfold enter_client_session.
  destruct (client_session host _ streams) as [session|e]; [|discriminate].
  destruct (initialize host session) as [[]|e]; [|discriminate].
  unfold update. cbn [fst snd].
  set (s1 := set_sessions _ _).
  destruct (list_tools host session) as [tools|e] eqn:Htools; [|discriminate].
  destruct (register_tools_spec server_name tools decls s1)
    as (s2 & Hrun & Hin & Hout & Hs & Hg).
  rewrite Hrun. intros [= <- <-].
  exists session, tools. simpl. repeat split; try assumption.
  rewrite Hs. simpl. apply lookup_insert_eq.
Qed.

(** A server that did not start leaves the catalog as it was. *)
Lemma connect_server_catalog server_name server_config decls s :
  gemini_tools (fst (connect_server host server_name server_config decls s))
  = gemini_tools s.
Proof.
  unfold connect_server, pbind, pure.
  destruct (getitem server_config "command") as [command|e]; [|reflexivity].
  destruct (get server_config "args" (JArr [])) as [args|e]; [|reflexivity].
  destruct (get server_config "env" (JObj [])) as [config_env|e]; [|reflexivity].
  destruct (merged_env host config_env) as [env|e]; [|reflexivity].
  unfold enter_stdio_client.
  destruct (stdio_client host _ _) as [streams|e]; [|reflexivity].
  unfold enter_client_session.
  destruct (client_session host _ streams) as [session|e]; [|reflexivity].
  destruct (initialize host session) as [[]|e]; [|reflexivity].
  unfold update. cbn [fst snd].
  set (s1 := set_sessions _ _).
  destruct (list_tools host session) as [tools|e]; [|reflexivity].
  destruct (register_tools_spec server_name tools decls s1)
    as (s2 & Hrun & _ & _ & _ & Hg).
  rewrite Hrun. simpl. exact Hg.
Qed.

(** An entry of the routing table is never removed. *)
Lemma connect_server_keeps_entries server_name server_config decls s name :
  is_Some (tools_map s !! name) ->
  is_Some (tools_map (fst (connect_server host server_name server_config decls s)) !! name).
Proof.
  intros Hname.
  destruct (connect_server host server_name server_config decls s) as [s' [decls'|e]] eqn:Hrun.
  - destruct (connect_server_ok _ _ _ _ _ _ Hrun)
      as (session & tools & _ & _ & _ & Hin & Hout & _).
    simpl. destruct (decide (name ∈ map tool_name tools)) as [Hlisted|Hnot].
    + apply list_elem_of_fmap in Hlisted as (tool & -> & Htool).
      rewrite (Hin tool Htool). eauto.
    + now rewrite (Hout name Hnot).
  - revert Hrun. unfold connect_server, pbind, pure.
    destruct (getitem server_config "command") as [command|e0]; [|now intros [= <- _]].
    destruct (get server_config "args" (JArr [])) as [args|e0]; [|now intros [= <- _]].
    destruct (get server_config "env" (JObj [])) as [config_env|e0]; [|now intros [= <- _]].
    destruct (merged_env host config_env) as [env|e0]; [|now intros [= <- _]].
    unfold enter_stdio_client.
    destruct (stdio_client host _ _) as [streams|e0]; [|now intros [= <- _]].
    unfold enter_client_session.
    destruct (client_session host _ streams) as [session|e0]; [|now intros [= <- _]].
    destruct (initialize host session) as [[]|e0]; [|now intros [= <- _]].
    unfold update. cbn [fst snd].
    set (s1 := set_sessions _ _).
    destruct (list_tools host session) as [tools|e0]; [|now intros [= <- _]].
    destruct (register_tools_spec server_name tools decls s1) as (s2 & -> & _).
    discriminate.
Qed.

Lemma connect_servers_app xs ys decls s :
  connect_servers host (xs ++ ys) decls s
  = pbind (connect_servers host xs decls) (fun decls' => connect_servers host ys decls') s.
Proof.
  revert decls s. induction xs as [|[name config] xs IH]; intros decls s; [reflexivity|].
  simpl. unfold pbind.
  destruct (connect_server host name config decls s) as [s1 [decls1|e]]; [|reflexivity].
  rewrite IH. reflexivity.
Qed.

(** All the servers started: what was declared on the way is routed. *)
Lemma connect_servers_spec servers decls s :
  gemini_tools (fst (connect_servers host servers decls s)) = gemini_tools s
  /\ (forall name,
         is_Some (tools_map s !! name) ->
         is_Some (tools_map (fst (connect_servers host servers decls s)) !! name))
  /\ (forall decls',
         snd (connect_servers host servers decls s) = Ok decls' ->
         exists new,
           decls' = decls ++ new
           /\ Forall (fun d =>
                        is_Some (tools_map (fst (connect_servers host servers decls s))
                                 !! fd_name d)) new).
Proof.
  revert decls s. induction servers as [|[name config] rest IH]; intros decls s.
  { simpl. repeat split; [now intros|].
    intros decls' [= <-]. exists []. now rewrite app_nil_r. }
  simpl. unfold pbind.
  pose proof (connect_server_catalog name config decls s) as Hg.
  pose proof (fun n => connect_server_keeps_entries name config decls s n) as Hkeep.
  destruct (connect_server host name config decls s) as [s1 [decls1|e]] eqn:Hrun;
    simpl in Hg, Hkeep.
  2:{ simpl. repeat split; [exact Hg|exact Hkeep|discriminate]. }
  destruct (IH decls1 s1) as (IHg & IHkeep & IHdecl).
  split; [congruence|]. split; [intros n Hn; apply IHkeep, Hkeep, Hn|].
  intros decls' Hout. destruct (IHdecl decls' Hout) as (new & -> & Hall).
  destruct (connect_server_ok _ _ _ _ _ _ Hrun) as (session & tools & _ & _ & -> & Hin & _).
  exists (map declaration tools ++ new). split; [now rewrite app_assoc|].
  apply Forall_app. split; [|exact Hall].
  apply Forall_forall. intros d Hd.
  apply list_elem_of_fmap in Hd as (tool & -> & Htool).
  apply IHkeep. simpl. rewrite (Hin tool Htool). eauto.
Qed.

End CatalogFacts.

Section CatalogOfServers.
Variable host : Host.

Lemma lists_spec name server :
  lists name server = true <-> name ∈ map tool_name (snd server).
Proof.
  unfold lists. rewrite existsb_exists. split.
  - intros (tool & Hin & Heq). apply String.eqb_eq in Heq as <-.
    apply list_elem_of_fmap. exists tool. split; [reflexivity|now apply list_elem_of_In].
  - intros Hin. apply list_elem_of_fmap in Hin as (tool & -> & Hin).
    exists tool. split; [now apply list_elem_of_In|apply String.eqb_refl].
Qed.

Lemma owner_cons name server servers :
  owner name (server :: servers)
  = match owner name servers with
    | Some later => Some later
    | None => if lists name server then Some (fst (fst server)) else None
    end.
Proof.
  unfold owner. cbn [List.filter]. destruct (lists name server).
  - cbn [map]. rewrite last_cons.
    now destruct (last (map (fun server => fst (fst server))
                          (List.filter (lists name) servers))).
  - now destruct (last (map (fun server => fst (fst server))
                          (List.filter (lists name) servers))).
Qed.

(** The session of a server that started is on the exit stack. *)
Lemma connect_server_session server_name server_config decls s s' decls' :
  connect_server host server_name server_config decls s = (s', Ok decls') ->
  forall session,
    sessions s' !! server_name = Some session -> Session session ∈ _exit_stack s'.
Proof.
  unfold connect_server, pbind, pure.
  destruct (getitem server_config "command") as [command|e]; [|discriminate].
  destruct (get server_config "args" (JArr [])) as [args|e]; [|discriminate].
  destruct (get server_config "env" (JObj [])) as [config_env|e]; [|discriminate].
  destruct (merged_env host config_env) as [env|e]; [|discriminate].
  unfold enter_stdio_client.
  destruct (stdio_client host _ _) as [streams|e]; [|discriminate].
  unfold enter_client_session.
  destruct (client_session host _ streams) as [session|e]; [|discriminate].
  destruct (initialize host session) as [[]|e]; [|discriminate].
  unfold update. cbn [fst snd].
  set (s1 := set_sessions _ _).
  destruct (list_tools host session) as [tools|e] eqn:Htools; [|discriminate].
  destruct (register_tools_spec server_name tools decls s1)
    as (s2 & Hrun & _ & _ & Hs & _).
  pose proof (started_register_tools server_name tools decls s1) as Hstarted.
  rewrite Hrun in Hstarted |- *. destruct Hstarted as ([more Hstack] & _).
  simpl in Hstack. intros [= <- _] session'. simpl. rewrite Hs. simpl.
  rewrite lookup_insert_eq. intros [= <-]. rewrite Hstack.
  apply elem_of_app. left. apply elem_of_app. right.
  apply list_elem_of_singleton. reflexivity.
Qed.

(** All the servers started: who they are, what they declared and where
    each tool name is routed. *)
Lemma connect_servers_started servers decls s s' decls' :
  connect_servers host servers decls s = (s', Ok decls') ->
  exists started : list Started,
    map (fun server => fst (fst server)) started = map fst servers
    /\ Forall (fun server =>
                 list_tools host (snd (fst server)) = Ok (snd server)
                 /\ Session (snd (fst server)) ∈ _exit_stack s') started
    /\ decls' = decls ++ declared started
    /\ (forall name,
           tools_map s' !! name
           = match owner name started with
             | Some server_name => Some server_name
             | None => tools_map s !! name
             end).
Proof.
  revert decls s. induction servers as [|[name config] rest IH]; intros decls s.
  { intros [= <- <-]. exists []. simpl. rewrite app_nil_r.
    repeat split. constructor. }
  simpl. unfold pbind.
  destruct (connect_server host name config decls s) as [s1 [decls1|e]] eqn:Hrun;
    [|discriminate].
  intros Hrest.
  destruct (connect_server_ok host _ _ _ _ _ _ Hrun)
    as (session & tools & Hs & Htools & -> & Hin & Hout & _).
  pose proof (connect_server_session _ _ _ _ _ _ Hrun session Hs) as Hstack.
  destruct (IH _ _ Hrest) as (started & Hnames & Hall & -> & Hroute).
  pose proof (started_connect_servers host rest (decls ++ map declaration tools) s1)
    as ([more Hmore] & _).
  rewrite Hrest in Hmore. simpl in Hmore.
  exists ((name, session, tools) :: started). split; [|split; [|split]].
  - simpl. now rewrite Hnames.
  - constructor; [|exact Hall]. simpl. split; [exact Htools|].
    rewrite Hmore. apply elem_of_app. now left.
  - unfold declared at 2. simpl. fold (declared started). now rewrite app_assoc.
  - intros tool. rewrite Hroute, owner_cons.
    destruct (owner tool started); [reflexivity|].
    destruct (lists tool (name, session, tools)) eqn:Hlists.
    + apply lists_spec in Hlists. simpl in Hlists.
      apply list_elem_of_fmap in Hlists as (t & -> & Ht). now apply Hin.
    + apply Hout. intros Habs.
      assert (lists tool (name, session, tools) = true) by now apply lists_spec.
      congruence.
Qed.

End CatalogOfServers.

(** X15: the catalog offered to the LLM and the routing table agree.
    When [connect] returns, every server of the configuration has
    started, in the order of the configuration, with a session that is
    on the exit stack and that listed its tools; the catalog is one
    [Tool] holding one declaration per listed tool, server after server
    (and it is as before when no tool was listed at all); and the
    routing table sends each tool name to the last server that listed
    it, the other names being routed as before.  So a name listed by two
    servers is declared twice and routed once.  When [connect] raises,
    the catalog is as before, although the routing table may already
    hold the tools of the servers that started. *)
Theorem catalog_matches_routing (host : Host) (s : System) :
  let s' := fst (connect host s) in
  (snd (connect host s) = Ok tt ->
   exists (config servers : json) (entries : list (string * json))
          (started : list Started),
     load_config host (config_path s) = Ok config
     /\ get config "mcpServers" (JObj []) = Ok servers
     /\ items servers = Ok entries
     /\ map (fun server => fst (fst server)) started = map fst entries
     /\ Forall (fun server =>
                  list_tools host (snd (fst server)) = Ok (snd server)
                  /\ Session (snd (fst server)) ∈ _exit_stack s') started
     /\ gemini_tools s'
        = match declared started with
          | [] => gemini_tools s
          | declarations => [{| function_declarations := declarations |}]
          end
     /\ (forall name,
            tools_map s' !! name
            = match owner name started with
              | Some server_name => Some server_name
              | None => tools_map s !! name
              end)
     /\ Forall (fun d => is_Some (tools_map s' !! fd_name d)) (declared started))
  /\ (forall e, snd (connect host s) = Raise e -> gemini_tools s' = gemini_tools s).
Proof.
  intros s'. unfold s', connect, pbind, pure.
  destruct (load_config host (config_path s)) as [config|e0];
    [|split; [discriminate|reflexivity]].
  destruct (get config "mcpServers" (JObj [])) as [servers|e0] eqn:Hget;
    [|split; [discriminate|reflexivity]].
  destruct (items servers) as [entries|e0] eqn:Hitems;
    [|split; [discriminate|reflexivity]].
  destruct (connect_servers_spec host entries [] s) as (Hg & _ & _).
  destruct (connect_servers host entries [] s) as [s1 [decls|e0]] eqn:Hrun; simpl in Hg.
  2:{ split; [discriminate|]. intros e _. exact Hg. }
  destruct (connect_servers_started host _ _ _ _ _ Hrun)
    as (started & Hnames & Hall & Hdecls & Hroute).
  simpl in Hdecls. subst decls.
  assert (Hrouted : forall s2, tools_map s2 = tools_map s1 ->
                               Forall (fun d => is_Some (tools_map s2 !! fd_name d))
                                 (declared started)).
  { intros s2 Hs2. apply List.Forall_forall. intros d Hd.
    unfold declared in Hd. apply in_flat_map in Hd as (server & Hserver & Hd).
    apply in_map_iff in Hd as (tool & <- & Htool). rewrite Hs2, Hroute.
    destruct (owner (fd_name (declaration tool)) started) as [later|] eqn:Howner;
      [eauto|].
    exfalso. unfold owner in Howner. apply last_None in Howner.
    apply fmap_nil_inv in Howner.
    assert (Hin : In server (List.filter (lists (tool_name tool)) started)).
    { apply List.filter_In. split; [exact Hserver|]. apply lists_spec.
      apply list_elem_of_fmap. exists tool. split; [reflexivity|].
      now apply list_elem_of_In. }
    simpl in Howner. rewrite Howner in Hin. exact Hin. }
  split; [|destruct (declared started); discriminate].
  intros _. exists config, servers, entries, started.
  split; [reflexivity|]. split; [exact Hget|]. split; [exact Hitems|].
  split; [exact Hnames|].
  destruct (declared started) as [|d decls] eqn:Hdeclared; simpl.
  - split; [exact Hall|]. split; [exact Hg|]. split; [exact Hroute|constructor].
  - split; [exact Hall|]. split; [reflexivity|]. split; [exact Hroute|].
    now apply Hrouted.
Qed.

Lemma catalog_matches_routing_witness :
  (exists started : list Started,
      map (fun server => fst (fst server)) started = ["alpha"; "beta"]
      /\ forall name,
          tools_map (fst (connect hosts.demo (hosts.fresh []))) !! name
          = owner name started)
  /\ gemini_tools (fst (connect hosts.beta_fails (hosts.fresh []))) = [].
Proof.
  split.
  - destruct (catalog_matches_routing hosts.demo (hosts.fresh [])) as [H _].
    destruct H as (config & servers & entries & started & Hload & Hget & Hitems
                   & Hnames & _ & _ & Hroute & _); [vm_compute; reflexivity|].
    simpl in Hload. injection Hload as <-.
    vm_compute in Hget. injection Hget as <-.
    simpl in Hitems. injection Hitems as <-.
    exists started. split; [exact Hnames|].
    intros name. rewrite Hroute. simpl. rewrite lookup_empty.
    now destruct (owner name started).
  - destruct (catalog_matches_routing hosts.beta_fails (hosts.fresh [])) as [_ H].
    apply (H (ExternalError "spawn")). vm_compute. reflexivity.
Defined.

(** X16: the last server to list a tool owns it.  When the servers of
    the configuration have all started, the last of them has a session
    and every tool this session lists is routed to it, whichever server
    listed the same name before. *)
Theorem last_server_wins
  (host : Host) (s s' : System) (config servers : json)
  (pre : list (string * json)) (server_name : string) (server_config : json) :
  load_config host (config_path s) = Ok config ->
  get config "mcpServers" (JObj []) = Ok servers ->
  items servers = Ok (pre ++ [(server_name, server_config)]) ->
  connect host s = (s', Ok tt) ->
  exists session tools,
    sessions s' !! server_name = Some session
    /\ list_tools host session = Ok tools
    /\ forall tool, tool ∈ tools -> tools_map s' !! tool_name tool = Some server_name.
Proof.
  intros Hload Hget Hitems. unfold connect, pbind, pure.
  rewrite Hload, Hget, Hitems, connect_servers_app. unfold pbind.
  destruct (connect_servers host pre [] s) as [s1 [decls1|e]]; [|discriminate].
  simpl. unfold pbind, pure.
  destruct (connect_server host server_name server_config decls1 s1)
    as [s2 [decls2|e]] eqn:Hrun; [|discriminate].
  destruct (connect_server_ok host _ _ _ _ _ _ Hrun)
    as (session & tools & Hs & Htools & _ & Hin & _).
  destruct decls2; intros [= <-]; exists session, tools; simpl; now repeat split.
Qed.

Lemma last_server_wins_witness :
  tools_map (fst (connect hosts.demo (hosts.fresh []))) !! "search" = Some "beta".
Proof.
  assert (Hrun : connect hosts.demo (hosts.fresh [])
                 = (fst (connect hosts.demo (hosts.fresh [])), Ok tt)).
  { vm_compute. reflexivity. }
  destruct (last_server_wins hosts.demo (hosts.fresh [])
              (fst (connect hosts.demo (hosts.fresh [])))
              hosts.two_servers
              (JObj [("alpha",
                      JObj [("command", JStr "uvx"); ("args", JArr [JStr "alpha-server"]);
                            ("env", JObj [("PATH", JStr "/opt/bin")])]);
                     ("beta", JObj [("command", JStr "npx")])])
              [("alpha",
                JObj [("command", JStr "uvx"); ("args", JArr [JStr "alpha-server"]);
                      ("env", JObj [("PATH", JStr "/opt/bin")])])]
              "beta" (JObj [("command", JStr "npx")]) eq_refl eq_refl eq_refl Hrun)
    as (session & tools & Hs & Htools & Hin).
  assert (Hsession : session = 3) by (vm_compute in Hs; congruence).
  subst session. simpl in Htools. injection Htools as <-.
  apply (Hin hosts.search_undescribed). apply list_elem_of_singleton. reflexivity.
Defined.

(* ------------------------------------------------------------------ *)
(** ** The environment of a server                                     *)
(* ------------------------------------------------------------------ *)

Lemma dict_update_lookup {V : Type} (other d : list (string * V)) (key : string) :
  dict_lookup key (dict_update d other)
  = match dict_latest key other with
    | Some v => Some v
    | None => dict_lookup key d
    end.
Proof.
  unfold dict_update, dict_latest.
  revert d. induction other as [|[k v] other IH]; intros d; [reflexivity|].
  simpl fold_left. rewrite IH. cbn [List.filter fst snd].
  destruct (String.eqb_spec k key) as [->|Hne].
  - cbn [map snd]. rewrite last_cons.
    destruct (last (map snd (List.filter (fun entry => String.eqb (fst entry) key) other)));
      [reflexivity|apply dict_lookup_set_eq].
  - destruct (last (map snd (List.filter (fun entry => String.eqb (fst entry) key) other)));
      [reflexivity|now apply dict_lookup_set_ne].
Qed.

Lemma dict_latest_values {V W : Type} (g : V -> W) (entries : list (string * V)) key :
  dict_latest key (map (fun kv => (fst kv, g (snd kv))) entries)
  = g <$> dict_latest key entries.
Proof.
  unfold dict_latest. induction entries as [|[k v] entries IH]; [reflexivity|].
  cbn [map List.filter fst snd].
  destruct (String.eqb k key); [|exact IH].
  cbn [map snd]. rewrite !last_cons, IH.
  now destruct (last (map snd (List.filter (fun entry => String.eqb (fst entry) key)
                                 entries))).
Qed.

(** X17: the environment given to a server.  When the [env] of its
    configuration is an object, the server gets [UV_LINK_MODE] set to
    [copy], whatever the configuration and the environment of the
    program say; any other variable has the value of the configuration
    if it gives one, and else the value the program itself has, if any.
    When [env] is anything but an object ([null] for one), the start
    fails with [TypeError] before the server is launched. *)
Theorem server_environment
  (host : Host) (server_name : string) (server_config command config_env : json)
  (all_declarations : list FunctionDeclaration) (s : System) :
  getitem server_config "command" = Ok command ->
  get server_config "env" (JObj []) = Ok config_env ->
  (forall members,
      config_env = JObj members ->
      exists env,
        merged_env host config_env = Ok env
        /\ dict_lookup "UV_LINK_MODE" env = Some (JStr "copy")
        /\ forall key,
            key <> "UV_LINK_MODE" ->
            dict_lookup key env
            = match dict_latest key members with
              | Some v => Some v
              | None => JStr <$> dict_latest key (environ host)
              end)
  /\ ((forall members, config_env <> JObj members) ->
      connect_server host server_name server_config all_declarations s
      = (s, Raise TypeError)).
Proof.
  intros Hcommand Henv. split.
  - intros members ->. eexists. split; [reflexivity|]. split.
    + apply dict_lookup_set_eq.
    + intros key Hkey. rewrite dict_lookup_set_ne by congruence.
      rewrite !dict_update_lookup, dict_latest_values. simpl.
      destruct (dict_latest key members); [reflexivity|].
      now destruct (JStr <$> dict_latest key (environ host)).
  - intros Hshape. unfold connect_server, pbind, pure. rewrite Hcommand.
    assert (Hargs : exists args, get server_config "args" (JArr []) = Ok args).
    { unfold getitem in Hcommand. destruct server_config; try discriminate.
      simpl. eauto. }
    destruct Hargs as [args ->]. rewrite Henv.
    destruct config_env; try reflexivity. now destruct (Hshape members).
Qed.

Lemma server_environment_witness :
  exists env,
    merged_env hosts.demo (JObj [("PATH", JStr "/opt/bin")]) = Ok env
    /\ dict_lookup "UV_LINK_MODE" env = Some (JStr "copy")
    /\ dict_lookup "PATH" env = Some (JStr "/opt/bin")
    /\ dict_lookup "GEMINI_API_KEY" env = Some (JStr "secret").
Proof.
  destruct (server_environment hosts.demo "alpha"
              (JObj [("command", JStr "uvx"); ("args", JArr [JStr "alpha-server"]);
                     ("env", JObj [("PATH", JStr "/opt/bin")])])
              (JStr "uvx") (JObj [("PATH", JStr "/opt/bin")]) [] (hosts.fresh [])
              eq_refl eq_refl) as [H _].
  destruct (H [("PATH", JStr "/opt/bin")] eq_refl) as (env & Henv & Huv & Hother).
  exists env. split; [exact Henv|]. split; [exact Huv|]. split.
  - now rewrite Hother.
  - now rewrite Hother.
Defined.

(* ------------------------------------------------------------------ *)
(** ** The console loop                                                *)
(* ------------------------------------------------------------------ *)

Lemma set_stdin_same s : set_stdin (stdin s) s = s.
Proof. now destruct s. Qed.

Section ConsoleFacts.
Variable host : Host.
Variable turn : string -> System -> System.

(** A turn does not touch the input, and prints one line. *)
Hypothesis turn_set_stdin :
  forall user_input rest s, turn user_input (set_stdin rest s) = set_stdin rest (turn user_input s).
Hypothesis turn_stdin : forall user_input s, stdin (turn user_input s) = stdin s.

Lemma turns_set_stdin requests rest s :
  fold_left (fun s user_input => turn user_input s) requests (set_stdin rest s)
  = set_stdin rest (fold_left (fun s user_input => turn user_input s) requests s).
Proof.
  revert s. induction requests as [|r requests IH]; intros s; [reflexivity|].
  simpl. now rewrite turn_set_stdin, IH.
Qed.

Lemma turns_stdin requests s :
  stdin (fold_left (fun s user_input => turn user_input s) requests s) = stdin s.
Proof.
  revert s. induction requests as [|r requests IH]; intros s; [reflexivity|].
  simpl. now rewrite IH, turn_stdin.
Qed.

Lemma chat_iterations_spec inputs s :
  stdin s = inputs ->
  chat_iterations host turn inputs s
  = set_stdin (unread host inputs)
      (print Goodbye
         (fold_left (fun s user_input => turn user_input s) (requests_of host inputs) s)).
Proof.
  revert s. induction inputs as [|input rest IH]; intros s Hs.
  - simpl. rewrite <- Hs. now destruct s.
  - destruct input as [text|]; [|reflexivity].
    simpl. destruct (String.eqb (str_strip host text) EmptyString).
    + rewrite IH by reflexivity. rewrite turns_set_stdin. now destruct s.
    + destruct (leaves host (str_strip host text)); [reflexivity|].
      rewrite IH by (now rewrite turn_stdin).
      simpl. rewrite turn_set_stdin, turns_set_stdin. reflexivity.
Qed.

End ConsoleFacts.

Lemma query_turn_set_stdin env user_input rest s :
  query_turn env user_input (set_stdin rest s) = set_stdin rest (query_turn env user_input s).
Proof.
  unfold query_turn. simpl.
  change (agent_of (set_stdin rest s)) with (agent_of s).
  now destruct (agent.query env (agent_of s) user_input (core s)).
Qed.

Lemma process_turn_set_stdin env user_input rest s :
  process_turn env user_input (set_stdin rest s)
  = set_stdin rest (process_turn env user_input s).
Proof.
  unfold process_turn. simpl. destruct (orchestrator s) as [o|]; [|reflexivity].
  now destruct (process env o user_input (core s)).
Qed.

(** What a turn leaves alone, and the one line it prints. *)
Lemma query_turn_frame env user_input s :
  let s' := query_turn env user_input s in
  stdin s' = stdin s /\ _exit_stack s' = _exit_stack s /\ released s' = released s
  /\ sessions s' = sessions s /\ tools_map s' = tools_map s
  /\ exists o, stdout s' = stdout s ++ [o].
Proof.
  unfold query_turn.
  destruct (agent.query env (agent_of s) user_input (core s)) as [st' r]. simpl.
  repeat split. eauto.
Qed.

Lemma process_turn_frame env user_input s :
  let s' := process_turn env user_input s in
  stdin s' = stdin s /\ _exit_stack s' = _exit_stack s /\ released s' = released s
  /\ sessions s' = sessions s /\ tools_map s' = tools_map s
  /\ exists o, stdout s' = stdout s ++ [o].
Proof.
  unfold process_turn. destruct (orchestrator s) as [o|].
  - destruct (process env o user_input (core s)) as [st' r]. simpl. repeat split. eauto.
  - simpl. repeat split. eauto.
Qed.

Lemma chat_loop_turns host env s :
  chat_loop host env s
  = set_stdin (unread host (stdin s))
      (print Goodbye
         (fold_left (fun s user_input => query_turn env user_input s)
            (requests_of host (stdin s)) (print Banner s))).
Proof.
  unfold chat_loop. apply chat_iterations_spec; [|intros ui s0|reflexivity].
  - apply query_turn_set_stdin.
  - apply query_turn_frame.
Qed.

Lemma chat_loop_multi_turns host env s :
  chat_loop_multi host env s
  = set_stdin (unread host (stdin s))
      (print Goodbye
         (fold_left (fun s user_input => process_turn env user_input s)
            (requests_of host (stdin s)) (print Banner s))).
Proof.
  unfold chat_loop_multi. apply chat_iterations_spec; [|intros ui s0|reflexivity].
  - apply process_turn_set_stdin.
  - apply process_turn_frame.
Qed.

(** One line per turn. *)
Lemma turns_stdout (turn : string -> System -> System) requests s :
  (forall user_input s, exists o, stdout (turn user_input s) = stdout s ++ [o]) ->
  length (stdout (fold_left (fun s user_input => turn user_input s) requests s))
  = length (stdout s) + length requests.
Proof.
  intros Hturn. revert s. induction requests as [|r requests IH]; intros s.
  - simpl. lia.
  - simpl. rewrite IH. destruct (Hturn r s) as [o ->].
    rewrite length_app. simpl. lia.
Qed.

(** X18: the console loops serve the requests one by one and survive
    the failing ones.  The requests are the lines of the input, stripped
    and the empty ones dropped, up to the first leaving word,
    interruption or end of the input; the loop runs one turn per
    request, in order, between the banner and the goodbye.  Every
    request is reported once, with its answer or with its error, and a
    request that fails stops nothing: the next one is served all the
    same.  What follows a leaving word or an interruption stays
    unread. *)
Theorem console_serves_each_request (host : Host) (env : Env) (s : System) :
  chat_loop host env s
  = set_stdin (unread host (stdin s))
      (print Goodbye
         (fold_left (fun s user_input => query_turn env user_input s)
            (requests_of host (stdin s)) (print Banner s)))
  /\ chat_loop_multi host env s
     = set_stdin (unread host (stdin s))
         (print Goodbye
            (fold_left (fun s user_input => process_turn env user_input s)
               (requests_of host (stdin s)) (print Banner s)))
  /\ length (stdout (chat_loop host env s))
     = length (stdout s) + 2 + length (requests_of host (stdin s))
  /\ length (stdout (chat_loop_multi host env s))
     = length (stdout s) + 2 + length (requests_of host (stdin s)).
Proof.
  split; [apply chat_loop_turns|]. split; [apply chat_loop_multi_turns|]. split.
  - rewrite chat_loop_turns. simpl. rewrite length_app, turns_stdout.
    + simpl. rewrite length_app. simpl. lia.
    + intros ui s1. apply query_turn_frame.
  - rewrite chat_loop_multi_turns. simpl. rewrite length_app, turns_stdout.
    + simpl. rewrite length_app. simpl. lia.
    + intros ui s1. apply process_turn_frame.
Qed.

(* ------------------------------------------------------------------ *)
(** ** The whole run                                                   *)
(* ------------------------------------------------------------------ *)

Lemma turns_frame (turn : string -> System -> System) requests s :
  (forall user_input s,
      _exit_stack (turn user_input s) = _exit_stack s
      /\ released (turn user_input s) = released s
      /\ sessions (turn user_input s) = sessions s) ->
  let s' := fold_left (fun s user_input => turn user_input s) requests s in
  _exit_stack s' = _exit_stack s /\ released s' = released s /\ sessions s' = sessions s.
Proof.
  intros Hturn. revert s. induction requests as [|r requests IH]; intros s; [now simpl|].
  simpl. destruct (IH (turn r s)) as (H1 & H2 & H3).
  destruct (Hturn r s) as (H4 & H5 & H6).
  repeat split; congruence.
Qed.

(** What a console loop leaves of the system. *)
Lemma chat_loop_frame host env s :
  let s' := chat_loop host env s in
  _exit_stack s' = _exit_stack s /\ released s' = released s /\ sessions s' = sessions s
  /\ stdin s' = unread host (stdin s) /\ last (stdout s') = Some Goodbye.
Proof.
  cbv zeta. rewrite chat_loop_turns.
  destruct (turns_frame (query_turn env) (requests_of host (stdin s)) (print Banner s))
    as (H1 & H2 & H3).
  { intros ui s0. destruct (query_turn_frame env ui s0) as (_ & ? & ? & ? & _).
    repeat split; assumption. }
  simpl in *. repeat split; try assumption. apply last_snoc.
Qed.

Lemma chat_loop_multi_frame host env s :
  let s' := chat_loop_multi host env s in
  _exit_stack s' = _exit_stack s /\ released s' = released s /\ sessions s' = sessions s
  /\ stdin s' = unread host (stdin s) /\ last (stdout s') = Some Goodbye.
Proof.
  cbv zeta. rewrite chat_loop_multi_turns.
  destruct (turns_frame (process_turn env) (requests_of host (stdin s)) (print Banner s))
    as (H1 & H2 & H3).
  { intros ui s0. destruct (process_turn_frame env ui s0) as (_ & ? & ? & ? & _).
    repeat split; assumption. }
  simpl in *. repeat split; try assumption. apply last_snoc.
Qed.

Section RunFacts.
Variable host : Host.

Lemma started_connect_multi : moves started (connect_multi host).
Proof.
  unfold connect_multi.
  apply moves_pbind; [apply started_trans|apply started_connect|]. intros _.
  apply moves_pbind; [apply started_trans| |intros _]; now apply moves_update.
Qed.

Lemma on_stack_connect_multi : keeps all_on_stack (connect_multi host).
Proof.
  unfold connect_multi.
  apply keeps_pbind; [apply on_stack_connect|]. intros _.
  apply keeps_pbind; [|intros _]; intros s Hs; exact Hs.
Qed.

(** [try: start; chat finally: cleanup], for a start that only starts
    servers and a console loop that leaves the connections alone. *)
Lemma run_system_spec (start : Prog System unit) (chat : System -> System) (s : System) :
  _exit_stack s = [] -> released s = [] -> all_on_stack s ->
  keeps all_on_stack start -> moves started start ->
  (forall s, _exit_stack (chat s) = _exit_stack s /\ released (chat s) = released s
             /\ sessions (chat s) = sessions s
             /\ stdin (chat s) = unread host (stdin s)
             /\ last (stdout (chat s)) = Some Goodbye) ->
  let s1 := fst (start s) in
  exists s' r,
    run_system host start chat s = Finished s' r
    /\ _exit_stack s' = []
    /\ released s' = rev (_exit_stack s1)
    /\ (forall server session,
           sessions s' !! server = Some session -> Session session ∈ released s')
    /\ match snd (start s) with
       | Ok _ =>
           stdout s' = stdout (chat s1)
           /\ core s' = core (chat s1)
           /\ stdin s' = unread host (stdin s)
           /\ last (stdout s') = Some Goodbye
           /\ r = aclose host (_exit_stack s1)
       | Raise e =>
           stdout s' = stdout s1
           /\ stdin s' = stdin s
           /\ core s' = core s
           /\ r = Raise (match aclose host (_exit_stack s1) with
                         | Raise e' => e'
                         | Ok _ => e
                         end)
       end.
Proof.
  intros Hstack Hreleased Hon Hkeeps Hmoves Hchat s1. unfold run_system, s1.
  specialize (Hkeeps s Hon). specialize (Hmoves s).
  destruct (start s) as [s1' [[]|e]]; simpl in Hkeeps, Hmoves |- *;
    destruct Hmoves as (_ & Hr & Hi & Hc & _).
  - destruct (Hchat s1') as (H1 & H2 & H3 & H4 & H5).
    unfold cleanup. eexists _, _. split; [reflexivity|]. simpl.
    rewrite H2, Hr, Hreleased, H1. simpl. split; [reflexivity|].
    split; [reflexivity|]. split.
    + intros server session Hsess. rewrite H3 in Hsess.
      apply list_elem_of_In, in_rev. rewrite rev_involutive.
      apply list_elem_of_In. exact (Hkeeps server session Hsess).
    + rewrite H4, Hi. repeat split; try assumption.
      now destruct (aclose host (_exit_stack s1')) as [[]|].
  - unfold cleanup. eexists _, _. split; [reflexivity|]. simpl.
    rewrite Hr, Hreleased. simpl. split; [reflexivity|].
    split; [reflexivity|]. split.
    + intros server session Hsess.
      apply list_elem_of_In, in_rev. rewrite rev_involutive.
      apply list_elem_of_In. exact (Hkeeps server session Hsess).
    + repeat split; try assumption.
      now destruct (aclose host (_exit_stack s1')) as [[]|].
Qed.

End RunFacts.

(** X19: a run of the program releases what it started.  Without an API
    key in the environment, or with an empty one, [main] ends with the
    [ValueError] of the constructor before anything is read or started,
    in both modes.  Otherwise [connect] runs on the new object (the
    [connect] of the mode chosen on the command line) and [main] ends
    with an empty exit stack, the contexts that this [connect] had put
    on the stack released, last entered first, and so every session
    that the object holds, whether [connect] returned or not.  When
    [connect] returned, the console loop of the mode ran on what
    [connect] left, to its goodbye: what was printed and asked of the
    LLM is what this loop printed and asked, the input is read up to
    where the loop left it, and [main] ends as the closing of the
    connections does, no failure of a request reaching it.  When
    [connect] raised, nothing more was printed, no line of the input
    was read and the LLM was never called, and [main] ends with the
    error of the closing if there is one, else with the error of
    [connect]. *)
Theorem main_releases_what_it_started
  (host : Host) (env : Env) (argv : list string) (inputs : list Input) :
  match dict_lookup "GEMINI_API_KEY" (environ host) with
  | None => main host env argv inputs = NotStarted ValueError
  | Some api_key =>
      if String.eqb api_key EmptyString
      then main host env argv inputs = NotStarted ValueError
      else
        let multi_mode := snd (main_py.parse_args argv) in
        let start := if multi_mode then connect_multi host else connect host in
        let chat := if multi_mode then chat_loop_multi host env else chat_loop host env in
        let s0 := new_object (fst (main_py.parse_args argv)) inputs in
        let s1 := fst (start s0) in
        exists s r,
          main host env argv inputs = Finished s r
          /\ _exit_stack s = []
          /\ released s = rev (_exit_stack s1)
          /\ (forall server session,
                 sessions s !! server = Some session -> Session session ∈ released s)
          /\ match snd (start s0) with
             | Ok _ =>
                 stdout s = stdout (chat s1)
                 /\ core s = core (chat s1)
                 /\ stdin s = unread host inputs
                 /\ last (stdout s) = Some Goodbye
                 /\ r = aclose host (_exit_stack s1)
             | Raise e =>
                 stdout s = stdout s1
                 /\ stdin s = inputs
                 /\ core s = initial_state
                 /\ r = Raise (match aclose host (_exit_stack s1) with
                               | Raise e' => e'
                               | Ok _ => e
                               end)
             end
  end.
Proof.
  unfold main, init. destruct (main_py.parse_args argv) as [path multi_mode].
  destruct (dict_lookup "GEMINI_API_KEY" (environ host)) as [api_key|]; [|reflexivity].
  destruct (String.eqb api_key EmptyString); [reflexivity|].
  cbn [fst snd].
  assert (Hon : all_on_stack (new_object path inputs)).
  { intros server session Hsess. simpl in Hsess. now rewrite lookup_empty in Hsess. }
  destruct multi_mode; cbv zeta.
  - apply (run_system_spec host (connect_multi host) (chat_loop_multi host env)
             (new_object path inputs));
      try reflexivity; try assumption.
    + apply on_stack_connect_multi.
    + apply started_connect_multi.
    + intros s. apply chat_loop_multi_frame.
  - apply (run_system_spec host (connect host) (chat_loop host env)
             (new_object path inputs));
      try reflexivity; try assumption.
    + apply on_stack_connect.
    + apply started_connect.
    + intros s. apply chat_loop_frame.
Qed.

Lemma main_releases_what_it_started_witness :
  exists s r,
    main hosts.demo stub.echo_for_ever ["--multi"] [Line "hello"; Line "quit"; Line "more"]
    = Finished s r
    /\ _exit_stack s = []
    /\ length (released s) = 4
    /\ stdin s = [Line "more"]
    /\ last (stdout s) = Some Goodbye
    /\ r = Ok tt.
Proof.
  destruct (main_releases_what_it_started hosts.demo stub.echo_for_ever ["--multi"]
              [Line "hello"; Line "quit"; Line "more"])
    as (s & r & Hmain & Hstack & Hreleased & _ & Hstarted).
  assert (Hstart :
            snd ((if snd (main_py.parse_args ["--multi"])
                  then connect_multi hosts.demo else connect hosts.demo)
                   (new_object (fst (main_py.parse_args ["--multi"]))
                      [Line "hello"; Line "quit"; Line "more"])) = Ok tt)
    by (vm_compute; reflexivity).
  rewrite Hstart in Hstarted.
  destruct Hstarted as (_ & _ & Hstdin & Hlast & Hr).
  exists s, r. split; [exact Hmain|]. split; [exact Hstack|].
  split; [rewrite Hreleased; vm_compute; reflexivity|].
  split; [exact Hstdin|]. split; [exact Hlast|]. exact Hr.
Defined.
